(** * ImAgInE: prompt resolution and AR placement, a shallow embedding

    The development follows the TypeScript/JavaScript sources:
    - the scoring route handler (keyword table [modelCategories], functions
      [generateModelWithAI] and [POST]), module [Generate];
    - the earlier route handler [app/api/generate/route.ts] and the Express
      sample server [imagine-ar/server.js], which share one body, module
      [GenerateChain];
    - the client page ([handleGenerate], [renderModelInfo]), modules [Page]
      and [Home], and the older page that talks to the sample server,
      module [HomeOld];
    - the three.js values the component handles, module [Three];
    - the two revisions of [components/ARScene.tsx], modules [SceneA]
      (lines 1-524) and [SceneB] (lines 525-1084), as handlers over one
      [State] driven by [Event]s, and what a third revision changes, module
      [SceneC].

    Module [SpecReading] holds the keyword count as the specification words
    it, for comparison with the handler's.

    Conventions.  JavaScript strings are modelled as [string], sequences of
    8-bit characters.  [toLowerCase] and [trim] are JavaScript's on strings
    of ASCII characters ([ascii_only]); outside ASCII JavaScript lowercases
    and strips further characters, so the statements that predict a result
    from the characters of a prompt assume [ascii_only].  JavaScript numbers
    are modelled as rationals [Q] where the code only copies numbers,
    compares them with zero, and multiplies or adds constants; the
    percentage of the progress callback, a quotient, is computed in IEEE
    doubles ([SpecFloat]).  A JavaScript exception is the [Throw] outcome of
    the [Result] type.  The scene is one run of the component's effect, with
    the value of [isXRSupported] that run captured. *)

From Stdlib Require Import Ascii String QArith Qround Qminmax.
From Stdlib Require SpecFloat.
From stdpp Require Import base option list strings gmap.

Local Open Scope string_scope.

(** ** JavaScript preliminaries *)

(** Outcome of evaluating JavaScript code that may throw. *)
Inductive Result (A : Type) : Type :=
| Ok (a : A)
| Throw.
Arguments Ok {A} a.
Arguments Throw {A}.

Definition bind {A B} (r : Result A) (k : A -> Result B) : Result B :=
  match r with
  | Ok a => k a
  | Throw => Throw
  end.

Notation "'let?' x ':=' r 'in' k" := (bind r (fun x => k))
  (at level 10, x name, r at level 100, k at level 200).

(** [try { body } catch { handler }] *)
Definition try_catch {A} (body : Result A) (handler : A) : A :=
  match body with
  | Ok a => a
  | Throw => handler
  end.

(** Values produced by [JSON.parse] and by [request.json()].  A missing
    property ([undefined]) is [None] at type [option JsValue]. *)
#[warnings="-register-all"] Inductive JsValue : Type :=
| JNull
| JBool (b : bool)
| JNum (q : Q)
| JStr (s : string)
| JArr (elems : list JsValue)
| JObj (fields : list (string * JsValue)).

(** [Boolean(v)] *)
Definition truthy (v : JsValue) : bool :=
  match v with
  | JNull => false
  | JBool b => b
  | JNum q => negb (Qnum q =? 0)%Z
  | JStr s => negb (String.eqb s "")
  | JArr _ => true
  | JObj _ => true
  end.

Definition truthy_opt (o : option JsValue) : bool :=
  match o with
  | Some v => truthy v
  | None => false
  end.

(** Own property of an object literal: the last binding of a key wins. *)
Fixpoint own_prop (k : string) (fields : list (string * JsValue)) : option JsValue :=
  match fields with
  | [] => None
  | (k', v) :: rest =>
      match own_prop k rest with
      | Some w => Some w
      | None => if String.eqb k k' then Some v else None
      end
  end.

(** [v.k] for the property names used by the sources ([prompt], [keywords],
    [mainCategory]): reading a property of [null] throws a TypeError,
    primitives and arrays have no such property. *)
Definition get_prop (v : JsValue) (k : string) : Result (option JsValue) :=
  match v with
  | JNull => Throw
  | JObj fields => Ok (own_prop k fields)
  | _ => Ok None
  end.

(** The one-character strings a string iterates over. *)
Fixpoint chars (s : string) : list string :=
  match s with
  | EmptyString => []
  | String c rest => String c EmptyString :: chars rest
  end.

(** [[...v]] for a truthy [v]: arrays and strings are iterable, the other
    values are not (TypeError). *)
Definition spread (v : JsValue) : Result (list JsValue) :=
  match v with
  | JArr elems => Ok elems
  | JStr s => Ok (map JStr (chars s))
  | _ => Throw
  end.

(** Does the conversion to a string succeed, as in a template literal
    [`${v}`]?  An object parsed from JSON with an own [toString] property
    hides [Object.prototype.toString] by a value that cannot be called, and
    [valueOf] gives no primitive: a TypeError.  An array joins the
    conversions of its elements ([null] gives the empty string there). *)
Fixpoint converts_to_string (v : JsValue) : bool :=
  match v with
  | JArr elems => forallb converts_to_string elems
  | JObj fields =>
      match own_prop "toString" fields with
      | Some _ => false
      | None => true
      end
  | _ => true
  end.

(** A template literal that embeds [v]: evaluated for its exception only,
    the text itself is not represented. *)
Definition template_literal (v : JsValue) : Result unit :=
  if converts_to_string v then Ok tt else Throw.

(** Strings of ASCII characters. *)
Definition is_ascii_char (c : ascii) : bool := (nat_of_ascii c <? 128)%nat.

Fixpoint ascii_only (s : string) : bool :=
  match s with
  | EmptyString => true
  | String c rest => is_ascii_char c && ascii_only rest
  end.

(** [String.prototype.toLowerCase] on the ASCII range. *)
Definition lower_ascii (c : ascii) : ascii :=
  let n := nat_of_ascii c in
  if (65 <=? n)%nat && (n <=? 90)%nat then ascii_of_nat (n + 32) else c.

Fixpoint toLowerCase (s : string) : string :=
  match s with
  | EmptyString => EmptyString
  | String c rest => String (lower_ascii c) (toLowerCase rest)
  end.

(** [v.toLowerCase()]: only strings have the method. *)
Definition js_toLowerCase (v : JsValue) : Result string :=
  match v with
  | JStr s => Ok (toLowerCase s)
  | _ => Throw
  end.

(** [s.split(sep)] for a one-character separator. *)
Fixpoint split (sep : ascii) (s : string) : list string :=
  match s with
  | EmptyString => [EmptyString]
  | String c rest =>
      if Ascii.eqb c sep then EmptyString :: split sep rest
      else match split sep rest with
           | [] => [String c EmptyString]
           | w :: ws => String c w :: ws
           end
  end.

(** [hay.startsWith(needle)] and [hay.includes(needle)] on strings. *)
Fixpoint starts_with (needle hay : string) : bool :=
  match needle, hay with
  | EmptyString, _ => true
  | String a n', String b h' => Ascii.eqb a b && starts_with n' h'
  | String _ _, EmptyString => false
  end.

Fixpoint str_includes (hay needle : string) : bool :=
  starts_with needle hay ||
  match hay with
  | EmptyString => false
  | String _ h' => str_includes h' needle
  end.

(** [s.trim()] on the ASCII range: strips the leading and trailing white
    space (space, tab, line feed, vertical tab, form feed, carriage
    return). *)
Definition is_space (c : ascii) : bool :=
  let n := nat_of_ascii c in
  (n =? 32)%nat || ((9 <=? n)%nat && (n <=? 13)%nat).

Fixpoint trim_start (s : string) : string :=
  match s with
  | EmptyString => EmptyString
  | String c rest => if is_space c then trim_start rest else s
  end.

Fixpoint trim_end (s : string) : string :=
  match s with
  | EmptyString => EmptyString
  | String c rest =>
      match trim_end rest with
      | EmptyString => if is_space c then EmptyString else String c EmptyString
      | t => String c t
      end
  end.

Definition trim (s : string) : string := trim_end (trim_start s).

(** [arr.includes(x)] on an array of strings. *)
Definition array_includes (arr : list string) (x : string) : bool :=
  existsb (String.eqb x) arr.

(** ** The text-completion service, seen from the handlers *)

(** What the call to the external service did: it rejected (network error,
    non-2xx, [text()] throwing), or it produced a text; [parsed] is what
    [JSON.parse] makes of that text, [None] when it throws. *)
Inductive Completion : Type :=
| Rejected
| Responded (text : string) (parsed : option JsValue).

Record Env : Type := mkEnv {
  GEMINI_API_KEY : bool;        (* is process.env.GEMINI_API_KEY set? *)
  completion : Completion
}.

(** Observable side effects: requests sent to the text-completion service. *)
Inductive Effect : Type :=
| GenerateContent (prompt : JsValue).

Record ModelData : Type := mkModelData {
  modelUrl : string;
  modelDescription : string;
  aiGenerated : bool;
  modelType : string
}.

Inductive Response : Type :=
| Json200 (url description : string) (aiGenerated : bool) (modelType : string)
| Json400 (error : string)
| Json500 (error url : string).

Definition response_url (r : Response) : option string :=
  match r with
  | Json200 url _ _ _ => Some url
  | Json400 _ => None
  | Json500 _ url => Some url
  end.

Definition Box_gltf : string :=
  "https://raw.githubusercontent.com/KhronosGroup/glTF-Sample-Models/master/2.0/Box/glTF/Box.gltf".
Definition Duck_gltf : string :=
  "https://raw.githubusercontent.com/KhronosGroup/glTF-Sample-Models/master/2.0/Duck/glTF/Duck.gltf".
Definition Dragon_gltf : string :=
  "https://raw.githubusercontent.com/KhronosGroup/glTF-Sample-Models/master/2.0/Dragon/glTF/Dragon.gltf".
Definition BrainStem_gltf : string :=
  "https://raw.githubusercontent.com/KhronosGroup/glTF-Sample-Models/master/2.0/BrainStem/glTF/BrainStem.gltf".
Definition Lantern_gltf : string :=
  "https://raw.githubusercontent.com/KhronosGroup/glTF-Sample-Models/master/2.0/Lantern/glTF/Lantern.gltf".
Definition Fox_gltf : string :=
  "https://raw.githubusercontent.com/KhronosGroup/glTF-Sample-Models/master/2.0/Fox/glTF/Fox.gltf".
Definition Soldier_gltf : string :=
  "https://raw.githubusercontent.com/KhronosGroup/glTF-Sample-Models/master/2.0/Soldier/glTF/Soldier.gltf".
Definition CesiumMilkTruck_gltf : string :=
  "https://raw.githubusercontent.com/KhronosGroup/glTF-Sample-Models/master/2.0/CesiumMilkTruck/glTF/CesiumMilkTruck.gltf".

(** [table[key] || dflt] for a table whose values are non-empty strings. *)
Definition lookup_or (table : gmap string string) (key dflt : string) : string :=
  match table !! key with
  | Some url => if String.eqb url "" then dflt else url
  | None => dflt
  end.

(** ** The scoring route handler *)

Module Generate.

(** [fallbackModels]: category name to asset URL. *)
Definition fallbackModels : gmap string string :=
  list_to_map
    [ ("cube", Box_gltf);
      ("fish", Duck_gltf);
      ("dragon", Dragon_gltf);
      ("robot", BrainStem_gltf);
      ("lantern", Lantern_gltf);
      ("animal", Fox_gltf);
      ("human", Soldier_gltf);
      ("vehicle", CesiumMilkTruck_gltf);
      ("default", Box_gltf) ].

(** [fallbackModels.default] *)
Definition fallbackModels_default : string :=
  default "" (fallbackModels !! "default").

(** [modelCategories], in declaration order ([Object.entries] order). *)
Definition modelCategories : list (string * list string) :=
  [ ("fish", ["fish"; "swimming"; "aquatic"; "marine"; "sea"; "ocean"; "water"]);
    ("dragon", ["dragon"; "mythical"; "fantasy"; "flying"; "creature"; "magical"; "wings"]);
    ("robot", ["robot"; "mechanical"; "machine"; "android"; "tech"; "futuristic"; "artificial"]);
    ("lantern", ["lantern"; "light"; "lamp"; "illumination"; "glow"; "lighting"]);
    ("animal", ["animal"; "creature"; "beast"; "wildlife"; "nature"; "living"]);
    ("human", ["human"; "person"; "man"; "woman"; "figure"; "character"; "humanoid"]);
    ("vehicle", ["vehicle"; "car"; "truck"; "transport"; "automobile"; "transportation"]);
    ("cube", ["cube"; "box"; "square"; "geometric"; "simple"]) ].

Definition placeholder : string := "Failed to generate AI description".

(** [prompt.toLowerCase().split(' ')] *)
Definition prompt_tokens (prompt : JsValue) : Result (list JsValue) :=
  let? lowered := js_toLowerCase prompt in
  Ok (map JStr (split " " lowered)).

(** The object built when the reply is not JSON (line 61). *)
Definition text_analysis (tokens : list JsValue) : JsValue :=
  JObj [("mainCategory", JStr ""); ("keywords", JArr tokens)].

(** [...(v || [])] *)
Definition spread_or_empty (v : option JsValue) : Result (list JsValue) :=
  match v with
  | Some w => if truthy w then spread w else Ok []
  | None => Ok []
  end.

(** Lines 65-69; [undefined] entries are dropped by [filter(Boolean)] with
    the other falsy ones. *)
Definition allKeywords (prompt aiResponse : JsValue) : Result (list JsValue) :=
  let? tokens := prompt_tokens prompt in
  let? keywords := get_prop aiResponse "keywords" in
  let? extra := spread_or_empty keywords in
  let? mainCategory := get_prop aiResponse "mainCategory" in
  Ok (List.filter truthy (tokens ++ extra ++ option_list mainCategory)).

(** The [reduce] of lines 75-77, from accumulator [acc]. *)
Fixpoint reduce_score (keywords : list string) (allKeywords : list JsValue)
    (acc : nat) : Result nat :=
  match allKeywords with
  | [] => Ok acc
  | keyword :: rest =>
      let? k := js_toLowerCase keyword in
      reduce_score keywords rest
        (acc + (if array_includes keywords k then 1 else 0))
  end.

(** The [map] of lines 74-79. *)
Fixpoint categoryScores (categories : list (string * list string))
    (allKeywords : list JsValue) : Result (list (string * nat)) :=
  match categories with
  | [] => Ok []
  | (category, keywords) :: rest =>
      let? score := reduce_score keywords allKeywords 0 in
      let? others := categoryScores rest allKeywords in
      Ok ((category, score) :: others)
  end.

(** The score as a count: the key tokens that, lowercased, are equal to
    one of the category's keywords. *)
Definition hits (keywords : list string) (tokens : list string) : nat :=
  length (List.filter (fun t => array_includes keywords (toLowerCase t)) tokens).

(** The array [categoryScores] when every key token is a string. *)
Definition scores_of (tokens : list string) : list (string * nat) :=
  map (fun ck => (fst ck, hits (snd ck) tokens)) modelCategories.

(** [sort((a, b) => b.score - a.score)]: a stable sort, highest score
    first.  [insert_desc x l] puts [x], which preceded the entries of [l]
    in the array, in front of the first entry that does not beat it. *)
Fixpoint insert_desc (x : string * nat) (l : list (string * nat)) : list (string * nat) :=
  match l with
  | [] => [x]
  | y :: l' => if (snd x <? snd y)%nat then y :: insert_desc x l' else x :: y :: l'
  end.

Definition sort_desc (l : list (string * nat)) : list (string * nat) :=
  foldr insert_desc [] l.

(** [arr[0]], then a property read: throws on an empty array. *)
Definition first_entry (l : list (string * nat)) : Result (string * nat) :=
  match l with
  | [] => Throw
  | b :: _ => Ok b
  end.

(** Lines 82-83. *)
Definition select_modelType (scores : list (string * nat)) : Result string :=
  let? bestMatch := first_entry (sort_desc scores) in
  Ok (if (0 <? snd bestMatch)%nat then fst bestMatch else "default").

(** Lines 56-62: the parsed reply, or the text analysis of the prompt. *)
Definition ai_response (prompt : JsValue) (parsed : option JsValue) : Result JsValue :=
  match parsed with
  | Some v => Ok v
  | None => let? tokens := prompt_tokens prompt in Ok (text_analysis tokens)
  end.

(** Lines 56-69 together: the array [allKeywords] of a run. *)
Definition key_tokens (prompt : JsValue) (parsed : option JsValue) : Result (list JsValue) :=
  let? aiResponse := ai_response prompt parsed in
  allKeywords prompt aiResponse.

(** The [try] block of [generateModelWithAI], with the requests it sent.
    The argument of [generateContent] is a template literal that embeds the
    prompt (line 46): when the conversion throws, no request is sent. *)
Definition generate_try (env : Env) (prompt : JsValue) : Result ModelData * list Effect :=
  if negb (GEMINI_API_KEY env) then (Throw, [])
  else
    match template_literal prompt with
    | Throw => (Throw, [])
    | Ok _ =>
        match completion env with
        | Rejected => (Throw, [GenerateContent prompt])
        | Responded modelDescription parsed =>
            (let? all := key_tokens prompt parsed in
             let? scores := categoryScores modelCategories all in
             let? modelType := select_modelType scores in
             Ok {| modelUrl := lookup_or fallbackModels modelType fallbackModels_default;
                   modelDescription := modelDescription;
                   aiGenerated := true;
                   modelType := modelType |},
             [GenerateContent prompt])
        end
    end.

Definition generate_catch : ModelData :=
  {| modelUrl := fallbackModels_default;
     modelDescription := placeholder;
     aiGenerated := false;
     modelType := "default" |}.

Definition generateModelWithAI (env : Env) (prompt : JsValue) : ModelData * list Effect :=
  let (body, effects) := generate_try env prompt in
  (try_catch body generate_catch, effects).

Definition error_response : Response :=
  Json500 "Failed to generate model" fallbackModels_default.

(** [POST]; [body] is the parsed request body, [None] when
    [request.json()] rejects.  The template literal of line 116 is inside
    the [try]: a prompt whose conversion to a string throws gets the 500
    response. *)
Definition POST (env : Env) (body : option JsValue) : Response * list Effect :=
  match body with
  | None => (error_response, [])
  | Some b =>
      match get_prop b "prompt" with
      | Throw => (error_response, [])
      | Ok prompt =>
          match prompt with
          | Some p =>
              if truthy p then
                match template_literal p with
                | Throw => (error_response, [])
                | Ok _ =>
                    let (modelData, effects) := generateModelWithAI env p in
                    if String.eqb (modelUrl modelData) "" then (error_response, effects)
                    else (Json200 (modelUrl modelData) (modelDescription modelData)
                            (aiGenerated modelData) (modelType modelData), effects)
                end
              else (Json400 "Prompt is required", [])
          | None => (Json400 "Prompt is required", [])
          end
      end
  end.

End Generate.

(** ** The first-match route handler and the sample server *)

Module GenerateChain.

Definition fallbackModels : gmap string string :=
  list_to_map
    [ ("cube", Box_gltf);
      ("duck", Duck_gltf);
      ("robot", BrainStem_gltf);
      ("lantern", Lantern_gltf) ].

(** [fallbackModels.cube] *)
Definition fallbackModels_cube : string :=
  default "" (fallbackModels !! "cube").

Definition placeholder : string := "Failed to generate AI description".

(** The [if]/[else if] chain (route.ts lines 33-44, server.js 50-61). *)
Definition chain_modelType (keywords : string) : string :=
  if str_includes keywords "cube" || str_includes keywords "box"
     || str_includes keywords "square" then "cube"
  else if str_includes keywords "duck" || str_includes keywords "bird"
     || str_includes keywords "animal" then "duck"
  else if str_includes keywords "robot" || str_includes keywords "machine"
     || str_includes keywords "mechanical" then "robot"
  else if str_includes keywords "lantern" || str_includes keywords "light"
     || str_includes keywords "lamp" then "lantern"
  else "generic".

(** The [try] block of [generateModelWithAI], with the requests it sent.
    The argument of [generateContent] is a template literal that embeds the
    prompt (route.ts line 22, server.js line 39): when the conversion
    throws, no request is sent.  There is no API-key test here. *)
Definition generate_try (env : Env) (prompt : JsValue) : Result ModelData * list Effect :=
  match template_literal prompt with
  | Throw => (Throw, [])
  | Ok _ =>
      (match completion env with
       | Rejected => Throw
       | Responded modelDescription _ =>
           let? keywords := js_toLowerCase prompt in
           let modelType := chain_modelType keywords in
           Ok {| modelUrl := lookup_or fallbackModels modelType fallbackModels_cube;
                 modelDescription := modelDescription;
                 aiGenerated := true;
                 modelType := modelType |}
       end, [GenerateContent prompt])
  end.

Definition generate_catch : ModelData :=
  {| modelUrl := fallbackModels_cube;
     modelDescription := placeholder;
     aiGenerated := false;
     modelType := "fallback" |}.

Definition generateModelWithAI (env : Env) (prompt : JsValue) : ModelData * list Effect :=
  let (body, effects) := generate_try env prompt in
  (try_catch body generate_catch, effects).

Definition error_response : Response :=
  Json500 "Failed to generate model" fallbackModels_cube.

Definition respond (modelData : ModelData) : Response :=
  Json200 (modelUrl modelData) (modelDescription modelData)
    (aiGenerated modelData) (modelType modelData).

(** The body of the [try] after the test of the prompt (route.ts lines
    75-83, server.js lines 89-97): the template literal of the log line,
    the call, the response. *)
Definition answer (env : Env) (p : JsValue) : Response * list Effect :=
  match template_literal p with
  | Throw => (error_response, [])
  | Ok _ =>
      let (modelData, effects) := generateModelWithAI env p in
      (respond modelData, effects)
  end.

(** [POST] of route.ts. *)
Definition POST (env : Env) (body : option JsValue) : Response * list Effect :=
  match body with
  | None => (error_response, [])
  | Some b =>
      match get_prop b "prompt" with
      | Throw => (error_response, [])
      | Ok prompt =>
          match prompt with
          | Some p =>
              if truthy p then answer env p
              else (Json400 "Prompt is required", [])
          | None => (Json400 "Prompt is required", [])
          end
      end
  end.

(** The handler given to [app.post('/generate', ...)] in server.js, as a
    function of [req.body].  The destructuring of [req.body] is outside the
    [try]: it would throw for [null], which the middleware never hands
    over (see [express_json]). *)
Definition app_post_generate (env : Env) (body : JsValue) : Result (Response * list Effect) :=
  let? prompt := get_prop body "prompt" in
  match prompt with
  | Some p =>
      if truthy p then Ok (answer env p)
      else Ok (Json400 "Prompt is required", [])
  | None => Ok (Json400 "Prompt is required", [])
  end.

(** [app.use(express.json())] (server.js line 12), in its default strict
    mode, for a request with a JSON content type and a body text; [body] is
    what parsing that text gives, [None] when it is not JSON.  The handler
    gets a body that is a JSON object or array; for any other JSON text,
    and for a text that is not JSON, the middleware answers with status
    400 itself ([None]) and the handler does not run. *)
Definition express_json (body : option JsValue) : option JsValue :=
  match body with
  | Some (JObj fields) => Some (JObj fields)
  | Some (JArr elems) => Some (JArr elems)
  | _ => None
  end.

(** The server on such a request: [None] for the 400 of the middleware,
    otherwise what the handler does. *)
Definition server (env : Env) (body : option JsValue)
    : option (Result (Response * list Effect)) :=
  app_post_generate env <$> express_json body.

End GenerateChain.

(** ** The client page *)

Module Page.

Inductive Outcome : Type :=
| ValidationError (message : string)
| Fetch (body : JsValue).

(** The guard of [handleGenerate] and the request it sends otherwise. *)
Definition handleGenerate (prompt : string) : Outcome :=
  if String.eqb (trim prompt) "" then ValidationError "Please enter a prompt"
  else Fetch (JObj [("prompt", JStr prompt)]).

End Page.


(** ** What the specification says about keyword hits

    The count described in the specification's words, for comparison with
    [Generate.reduce_score]: the number of a category's trigger keywords
    that occur as a substring of the lowercased prompt. *)

Module SpecReading.

Definition substring_hits (keywords : list string) (prompt : string) : nat :=
  length (List.filter (str_includes (toLowerCase prompt)) keywords).

(** The category with the highest count, the first declared one on a
    tie; [best] is the winner so far. *)
Fixpoint highest (counts : list (string * nat)) (best : string * nat) : string * nat :=
  match counts with
  | [] => best
  | e :: rest => highest rest (if (snd best <? snd e)%nat then e else best)
  end.

(** A count of zero everywhere gives the default category. *)
Definition matchedCategory (prompt : string) : string :=
  fst (highest
         (map (fun ck => (fst ck, substring_hits (snd ck) prompt)) Generate.modelCategories)
         ("default", 0%nat)).

Definition resolve (prompt : string) : string :=
  lookup_or Generate.fallbackModels (matchedCategory prompt)
    Generate.fallbackModels_default.

End SpecReading.

(** ** three.js values *)

Module Three.

Record Vector3 : Type := mkVector3 { x : Q; y : Q; z : Q }.

(** [Matrix4.elements], column-major. *)
Definition Matrix4 : Type := list Q.

Definition identity : Matrix4 :=
  [1; 0; 0; 0;  0; 1; 0; 0;  0; 0; 1; 0;  0; 0; 0; 1]%Q.

(** [matrix.fromArray(array)]: copies the sixteen leading entries. *)
Definition fromArray (array : list Q) : Matrix4 := take 16 array.

(** [v.setFromMatrixPosition(m)]: entries 12, 13 and 14. *)
Definition setFromMatrixPosition (m : Matrix4) : Vector3 :=
  mkVector3 (nth 12 m 0%Q) (nth 13 m 0%Q) (nth 14 m 0%Q).

(** [v.sub(w)] *)
Definition sub (v w : Vector3) : Vector3 :=
  mkVector3 (x v - x w) (y v - y w) (z v - z w).

(** [v.set(k * v.x, k * v.y, k * v.z)] *)
Definition scaled (k : Q) (v : Vector3) : Vector3 :=
  mkVector3 (x v * k) (y v * k) (z v * k).

(** The fields of an [Object3D] that the component reads or writes.  The
    [matrix] is the local matrix as last written; the recomposition done
    by the renderer for objects with [matrixAutoUpdate] is not modelled,
    nor are geometries and materials. *)
#[warnings="-register-all"] Inductive Object3D : Type := mkObject3D {
  position : Vector3;
  rotation : Vector3;
  scale : Vector3;
  matrix : Matrix4;
  matrixAutoUpdate : bool;
  visible : bool;
  children : list Object3D
}.

Definition set_position (v : Vector3) (o : Object3D) : Object3D :=
  {| position := v; rotation := rotation o; scale := scale o; matrix := matrix o;
     matrixAutoUpdate := matrixAutoUpdate o; visible := visible o;
     children := children o |}.

Definition set_rotation (v : Vector3) (o : Object3D) : Object3D :=
  {| position := position o; rotation := v; scale := scale o; matrix := matrix o;
     matrixAutoUpdate := matrixAutoUpdate o; visible := visible o;
     children := children o |}.

Definition set_scale (v : Vector3) (o : Object3D) : Object3D :=
  {| position := position o; rotation := rotation o; scale := v; matrix := matrix o;
     matrixAutoUpdate := matrixAutoUpdate o; visible := visible o;
     children := children o |}.

Definition set_matrix (m : Matrix4) (o : Object3D) : Object3D :=
  {| position := position o; rotation := rotation o; scale := scale o; matrix := m;
     matrixAutoUpdate := matrixAutoUpdate o; visible := visible o;
     children := children o |}.

Definition set_visible (b : bool) (o : Object3D) : Object3D :=
  {| position := position o; rotation := rotation o; scale := scale o;
     matrix := matrix o; matrixAutoUpdate := matrixAutoUpdate o; visible := b;
     children := children o |}.

(** [o.clone()]: a new object with copies of the transform, the flags and
    (recursively) the children.  Objects are stored by content under an
    identity, so the copy has the same content; the caller gives it a
    fresh identity. *)
Definition clone (o : Object3D) : Object3D := o.

(** The ring created for the reticle. *)
Definition new_reticle : Object3D :=
  {| position := mkVector3 0 0 0; rotation := mkVector3 0 0 0;
     scale := mkVector3 1 1 1; matrix := identity;
     matrixAutoUpdate := false; visible := false; children := [] |}.

End Three.

(** ** The state of one mounted AR scene *)

(** A [setTimeout] handle. *)
Inductive TimerState : Type :=
| Pending (deadline : Z)
| Cleared
| Fired.

(** [clearTimeout(id)] *)
Definition clearTimeout (t : TimerState) : TimerState :=
  match t with
  | Pending _ => Cleared
  | _ => t
  end.

(** One call of [loader.load]: the URL captured by its callbacks, its
    timer, and whether the loader has called back ([onLoad] or [onError]). *)
Record Load : Type := mkLoad {
  url : string;
  timeoutId : TimerState;
  reported : bool
}.

(** What the platform hands to [render] for a tracked frame: whether a
    reference space and a session are there, and what
    [frame.getHitTestResults] gives, each hit with the outcome of its
    [getPose] ([None] for [null], otherwise [pose.transform.matrix]). *)
Record XRFrame : Type := mkXRFrame {
  referenceSpace : bool;
  session : bool;
  hitTestResults : Result (list (option (list Q)))
}.

(** The refs, the React state and the scene graph.  Objects live in a store
    indexed by identity; refs and lists hold identities.  [scene] lists the
    reticle and the models the component adds (the lights and the
    controller are left out); [loads] holds the calls of [loader.load] made
    so far, a load being named by its index. *)
Record State : Type := mkState {
  clock : Z;
  objects : gmap nat Three.Object3D;
  next_object : nat;
  scene : list nat;
  reticleRef : option nat;
  modelRef : option nat;
  hitTestSourceRef : bool;
  hitTestSourceRequiredRef : bool;
  sessionRef : bool;
  isXRSupported : option bool;
  modelLoaded : bool;
  modelLoadProgress : Z;
  modelLoadError : option string;
  placedObjects : list nat;
  loads : list Load
}.

Definition set_clock (v : Z) (s : State) : State :=
  {| clock := v; objects := objects s; next_object := next_object s; scene := scene s;
     reticleRef := reticleRef s; modelRef := modelRef s; hitTestSourceRef :=
     hitTestSourceRef s; hitTestSourceRequiredRef := hitTestSourceRequiredRef s;
     sessionRef := sessionRef s; isXRSupported := isXRSupported s; modelLoaded :=
     modelLoaded s; modelLoadProgress := modelLoadProgress s; modelLoadError :=
     modelLoadError s; placedObjects := placedObjects s; loads := loads s |}.

Definition set_objects (v : gmap nat Three.Object3D) (s : State) : State :=
  {| clock := clock s; objects := v; next_object := next_object s; scene := scene s;
     reticleRef := reticleRef s; modelRef := modelRef s; hitTestSourceRef :=
     hitTestSourceRef s; hitTestSourceRequiredRef := hitTestSourceRequiredRef s;
     sessionRef := sessionRef s; isXRSupported := isXRSupported s; modelLoaded :=
     modelLoaded s; modelLoadProgress := modelLoadProgress s; modelLoadError :=
     modelLoadError s; placedObjects := placedObjects s; loads := loads s |}.

Definition set_next_object (v : nat) (s : State) : State :=
  {| clock := clock s; objects := objects s; next_object := v; scene := scene s;
     reticleRef := reticleRef s; modelRef := modelRef s; hitTestSourceRef :=
     hitTestSourceRef s; hitTestSourceRequiredRef := hitTestSourceRequiredRef s;
     sessionRef := sessionRef s; isXRSupported := isXRSupported s; modelLoaded :=
     modelLoaded s; modelLoadProgress := modelLoadProgress s; modelLoadError :=
     modelLoadError s; placedObjects := placedObjects s; loads := loads s |}.

Definition set_scene (v : list nat) (s : State) : State :=
  {| clock := clock s; objects := objects s; next_object := next_object s; scene := v;
     reticleRef := reticleRef s; modelRef := modelRef s; hitTestSourceRef :=
     hitTestSourceRef s; hitTestSourceRequiredRef := hitTestSourceRequiredRef s;
     sessionRef := sessionRef s; isXRSupported := isXRSupported s; modelLoaded :=
     modelLoaded s; modelLoadProgress := modelLoadProgress s; modelLoadError :=
     modelLoadError s; placedObjects := placedObjects s; loads := loads s |}.

Definition set_modelRef (v : option nat) (s : State) : State :=
  {| clock := clock s; objects := objects s; next_object := next_object s; scene :=
     scene s; reticleRef := reticleRef s; modelRef := v; hitTestSourceRef :=
     hitTestSourceRef s; hitTestSourceRequiredRef := hitTestSourceRequiredRef s;
     sessionRef := sessionRef s; isXRSupported := isXRSupported s; modelLoaded :=
     modelLoaded s; modelLoadProgress := modelLoadProgress s; modelLoadError :=
     modelLoadError s; placedObjects := placedObjects s; loads := loads s |}.

Definition set_hitTestSourceRef (v : bool) (s : State) : State :=
  {| clock := clock s; objects := objects s; next_object := next_object s; scene :=
     scene s; reticleRef := reticleRef s; modelRef := modelRef s; hitTestSourceRef := v;
     hitTestSourceRequiredRef := hitTestSourceRequiredRef s; sessionRef := sessionRef s;
     isXRSupported := isXRSupported s; modelLoaded := modelLoaded s; modelLoadProgress :=
     modelLoadProgress s; modelLoadError := modelLoadError s; placedObjects :=
     placedObjects s; loads := loads s |}.

Definition set_hitTestSourceRequiredRef (v : bool) (s : State) : State :=
  {| clock := clock s; objects := objects s; next_object := next_object s; scene :=
     scene s; reticleRef := reticleRef s; modelRef := modelRef s; hitTestSourceRef :=
     hitTestSourceRef s; hitTestSourceRequiredRef := v; sessionRef := sessionRef s;
     isXRSupported := isXRSupported s; modelLoaded := modelLoaded s; modelLoadProgress :=
     modelLoadProgress s; modelLoadError := modelLoadError s; placedObjects :=
     placedObjects s; loads := loads s |}.

Definition set_sessionRef (v : bool) (s : State) : State :=
  {| clock := clock s; objects := objects s; next_object := next_object s; scene :=
     scene s; reticleRef := reticleRef s; modelRef := modelRef s; hitTestSourceRef :=
     hitTestSourceRef s; hitTestSourceRequiredRef := hitTestSourceRequiredRef s;
     sessionRef := v; isXRSupported := isXRSupported s; modelLoaded := modelLoaded s;
     modelLoadProgress := modelLoadProgress s; modelLoadError := modelLoadError s;
     placedObjects := placedObjects s; loads := loads s |}.

Definition set_modelLoaded (v : bool) (s : State) : State :=
  {| clock := clock s; objects := objects s; next_object := next_object s; scene :=
     scene s; reticleRef := reticleRef s; modelRef := modelRef s; hitTestSourceRef :=
     hitTestSourceRef s; hitTestSourceRequiredRef := hitTestSourceRequiredRef s;
     sessionRef := sessionRef s; isXRSupported := isXRSupported s; modelLoaded := v;
     modelLoadProgress := modelLoadProgress s; modelLoadError := modelLoadError s;
     placedObjects := placedObjects s; loads := loads s |}.

Definition set_modelLoadProgress (v : Z) (s : State) : State :=
  {| clock := clock s; objects := objects s; next_object := next_object s; scene :=
     scene s; reticleRef := reticleRef s; modelRef := modelRef s; hitTestSourceRef :=
     hitTestSourceRef s; hitTestSourceRequiredRef := hitTestSourceRequiredRef s;
     sessionRef := sessionRef s; isXRSupported := isXRSupported s; modelLoaded :=
     modelLoaded s; modelLoadProgress := v; modelLoadError := modelLoadError s;
     placedObjects := placedObjects s; loads := loads s |}.

Definition set_modelLoadError (v : option string) (s : State) : State :=
  {| clock := clock s; objects := objects s; next_object := next_object s; scene :=
     scene s; reticleRef := reticleRef s; modelRef := modelRef s; hitTestSourceRef :=
     hitTestSourceRef s; hitTestSourceRequiredRef := hitTestSourceRequiredRef s;
     sessionRef := sessionRef s; isXRSupported := isXRSupported s; modelLoaded :=
     modelLoaded s; modelLoadProgress := modelLoadProgress s; modelLoadError := v;
     placedObjects := placedObjects s; loads := loads s |}.

Definition set_placedObjects (v : list nat) (s : State) : State :=
  {| clock := clock s; objects := objects s; next_object := next_object s; scene :=
     scene s; reticleRef := reticleRef s; modelRef := modelRef s; hitTestSourceRef :=
     hitTestSourceRef s; hitTestSourceRequiredRef := hitTestSourceRequiredRef s;
     sessionRef := sessionRef s; isXRSupported := isXRSupported s; modelLoaded :=
     modelLoaded s; modelLoadProgress := modelLoadProgress s; modelLoadError :=
     modelLoadError s; placedObjects := v; loads := loads s |}.

Definition set_loads (v : list Load) (s : State) : State :=
  {| clock := clock s; objects := objects s; next_object := next_object s; scene :=
     scene s; reticleRef := reticleRef s; modelRef := modelRef s; hitTestSourceRef :=
     hitTestSourceRef s; hitTestSourceRequiredRef := hitTestSourceRequiredRef s;
     sessionRef := sessionRef s; isXRSupported := isXRSupported s; modelLoaded :=
     modelLoaded s; modelLoadProgress := modelLoadProgress s; modelLoadError :=
     modelLoadError s; placedObjects := placedObjects s; loads := v |}.

(** [!isXRSupported], for the value captured when the effect ran. *)
Definition not_supported (s : State) : bool :=
  match isXRSupported s with
  | Some true => false
  | _ => true
  end.

(** A newly created object gets the next identity. *)
Definition alloc (o : Three.Object3D) (s : State) : nat * State :=
  (next_object s,
   set_next_object (S (next_object s)) (set_objects (<[next_object s := o]> (objects s)) s)).

Definition update_object (id : nat) (f : Three.Object3D -> Three.Object3D) (s : State) : State :=
  set_objects (alter f id (objects s)) s.

Definition nat_neqb (a b : nat) : bool := negb (a =? b)%nat.

(** [scene.remove(o)] and [scene.add(o)] (which first detaches [o]). *)
Definition scene_remove (id : nat) (s : State) : State :=
  set_scene (List.filter (nat_neqb id) (scene s)) s.

Definition scene_add (id : nat) (s : State) : State :=
  set_scene (List.filter (nat_neqb id) (scene s) ++ [id]) s.

(** The loader called back for load [i]: [clearTimeout(timeoutId)]. *)
Definition loader_reported (i : nat) (l : Load) (s : State) : State :=
  set_loads (<[i := mkLoad (url l) (clearTimeout (timeoutId l)) true]> (loads s)) s.

Definition timer_fired (i : nat) (l : Load) (s : State) : State :=
  set_loads (<[i := mkLoad (url l) Fired (reported l)]> (loads s)) s.

(** JavaScript numbers where the code divides: IEEE doubles. *)
Definition double : Type := SpecFloat.spec_float.

(** The double nearest to an integer. *)
Definition double_of_Z (z : Z) : double := SpecFloat.binary_normalize 53 1024 z 0 false.

Definition double_div (a b : double) : double := SpecFloat.SFdiv 53 1024 a b.

Definition double_mul (a b : double) : double := SpecFloat.SFmul 53 1024 a b.

(** The rational a finite double stands for. *)
Definition Q_of_finite (negative : bool) (m : positive) (e : Z) : Q :=
  (if negative then -1 else 1) * inject_Z (Zpos m) * Qpower 2 e.

(** [Math.round]: the nearest integer, a tie going upwards; [None] for a
    result that is not finite ([NaN], an infinity). *)
Definition Math_round (d : double) : option Z :=
  match d with
  | SpecFloat.S754_zero _ => Some 0%Z
  | SpecFloat.S754_finite negative m e => Some (Qfloor (Q_of_finite negative m e + (1 # 2)))
  | _ => None
  end.

(** [Math.round((progress.loaded / progress.total) * 100)] *)
Definition progressPercent (loaded total : Z) : option Z :=
  Math_round (double_mul (double_div (double_of_Z loaded) (double_of_Z total))
                (double_of_Z 100)).

(** The progress callback, the same in both revisions; [loaded] and [total]
    are the byte counts of the event.  The state holds an integer
    percentage: an event whose quotient is not finite ([total] zero with
    [lengthComputable] set, which the loader does not report) is outside the
    model ([None]). *)
Definition on_progress (lengthComputable : bool) (loaded total : Z) (s : State)
    : option State :=
  if lengthComputable
  then (fun percent => set_modelLoadProgress percent s) <$> progressPercent loaded total
  else Some s.

(** The state after the effect has set up the scene: the reticle is in the
    scene, invisible, and nothing is loaded.  [supported] is the value of
    [isXRSupported] this run of the effect captured; a load left over from
    an earlier run is not part of the state. *)
Definition init (supported : option bool) : State :=
  {| clock := 0; objects := {[ 0%nat := Three.new_reticle ]}; next_object := 1;
     scene := [0%nat]; reticleRef := Some 0%nat; modelRef := None;
     hitTestSourceRef := false; hitTestSourceRequiredRef := false;
     sessionRef := false; isXRSupported := supported; modelLoaded := false;
     modelLoadProgress := 0; modelLoadError := None; placedObjects := [];
     loads := [] |}.

(** Every stored object was allocated, and the refs point into the store. *)
Definition wf (s : State) : Prop :=
  (forall id, is_Some (objects s !! id) -> (id < next_object s)%nat) /\
  (forall m, modelRef s = Some m -> is_Some (objects s !! m)) /\
  (forall r, reticleRef s = Some r -> is_Some (objects s !! r)).

(** [o.position.set(...)] on a stored object, as a caller holding the
    object could do after placement. *)
Definition move_object (id : nat) (v : Three.Vector3) (s : State) : State :=
  update_object id (Three.set_position v) s.

(** [reticleRef.current?.visible] *)
Definition reticle_visible (s : State) : bool :=
  match reticleRef s with
  | Some r =>
      match objects s !! r with
      | Some reticle => Three.visible reticle
      | None => false
      end
  | None => false
  end.

Definition LOAD_TIMEOUT : Z := 30000.

Definition all_models : gmap string string :=
  list_to_map
    [ ("cube", Box_gltf);
      ("fish", Duck_gltf);
      ("dragon", Dragon_gltf);
      ("robot", BrainStem_gltf);
      ("lantern", Lantern_gltf);
      ("animal", Fox_gltf);
      ("human", Soldier_gltf);
      ("vehicle", CesiumMilkTruck_gltf);
      ("default", Box_gltf) ].

(** The events of a mounted scene. *)
Inductive Event : Type :=
| LoadModel (u : string)
| Advance (dt : Z)
| Timeout (i : nat)
| OnLoad (i : nat) (gltf_scene : Three.Object3D) (center : Three.Vector3)
| OnProgress (i : nat) (lengthComputable : bool) (loaded total : Z)
| OnError (i : nat) (message : string)
| Select
| Render (frame : option XRFrame)
| PulseFrame (model : nat) (origScale : Three.Vector3) (elapsed : Q)
| SessionStart
| SessionEnd
| HitTestSourceAcquired.

(** ** First revision of the component (ARScene.tsx, lines 1-524) *)

Module SceneA.

Definition fallbackModels : gmap string string := all_models.

Definition fallbackModels_cube : string := default "" (fallbackModels !! "cube").

(** [loadModel], up to the call of [loader.load]. *)
Definition loadModel (u : string) (s : State) : State :=
  let s := match modelRef s with
           | Some m => set_modelRef None (scene_remove m s)
           | None => s
           end in
  let s := set_modelLoadError None (set_modelLoadProgress 0 (set_modelLoaded false s)) in
  set_loads (loads s ++ [mkLoad u (Pending (clock s + LOAD_TIMEOUT)) false]) s.

(** The [setTimeout] callback of load [i]. *)
Definition on_timeout (i : nat) (l : Load) (s : State) : State :=
  let s := timer_fired i l s in
  let s := set_modelLoadError (Some "Model loading timed out. Please try again.") s in
  if String.eqb (url l) fallbackModels_cube then s
  else loadModel fallbackModels_cube s.

(** The success callback of load [i] (the settings of roughness, metalness
    and opacity on the materials are not represented). *)
Definition on_load (i : nat) (l : Load) (gltf_scene : Three.Object3D) (s : State) : State :=
  let s := loader_reported i l s in
  let model := Three.set_scale (Three.mkVector3 (3 # 10) (3 # 10) (3 # 10)) gltf_scene in
  let model :=
    if not_supported s
    then Three.set_visible true (Three.set_position (Three.mkVector3 0 0 (-2)) model)
    else Three.set_visible false model in
  let (id, s) := alloc model s in
  let s := scene_add id s in
  let s := set_modelRef (Some id) s in
  set_modelLoadProgress 100 (set_modelLoaded true s).

(** The error callback of load [i]. *)
Definition on_error (i : nat) (l : Load) (message : string) (s : State) : State :=
  let s := loader_reported i l s in
  let s := set_modelLoadError (Some ("Failed to load 3D model: " ++ message)) s in
  if String.eqb (url l) fallbackModels_cube then s
  else loadModel fallbackModels_cube s.

(** [onSelect], with the enlargement that starts the pulse. *)
Definition onSelect (s : State) : State :=
  match reticleRef s with
  | Some r =>
      match objects s !! r with
      | Some reticle =>
          if Three.visible reticle then
            match modelRef s with
            | Some m =>
                match objects s !! m with
                | Some template =>
                    let model := Three.clone template in
                    let model :=
                      Three.set_position
                        (Three.setFromMatrixPosition (Three.matrix reticle)) model in
                    let model := Three.set_visible true model in
                    let origScale := Three.scale model in
                    let model := Three.set_scale (Three.scaled (6 # 5) origScale) model in
                    let (id, s) := alloc model s in
                    let s := scene_add id s in
                    set_placedObjects (placedObjects s ++ [id]) s
                | None => s
                end
            | None => s
            end
          else s
      | None => s
      end
  | None => s
  end.

(** [render], up to the call of [renderer.render(scene, camera)] (what the
    renderer then does to the objects is not represented); an exception of
    [getHitTestResults] leaves the function with the state reached so
    far. *)
Definition render (frame : option XRFrame) (s : State) : State :=
  match frame with
  | Some f =>
      if referenceSpace f && session f then
        let s := if hitTestSourceRequiredRef s
                 then set_hitTestSourceRequiredRef false s else s in
        if hitTestSourceRef s then
          match hitTestResults f with
          | Ok (Some pose :: _) =>
              match reticleRef s with
              | Some r =>
                  update_object r
                    (fun o => Three.set_matrix (Three.fromArray pose)
                                (Three.set_visible true o)) s
              | None => s
              end
          | _ => s
          end
        else s
      else s
  | None =>
      match modelRef s with
      | Some m =>
          if not_supported s then
            update_object m
              (fun o => Three.set_rotation
                          (Three.mkVector3 (Three.x (Three.rotation o))
                             (Three.y (Three.rotation o) + (1 # 200))
                             (Three.z (Three.rotation o))) o) s
          else s
      | None => s
      end
  end.

(** [animateScale], one animation frame [elapsed] milliseconds after the
    pulse started; [model] and [origScale] are the captured variables. *)
Definition animateScale (model : nat) (origScale : Three.Vector3) (elapsed : Q)
    (s : State) : State :=
  let progress := Qmin (elapsed / 300) 1 in
  update_object model
    (Three.set_scale (Three.scaled ((6 # 5) - (1 # 5) * progress) origScale)) s.

Definition step (e : Event) (s : State) : option State :=
  match e with
  | LoadModel u => Some (loadModel u s)
  | Advance dt => if (0 <=? dt)%Z then Some (set_clock (clock s + dt) s) else None
  | Timeout i =>
      match loads s !! i with
      | Some l =>
          match timeoutId l with
          | Pending deadline =>
              if (deadline <=? clock s)%Z then Some (on_timeout i l s) else None
          | _ => None
          end
      | None => None
      end
  | OnLoad i gltf_scene _ =>
      match loads s !! i with
      | Some l => if reported l then None else Some (on_load i l gltf_scene s)
      | None => None
      end
  | OnProgress i lengthComputable loaded total =>
      match loads s !! i with
      | Some l =>
          if reported l then None
          else on_progress lengthComputable loaded total s
      | None => None
      end
  | OnError i message =>
      match loads s !! i with
      | Some l => if reported l then None else Some (on_error i l message s)
      | None => None
      end
  | Select => Some (onSelect s)
  | Render frame => Some (render frame s)
  | PulseFrame model origScale elapsed =>
      if bool_decide (model ∈ placedObjects s)
      then Some (animateScale model origScale elapsed s) else None
  | SessionStart =>
      Some (set_hitTestSourceRequiredRef true (set_sessionRef true s))
  | SessionEnd =>
      Some (set_hitTestSourceRequiredRef false
              (set_hitTestSourceRef false (set_sessionRef false s)))
  | HitTestSourceAcquired => Some (set_hitTestSourceRef true s)
  end.

End SceneA.

(** ** Second revision of the component (ARScene.tsx, lines 525-1084) *)

Module SceneB.

Definition fallbackModels : gmap string string := all_models.

Definition fallbackModels_default : string :=
  default "" (fallbackModels !! "default").

(** [!url || url === 'undefined'] *)
Definition invalid_url (u : string) : bool :=
  String.eqb u "" || String.eqb u "undefined".

(** The head of [loadModel]: the previous model is dropped and the React
    state is reset. *)
Definition reset_model (s : State) : State :=
  let s := match modelRef s with
           | Some m => set_modelRef None (scene_remove m s)
           | None => s
           end in
  set_modelLoadError None (set_modelLoadProgress 0 (set_modelLoaded false s)).

(** The timer and the call of [loader.load].  The loader reports through
    its callbacks, so the [catch] around the call (lines 828-835) is not
    reached. *)
Definition start_load (u : string) (s : State) : State :=
  set_loads (loads s ++ [mkLoad u (Pending (clock s + LOAD_TIMEOUT)) false]) s.

(** [loadModel]: an invalid URL is replaced by the default one, through
    one nested call (the default URL is valid). *)
Definition loadModel (u : string) (s : State) : State :=
  let s := reset_model s in
  if invalid_url u then
    let s := set_modelLoadError (Some "Invalid model URL. Please try again.") s in
    start_load fallbackModels_default (reset_model s)
  else start_load u s.

Definition on_timeout (i : nat) (l : Load) (s : State) : State :=
  let s := timer_fired i l s in
  let s := set_modelLoadError (Some "Model loading timed out. Please try again.") s in
  if String.eqb (url l) fallbackModels_default then s
  else loadModel fallbackModels_default s.

Definition getAppropriateScale (u : string) : Q :=
  if str_includes u "Dragon" then 5 # 100
  else if str_includes u "Lantern" then 5 # 10
  else if str_includes u "Duck" then 2 # 10
  else if str_includes u "Truck" then 2 # 10
  else if str_includes u "Soldier" then 1 # 10
  else if str_includes u "Fox" then 5 # 100
  else 2 # 10.

(** The success callback of load [i]; [center] is the centre of the
    bounding box three.js computes for the scaled model. *)
Definition on_load (i : nat) (l : Load) (gltf_scene : Three.Object3D)
    (center : Three.Vector3) (s : State) : State :=
  let s := loader_reported i l s in
  let k := getAppropriateScale (url l) in
  let model := Three.set_scale (Three.mkVector3 k k k) gltf_scene in
  let center := Three.mkVector3 (Three.x center) 0 (Three.z center) in
  let model := Three.set_position (Three.sub (Three.position model) center) model in
  let model :=
    if not_supported s
    then Three.set_visible true (Three.set_position (Three.mkVector3 0 0 (-2)) model)
    else if sessionRef s then Three.set_visible false model
    else Three.set_visible true (Three.set_position (Three.mkVector3 0 0 (-2)) model) in
  let (id, s) := alloc model s in
  let s := scene_add id s in
  let s := set_modelRef (Some id) s in
  set_modelLoadProgress 100 (set_modelLoaded true s).

Definition on_error (i : nat) (l : Load) (message : string) (s : State) : State :=
  let s := loader_reported i l s in
  let s := set_modelLoadError (Some ("Failed to load 3D model: " ++ message)) s in
  if String.eqb (url l) fallbackModels_default then s
  else loadModel fallbackModels_default s.

(** [onSelect] *)
Definition onSelect (s : State) : State :=
  match reticleRef s with
  | Some r =>
      match objects s !! r with
      | Some reticle =>
          if Three.visible reticle then
            match modelRef s with
            | Some m =>
                match objects s !! m with
                | Some template =>
                    let model := Three.clone template in
                    let model :=
                      Three.set_position
                        (Three.setFromMatrixPosition (Three.matrix reticle)) model in
                    let model := Three.set_visible true model in
                    let (id, s) := alloc model s in
                    let s := scene_add id s in
                    set_placedObjects (placedObjects s ++ [id]) s
                | None => s
                end
            | None => s
            end
          else s
      | None => s
      end
  | None => s
  end.

(** The hit-test part of [render] (lines 906-927), for a frame whose
    reference space and session are there. *)
Definition update_reticle (f : XRFrame) (s : State) : State :=
  if hitTestSourceRef s then
    match hitTestResults f with
    | Ok (hit :: _) =>
        match hit, reticleRef s with
        | Some pose, Some r =>
            update_object r
              (fun o => Three.set_matrix (Three.fromArray pose)
                          (Three.set_visible true o)) s
        | _, _ => s
        end
    | Ok [] =>
        match reticleRef s with
        | Some r => update_object r (Three.set_visible false) s
        | None => s
        end
    | Throw => s
    end
  else s.

(** [render], up to the call of [renderer.render(scene, camera)]: what
    the renderer then does to the objects (it recomposes the [matrix] of
    every object with [matrixAutoUpdate] from position, rotation and scale)
    is not represented. *)
Definition render (frame : option XRFrame) (s : State) : State :=
  match frame with
  | Some f =>
      if referenceSpace f && session f then
        let s := if hitTestSourceRequiredRef s
                 then set_hitTestSourceRequiredRef false s else s in
        update_reticle f s
      else s
  | None =>
      match modelRef s with
      | Some m =>
          if not_supported s then
            update_object m
              (fun o => Three.set_rotation
                          (Three.mkVector3 (Three.x (Three.rotation o))
                             (Three.y (Three.rotation o) + (1 # 200))
                             (Three.z (Three.rotation o))) o) s
          else s
      | None => s
      end
  end.

(** The [sessionstart] listener also hides the template. *)
Definition on_sessionstart (s : State) : State :=
  let s := set_hitTestSourceRequiredRef true (set_sessionRef true s) in
  match modelRef s with
  | Some m => update_object m (Three.set_visible false) s
  | None => s
  end.

Definition step (e : Event) (s : State) : option State :=
  match e with
  | LoadModel u => Some (loadModel u s)
  | Advance dt => if (0 <=? dt)%Z then Some (set_clock (clock s + dt) s) else None
  | Timeout i =>
      match loads s !! i with
      | Some l =>
          match timeoutId l with
          | Pending deadline =>
              if (deadline <=? clock s)%Z then Some (on_timeout i l s) else None
          | _ => None
          end
      | None => None
      end
  | OnLoad i gltf_scene center =>
      match loads s !! i with
      | Some l => if reported l then None else Some (on_load i l gltf_scene center s)
      | None => None
      end
  | OnProgress i lengthComputable loaded total =>
      match loads s !! i with
      | Some l =>
          if reported l then None
          else on_progress lengthComputable loaded total s
      | None => None
      end
  | OnError i message =>
      match loads s !! i with
      | Some l => if reported l then None else Some (on_error i l message s)
      | None => None
      end
  | Select => Some (onSelect s)
  | Render frame => Some (render frame s)
  | PulseFrame _ _ _ => None
  | SessionStart => Some (on_sessionstart s)
  | SessionEnd =>
      Some (set_hitTestSourceRequiredRef false
              (set_hitTestSourceRef false (set_sessionRef false s)))
  | HitTestSourceAcquired => Some (set_hitTestSourceRef true s)
  end.

End SceneB.

(** Running a sequence of events; [None] when one of them cannot occur. *)
Fixpoint run (step : Event -> State -> option State) (events : list Event)
    (s : State) : option State :=
  match events with
  | [] => Some s
  | e :: rest =>
      match step e s with
      | Some s' => run step rest s'
      | None => None
      end
  end.

(** Loads whose loader has not called back yet. *)
Definition in_flight (s : State) : list Load :=
  List.filter (fun l => negb (reported l)) (loads s).

(** The number of [loader.load] calls for URL [u] made so far. *)
Definition loads_of (u : string) (s : State) : nat :=
  length (List.filter (fun l => String.eqb (url l) u) (loads s)).

(** States that agree on the store and on the refs. *)
Definition same_store (s s' : State) : Prop :=
  objects s' = objects s /\ next_object s' = next_object s /\
  modelRef s' = modelRef s /\ reticleRef s' = reticleRef s.

(** ** Sample data for concrete runs *)

Definition sample_gltf : Three.Object3D :=
  {| Three.position := Three.mkVector3 0 0 0; Three.rotation := Three.mkVector3 0 0 0;
     Three.scale := Three.mkVector3 1 1 1; Three.matrix := Three.identity;
     Three.matrixAutoUpdate := true; Three.visible := true; Three.children := [] |}.

Definition origin : Three.Vector3 := Three.mkVector3 0 0 0.

(** A pose one unit to the right and two units ahead, not rotated. *)
Definition level_pose : list Q :=
  [1; 0; 0; 0;  0; 1; 0; 0;  0; 0; 1; 0;  1; 0; -2; 1]%Q.

(** The same place, turned a quarter about the vertical axis. *)
Definition turned_pose : list Q :=
  [0; 0; -1; 0;  0; 1; 0; 0;  1; 0; 0; 0;  1; 0; -2; 1]%Q.

Definition tracked_frame (results : list (option (list Q))) : XRFrame :=
  mkXRFrame true true (Ok results).

(** A model is loaded, the AR session starts, the hit-test source arrives
    and a frame reports one hit with the given pose. *)
Definition tracking_events (pose : list Q) : list Event :=
  [ LoadModel Dragon_gltf;
    OnLoad 0 sample_gltf origin;
    SessionStart;
    Render (Some (tracked_frame []));
    HitTestSourceAcquired;
    Render (Some (tracked_frame [Some pose])) ].

Definition tracking_state (pose : list Q) : State :=
  default (init (Some true)) (run SceneB.step (tracking_events pose) (init (Some true))).

(** The session started and the hit-test source arrived; nothing is loaded
    and the reticle is still hidden. *)
Definition searching_state : State :=
  default (init (Some true))
    (run SceneB.step [SessionStart; Render (Some (tracked_frame [])); HitTestSourceAcquired]
       (init (Some true))).

(** A load of the dragon model whose timer expires while its transfer is
    still going on. *)
Definition slow_load_events : list Event :=
  [ LoadModel Dragon_gltf; Advance 30000; Timeout 0 ].

(** What the loading code reads and writes: the loads, the model ref, the
    loaded flag, the error and the clock. *)
Definition load_view (s : State) : list Load * option nat * bool * option string * Z :=
  (loads s, modelRef s, modelLoaded s, modelLoadError s, clock s).

(** How a load ends without a model: the loader reports an error, or the
    30000 ms timer of the load expires. *)
Inductive Failure : Type :=
| Fails (message : string)
| Expires.

(** The events of load [i] ending that way. *)
Definition failure_events (i : nat) (f : Failure) : list Event :=
  match f with
  | Fails message => [OnError i message]
  | Expires => [Advance LOAD_TIMEOUT; Timeout i]
  end.

(** The message the callback sets. *)
Definition failure_message (f : Failure) : string :=
  match f with
  | Fails message => "Failed to load 3D model: " ++ message
  | Expires => "Model loading timed out. Please try again."
  end.

(** The record of a load of [u] that ended that way. *)
Definition failed_load (u : string) (f : Failure) : Load :=
  match f with
  | Fails _ => mkLoad u Cleared true
  | Expires => mkLoad u Fired false
  end.

(** The time the events of a failure take. *)
Definition failure_time (f : Failure) : Z :=
  match f with
  | Fails _ => 0
  | Expires => LOAD_TIMEOUT
  end.

(** What the component's code writes of a placed object and what is drawn
    from: position, rotation, scale and visibility. *)
Definition placement (o : Three.Object3D)
    : Three.Vector3 * Three.Vector3 * Three.Vector3 * bool :=
  (Three.position o, Three.rotation o, Three.scale o, Three.visible o).

(** ** The page that submits the prompt (page component, lines 16-73) *)

Module Home.

Record PageState : Type := mkPageState {
  prompt : string;
  modelUrl : option string;
  modelDescription : option string;
  loading : bool;
  error : option string;
  aiGenerated : bool;
  modelType : option string
}.

(** What [fetch] gives: it rejects with an error message, or the route
    handler answers with one of its responses. *)
Inductive FetchResult : Type :=
| NetworkError (message : string)
| Answered (r : Response).

(** [response.status], as it is printed in a template literal. *)
Definition status_text (r : Response) : string :=
  match r with
  | Json200 _ _ _ _ => "200"
  | Json400 _ => "400"
  | Json500 _ _ => "500"
  end.

(** [s || null] for a string [s]. *)
Definition or_null (s : string) : option string :=
  if String.eqb s "" then None else Some s.

(** The [catch] and [finally] blocks. *)
Definition failed (message : string) (s : PageState) : PageState :=
  {| prompt := prompt s; modelUrl := None; modelDescription := modelDescription s;
     loading := false; error := Some ("Failed to generate AR model: " ++ message);
     aiGenerated := aiGenerated s; modelType := modelType s |}.

(** [errorData.error || `API error: ${response.status}`] *)
Definition api_error (error : string) (r : Response) : string :=
  if String.eqb error "" then "API error: " ++ status_text r else error.

(** The request body, [JSON.stringify({ prompt })] as the handler parses it. *)
Definition request_body (s : PageState) : JsValue :=
  JObj [("prompt", JStr (prompt s))].

(** [handleGenerate], run to its end: the final state and the request
    bodies that were sent. *)
Definition handleGenerate (fetch : JsValue -> FetchResult) (s : PageState)
    : PageState * list JsValue :=
  if String.eqb (trim (prompt s)) "" then
    ({| prompt := prompt s; modelUrl := modelUrl s;
        modelDescription := modelDescription s; loading := loading s;
        error := Some "Please enter a prompt"; aiGenerated := aiGenerated s;
        modelType := modelType s |}, [])
  else
    (match fetch (request_body s) with
     | NetworkError message => failed message s
     | Answered (Json200 url description aiGen mType) =>
         if String.eqb url "" then failed "No model URL returned from API" s
         else {| prompt := prompt s; modelUrl := Some url;
                 modelDescription := or_null description; loading := false;
                 error := None; aiGenerated := aiGen; modelType := or_null mType |}
     | Answered (Json400 e) => failed (api_error e (Json400 e)) s
     | Answered (Json500 e u) => failed (api_error e (Json500 e u)) s
     end, [request_body s]).

(** The page talking to the scoring route handler. *)
Definition via_scoring_handler (env : Env) (body : JsValue) : FetchResult :=
  Answered (Generate.POST env (Some body)).1.

(** [renderModelInfo]: nothing, or the caption, the model type and the
    description of the card. *)
Definition renderModelInfo (s : PageState) : option (string * string * string) :=
  match modelUrl s, modelDescription s with
  | Some u, Some d =>
      if String.eqb u "" || String.eqb d "" then None
      else Some (if aiGenerated s then "Created with Gemini AI" else "Using fallback model",
                 match modelType s with
                 | Some t => if String.eqb t "" then "Unknown" else t
                 | None => "Unknown"
                 end,
                 d)
  | _, _ => None
  end.

End Home.

(** ** The older page, which talks to the sample server (server.js, lines
    112-243) *)

Module HomeOld.

Record PageState : Type := mkPageState {
  prompt : string;
  modelUrl : option string;
  loading : bool;
  error : option string
}.

Definition DEFAULT_TEST_MODEL : string :=
  "https://raw.githubusercontent.com/KhronosGroup/glTF-Sample-Models/master/2.0/Box/glTF/Box.gltf".

(** The [catch] and [finally] blocks: the model URL is left as it was. *)
Definition failed (message : string) (s : PageState) : PageState :=
  {| prompt := prompt s; modelUrl := modelUrl s; loading := false;
     error := Some ("Failed to generate AR model: " ++ message) |}.

Definition request_body (s : PageState) : JsValue :=
  JObj [("prompt", JStr (prompt s))].

(** [handleGenerate], run to its end: the final state and the request
    bodies that were sent. *)
Definition handleGenerate (fetch : JsValue -> Home.FetchResult) (s : PageState)
    : PageState * list JsValue :=
  if String.eqb (trim (prompt s)) "" then
    ({| prompt := prompt s; modelUrl := modelUrl s; loading := loading s;
        error := Some "Please enter a prompt" |}, [])
  else
    (match fetch (request_body s) with
     | Home.NetworkError message => failed message s
     | Home.Answered (Json200 url _ _ _) =>
         if String.eqb url "" then failed "No model URL returned from API" s
         else {| prompt := prompt s; modelUrl := Some url; loading := false;
                 error := None |}
     | Home.Answered r => failed ("API error: " ++ Home.status_text r) s
     end, [request_body s]).

(** [modelUrl || DEFAULT_TEST_MODEL], the URL given to the AR view. *)
Definition shown_model (s : PageState) : string :=
  match modelUrl s with
  | Some u => if String.eqb u "" then DEFAULT_TEST_MODEL else u
  | None => DEFAULT_TEST_MODEL
  end.

End HomeOld.

(** ** The progress bar of the second revision (ARScene.tsx, lines 1008-1011) *)

Module ProgressBar.

(** [Math.floor(progress / 10) * 10] for the integer percentages the
    component stores. *)
Definition roundedProgress (progress : Z) : Z := (progress / 10 * 10)%Z.

End ProgressBar.

(** ** Third revision of the component (unnamed part 5) *)

Module SceneC.

(** [s.lastIndexOf(c)]: [found] is the last index seen before position [i]. *)
Fixpoint lastIndexOf_from (c : ascii) (s : string) (i found : Z) : Z :=
  match s with
  | EmptyString => found
  | String a rest => lastIndexOf_from c rest (i + 1) (if Ascii.eqb a c then i else found)
  end.

Definition lastIndexOf (c : ascii) (s : string) : Z := lastIndexOf_from c s 0 (-1).

(** [url.substring(0, url.lastIndexOf('/') + 1)], the argument of [setPath]. *)
Definition loader_path (u : string) : string :=
  String.substring 0 (Z.to_nat (lastIndexOf "/" u + 1)) u.

(** [url.split('/').pop() || url], the first argument of [loader.load]. *)
Definition loader_file (u : string) : string :=
  let name := List.last (split "/" u) EmptyString in
  if String.eqb name "" then u else name.

Definition fallbackModels_default : string := SceneB.fallbackModels_default.

(** [loadModel] up to the timer is, line for line, that of the second
    revision. *)
Definition loadModel (u : string) (s : State) : State := SceneB.loadModel u s.

(** [manager.onError]: its parameter, the URL of the resource that failed,
    hides the URL of the load. *)
Definition on_manager_error (i : nat) (l : Load) (resource : string) (s : State) : State :=
  let s := set_loads (<[i := mkLoad (url l) (clearTimeout (timeoutId l)) (reported l)]>
                        (loads s)) s in
  let s := set_modelLoadError (Some ("Failed to load resource: " ++ resource)) s in
  if String.eqb resource fallbackModels_default then s
  else loadModel fallbackModels_default s.

(** [onSelect]: the copy is enlarged by [multiplyScalar(1.2)] before it is
    added to the scene. *)
Definition onSelect (s : State) : State :=
  match reticleRef s with
  | Some r =>
      match objects s !! r with
      | Some reticle =>
          if Three.visible reticle then
            match modelRef s with
            | Some m =>
                match objects s !! m with
                | Some template =>
                    let model := Three.clone template in
                    let model :=
                      Three.set_position
                        (Three.setFromMatrixPosition (Three.matrix reticle)) model in
                    let model := Three.set_visible true model in
                    let model :=
                      Three.set_scale (Three.scaled (12 # 10) (Three.scale model)) model in
                    let (id, s) := alloc model s in
                    let s := scene_add id s in
                    set_placedObjects (placedObjects s ++ [id]) s
                | None => s
                end
            | None => s
            end
          else s
      | None => s
      end
  | None => s
  end.

(** [animateScale(time)] for the pulse of [model] that started at
    [startTime]; [originalScale] is the scale captured before the
    enlargement. *)
Definition animateScale (model : nat) (originalScale : Three.Vector3)
    (startTime time : Q) (s : State) : State :=
  let elapsed := (time - startTime)%Q in
  if negb (Qle_bool 300 elapsed) then
    let progress := (elapsed / 300)%Q in
    update_object model
      (Three.set_scale (Three.scaled ((12 # 10) - (2 # 10) * progress) originalScale)) s
  else update_object model (Three.set_scale originalScale) s.

End SceneC.

(** ** Invariant of a mounted scene *)

(** The store is well formed, the scene graph holds allocated objects only,
    and every placed object is allocated, is in the scene graph, and is
    neither the template nor the reticle. *)
Definition scene_inv (s : State) : Prop :=
  wf s /\
  (forall id, id ∈ scene s -> (id < next_object s)%nat) /\
  (forall id, id ∈ placedObjects s ->
              is_Some (objects s !! id) /\ id ∈ scene s /\
              modelRef s <> Some id /\ reticleRef s <> Some id).

(** Is the timer of load [i] still pending? *)
Definition timer_pending (i : nat) (s : State) : bool :=
  match loads s !! i with
  | Some l =>
      match timeoutId l with
      | Pending _ => true
      | _ => false
      end
  | None => false
  end.

(** The non-empty words of the lowercased prompt. *)
Definition prompt_words (p : string) : list string :=
  List.filter (fun w => negb (String.eqb w "")) (split " " (toLowerCase p)).

(** A score entry with its count doubled: what a category scores when
    every token occurs twice. *)
Definition double_score (e : string * nat) : string * nat :=
  (fst e, (snd e + snd e)%nat).

(** Is the event a placement? *)
Definition is_select (e : Event) : bool :=
  match e with
  | Select => true
  | _ => false
  end.

(** Does the character occur in the string? *)
Fixpoint has_char (c : ascii) (s : string) : bool :=
  match s with
  | EmptyString => false
  | String a rest => Ascii.eqb a c || has_char c rest
  end.


(** An object that is stored, is not the reticle, and is hidden. *)
Definition hidden_object (id : nat) (s : State) : Prop :=
  reticleRef s <> Some id /\
  Three.visible <$> (objects s !! id) = Some false.
(** * Properties *)

Local Open Scope list_scope.

(** ** Scoring and selection *)

Section Scoring.

Import Generate.

Lemma reduce_score_strings (keywords tokens : list string) (acc : nat) :
  reduce_score keywords (map JStr tokens) acc = Ok (acc + hits keywords tokens)%nat.
Proof.
  revert acc. induction tokens as [|t tokens IH]; intros acc; simpl.
  - f_equal. unfold hits. simpl. lia.
  - rewrite IH. f_equal. unfold hits. simpl.
    destruct (array_includes keywords (toLowerCase t)); simpl; lia.
Qed.

Lemma categoryScores_strings (categories : list (string * list string))
    (tokens : list string) :
  categoryScores categories (map JStr tokens)
  = Ok (map (fun ck => (fst ck, hits (snd ck) tokens)) categories).
Proof.
  induction categories as [|[c kws] rest IH]; simpl; [reflexivity|].
  rewrite reduce_score_strings, IH. reflexivity.
Qed.

Lemma insert_desc_elem (x e : string * nat) (l : list (string * nat)) :
  e ∈ insert_desc x l -> e = x \/ e ∈ l.
Proof.
  induction l as [|y l IH]; simpl.
  - intros H. apply list_elem_of_singleton in H. auto.
  - destruct (snd x <? snd y)%nat.
    + intros H. apply elem_of_cons in H as [->|H].
      * right. left.
      * destruct (IH H) as [->|H']; [auto | right; right; exact H'].
    + intros H. apply elem_of_cons in H as [->|H]; auto.
Qed.

Lemma sort_desc_elem (e : string * nat) (l : list (string * nat)) :
  e ∈ sort_desc l -> e ∈ l.
Proof.
  induction l as [|x l IH]; simpl; [auto|].
  intros H. apply insert_desc_elem in H as [->|H]; [left | right; auto].
Qed.


Lemma sort_desc_nonempty (x : string * nat) (l : list (string * nat)) :
  exists y tail, sort_desc (x :: l) = y :: tail.
Proof.
  simpl. destruct (sort_desc l) as [|y tl]; simpl; [eauto|].
  destruct (snd x <? snd y)%nat; eauto.
Qed.

(** The head of the sorted array has the highest score of all. *)
Lemma sort_desc_head_max (l : list (string * nat)) (b : string * nat)
    (tail : list (string * nat)) :
  sort_desc l = b :: tail -> forall e, e ∈ l -> (snd e <= snd b)%nat.
Proof.
  revert b tail. induction l as [|x l IH]; intros b tail E e He.
  - inversion He.
  - simpl in E. destruct (sort_desc l) as [|y tl] eqn:El.
    + simpl in E. injection E as <- <-.
      apply elem_of_cons in He as [->|He]; [lia|].
      destruct l as [|z l']; [inversion He|].
      destruct (sort_desc_nonempty z l') as (y & tl & E'). congruence.
    + simpl in E. specialize (IH y tl eq_refl).
      destruct (Nat.ltb_spec (snd x) (snd y)).
      * injection E as <- <-.
        apply elem_of_cons in He as [->|He]; [lia | auto].
      * injection E as <- <-.
        apply elem_of_cons in He as [->|He]; [lia|].
        apply IH in He. lia.
Qed.

(** Every category name has a non-empty URL in [fallbackModels]. *)
Lemma category_url (c : string) (kws : list string) :
  (c, kws) ∈ modelCategories ->
  exists u, fallbackModels !! c = Some u /\
            lookup_or fallbackModels c fallbackModels_default = u.
Proof.
  unfold modelCategories. intros H.
  repeat (apply elem_of_cons in H as [H|H];
          [injection H as -> _; eexists; split; vm_compute; reflexivity|]).
  inversion H.
Qed.

End Scoring.

Section Resolution.

Import Generate.

(** A failing call ends in the [catch] block, whatever the prompt. *)
Lemma generate_rejected (key : bool) (prompt : JsValue) :
  (generateModelWithAI (mkEnv key Rejected) prompt).1 = generate_catch.
Proof.
  unfold generateModelWithAI, generate_try. cbn [GEMINI_API_KEY completion].
  destruct key; cbn [negb]; [|reflexivity].
  destruct (template_literal prompt); reflexivity.
Qed.

(** A run whose call was answered and whose key tokens are all strings:
    the result is determined by the head of the sorted scores. *)
Lemma generate_answered (p : string) (text : string) (parsed : option JsValue)
    (tokens : list string) (b : string * nat) (tail : list (string * nat)) :
  key_tokens (JStr p) parsed = Ok (map JStr tokens) ->
  sort_desc (scores_of tokens) = b :: tail ->
  (generateModelWithAI (mkEnv true (Responded text parsed)) (JStr p)).1
  = (let modelType := if (0 <? snd b)%nat then fst b else "default" in
     {| modelUrl := lookup_or fallbackModels modelType fallbackModels_default;
        modelDescription := text; aiGenerated := true; modelType := modelType |}).
Proof.
  intros Hk Hs. unfold generateModelWithAI, generate_try.
  cbn [GEMINI_API_KEY completion negb template_literal converts_to_string].
  rewrite Hk. cbn [bind].
  rewrite categoryScores_strings. cbn [bind].
  unfold select_modelType. fold (scores_of tokens). rewrite Hs. reflexivity.
Qed.

Lemma filter_truthy_strings (l : list string) :
  List.filter truthy (map JStr l)
  = map JStr (List.filter (fun w => negb (String.eqb w "")) l).
Proof.
  induction l as [|w l IH]; simpl; [reflexivity|].
  destruct (String.eqb w ""); simpl; rewrite IH; reflexivity.
Qed.

(** When the reply is not JSON, the key tokens are the non-empty words of
    the lowercased prompt, each twice. *)
Lemma key_tokens_text_analysis (p : string) :
  let words := split " " (toLowerCase p) in
  key_tokens (JStr p) None
  = Ok (map JStr (List.filter (fun w => negb (String.eqb w "")) (words ++ words))).
Proof.
  intros words. unfold key_tokens, ai_response, allKeywords, prompt_tokens. simpl.
  fold words. rewrite app_assoc, List.filter_app. simpl.
  rewrite app_nil_r, <- map_app. apply f_equal, filter_truthy_strings.
Qed.

Lemma scores_of_head (tokens : list string) :
  exists b tail, sort_desc (scores_of tokens) = b :: tail.
Proof. unfold scores_of, modelCategories. simpl map. apply sort_desc_nonempty. Qed.

Lemma scores_of_elem (tokens : list string) (b : string * nat) :
  b ∈ scores_of tokens ->
  exists kws, (fst b, kws) ∈ modelCategories /\ snd b = hits kws tokens.
Proof.
  unfold scores_of. intros H. apply list_elem_of_fmap in H as ([c kws] & -> & H).
  exists kws. split; [exact H | reflexivity].
Qed.

Lemma elem_scores_of (tokens : list string) (c : string) (kws : list string) :
  (c, kws) ∈ modelCategories -> (c, hits kws tokens) ∈ scores_of tokens.
Proof.
  intros H. unfold scores_of. apply list_elem_of_fmap. exists (c, kws). split; [reflexivity | exact H].
Qed.

(** C1 (amended).  For a prompt of ASCII characters whose description call
    was answered and whose key tokens -- the words of the lowercased prompt
    split at single spaces together with the keywords and main category of
    the reply, empty ones dropped -- are all strings of ASCII characters:
    the score of a category is the number of key tokens that are,
    lowercased, equal to one of its trigger keywords (whole tokens, not
    substrings), and the returned URL is the table URL of a category with
    the highest score, or the default URL when every score is zero. *)
Theorem C1_scores_count_whole_tokens (p text : string) (parsed : option JsValue)
    (tokens : list string) :
  ascii_only p = true ->
  forallb ascii_only tokens = true ->
  key_tokens (JStr p) parsed = Ok (map JStr tokens) ->
  let r := (generateModelWithAI (mkEnv true (Responded text parsed)) (JStr p)).1 in
  categoryScores modelCategories (map JStr tokens)
  = Ok (map (fun ck => (fst ck, hits (snd ck) tokens)) modelCategories) /\
  ((modelType r = "default" /\ modelUrl r = fallbackModels_default /\
    forall c kws, (c, kws) ∈ modelCategories -> hits kws tokens = 0%nat) \/
   (exists kws, (modelType r, kws) ∈ modelCategories /\
      fallbackModels !! modelType r = Some (modelUrl r) /\
      (0 < hits kws tokens)%nat /\
      forall c' kws', (c', kws') ∈ modelCategories ->
                      (hits kws' tokens <= hits kws tokens)%nat)).
Proof.
  intros _ _ Hk r. split; [apply categoryScores_strings|].
  destruct (scores_of_head tokens) as (b & tail & Hs).
  assert (Hr : r = _) by (exact (generate_answered _ text _ _ _ _ Hk Hs)).
  pose proof (sort_desc_head_max _ _ _ Hs) as Hmax.
  assert (Hb : b ∈ scores_of tokens) by (apply sort_desc_elem; rewrite Hs; left).
  apply scores_of_elem in Hb as (kws & Hin & Hsc).
  destruct (Nat.ltb_spec 0 (snd b)) as [Hpos|Hzero]; rewrite Hr; cbn [modelType modelUrl].
  - right. exists kws. destruct (category_url _ _ Hin) as (u & Hu & Hl).
    rewrite Hl. repeat split; [exact Hin | exact Hu | lia |].
    intros c' kws' Hin'. rewrite <- Hsc.
    exact (Hmax _ (elem_scores_of tokens _ _ Hin')).
  - left. repeat split. intros c kws' Hin'.
    pose proof (Hmax _ (elem_scores_of tokens _ _ Hin')) as Hle. simpl in Hle. lia.
Qed.

Lemma C1_scores_count_whole_tokens_witness :
  key_tokens (JStr "A red dragon breathing fire") None
  = Ok (map JStr ["a"; "red"; "dragon"; "breathing"; "fire";
                  "a"; "red"; "dragon"; "breathing"; "fire"]) /\
  categoryScores modelCategories
    (map JStr ["a"; "red"; "dragon"; "breathing"; "fire";
               "a"; "red"; "dragon"; "breathing"; "fire"])
  = Ok [("fish", 0%nat); ("dragon", 2%nat); ("robot", 0%nat); ("lantern", 0%nat);
        ("animal", 0%nat); ("human", 0%nat); ("vehicle", 0%nat); ("cube", 0%nat)].
Proof.
  split; [reflexivity|].
  apply (C1_scores_count_whole_tokens "A red dragon breathing fire" "a dragon" None);
    reflexivity.
Defined.

(** C1, as stated, fails: for the prompt "dragonfly" the substring count
    of the specification selects the dragon model, while the handler,
    which compares whole tokens, scores every category zero and returns
    the default model. *)
Lemma C1_counterexample :
  let r := (generateModelWithAI (mkEnv true (Responded "A dragonfly." None))
              (JStr "dragonfly")).1 in
  SpecReading.substring_hits
    ["dragon"; "mythical"; "fantasy"; "flying"; "creature"; "magical"; "wings"]
    "dragonfly" = 1%nat /\
  SpecReading.resolve "dragonfly" = Dragon_gltf /\
  modelUrl r = Box_gltf /\
  modelUrl r <> SpecReading.resolve "dragonfly".
Proof. vm_compute. repeat split; discriminate. Qed.




End Resolution.

(** ** The handlers *)

Section Handlers.

(** [table[key] || dflt] is a value of the table when [dflt] is one. *)
Lemma lookup_or_in_table (table : gmap string string) (key dflt : string) :
  (exists k, table !! k = Some dflt) -> dflt <> "" ->
  (exists k, table !! k = Some (lookup_or table key dflt)) /\
  String.eqb (lookup_or table key dflt) "" = false.
Proof.
  intros Hd Hne. unfold lookup_or.
  destruct (table !! key) as [u|] eqn:E.
  - destruct (String.eqb u "") eqn:Eu.
    + split; [exact Hd | apply String.eqb_neq; exact Hne].
    + split; [eauto | exact Eu].
  - split; [exact Hd | apply String.eqb_neq; exact Hne].
Qed.

(** A table built from a list of non-empty URLs has non-empty values. *)
Lemma table_nonempty (entries : list (string * string)) :
  forallb (fun e => negb (String.eqb (snd e) "")) entries = true ->
  forall k u, (list_to_map entries : gmap string string) !! k = Some u -> u <> "".
Proof.
  intros Hall k u H. apply elem_of_list_to_map_2 in H.
  rewrite forallb_forall in Hall. apply list_elem_of_In, Hall in H.
  cbn in H. apply negb_true_iff, String.eqb_neq in H. exact H.
Qed.

Lemma generate_url_in_table (env : Env) (prompt : JsValue) :
  (exists k, Generate.fallbackModels !! k
             = Some (modelUrl (Generate.generateModelWithAI env prompt).1)) /\
  String.eqb (modelUrl (Generate.generateModelWithAI env prompt).1) "" = false.
Proof.
  assert (Hdefault : (exists k, Generate.fallbackModels !! k
                                = Some Generate.fallbackModels_default) /\
                     String.eqb Generate.fallbackModels_default "" = false).
  { split; [exists "default"|]; vm_compute; reflexivity. }
  unfold Generate.generateModelWithAI, Generate.generate_try.
  destruct (GEMINI_API_KEY env); cbn [negb]; [|exact Hdefault].
  destruct (template_literal prompt); [|exact Hdefault].
  destruct (completion env) as [|text parsed]; [exact Hdefault|].
  destruct (Generate.key_tokens prompt parsed) as [all|]; cbn [bind]; [|exact Hdefault].
  destruct (Generate.categoryScores Generate.modelCategories all) as [scores|];
    cbn [bind]; [|exact Hdefault].
  destruct (Generate.select_modelType scores) as [mt|]; cbn [bind]; [|exact Hdefault].
  cbn [fst try_catch modelUrl]. apply lookup_or_in_table.
  - exists "default". vm_compute. reflexivity.
  - vm_compute. discriminate.
Qed.

Lemma chain_url_in_table (env : Env) (prompt : JsValue) :
  exists k, GenerateChain.fallbackModels !! k
            = Some (modelUrl (GenerateChain.generateModelWithAI env prompt).1).
Proof.
  assert (Hcube : exists k, GenerateChain.fallbackModels !! k
                            = Some GenerateChain.fallbackModels_cube).
  { exists "cube". vm_compute. reflexivity. }
  unfold GenerateChain.generateModelWithAI, GenerateChain.generate_try.
  destruct (template_literal prompt); [|exact Hcube].
  destruct (completion env) as [|text parsed]; [exact Hcube|].
  destruct (js_toLowerCase prompt) as [keywords|]; cbn [bind]; [|exact Hcube].
  cbn [fst try_catch modelUrl]. apply lookup_or_in_table.
  - exact Hcube.
  - vm_compute. discriminate.
Qed.

(** A failing call ends in the [catch] block, whatever the prompt. *)
Lemma chain_rejected (key : bool) (prompt : JsValue) :
  (GenerateChain.generateModelWithAI (mkEnv key Rejected) prompt).1
  = GenerateChain.generate_catch.
Proof.
  unfold GenerateChain.generateModelWithAI, GenerateChain.generate_try.
  destruct (template_literal prompt); reflexivity.
Qed.

(** What the handlers answer to a truthy prompt: the success response with
    a URL of the table when the prompt converts to a string, the 500
    response otherwise. *)
Lemma generate_answer_cases (env : Env) (b p : JsValue) :
  get_prop b "prompt" = Ok (Some p) -> truthy p = true ->
  (converts_to_string p = true /\
   Generate.POST env (Some b)
   = (let run := Generate.generateModelWithAI env p in
      (Json200 (modelUrl run.1) (modelDescription run.1) (aiGenerated run.1)
         (modelType run.1), run.2))) \/
  (converts_to_string p = false /\
   Generate.POST env (Some b) = (Generate.error_response, [])).
Proof.
  intros Hp Ht. unfold Generate.POST, template_literal. rewrite Hp, Ht.
  destruct (converts_to_string p); [left | right; auto].
  split; [reflexivity|].
  destruct (generate_url_in_table env p) as [_ Hne].
  destruct (Generate.generateModelWithAI env p) as [modelData effects].
  cbn [fst snd] in *. rewrite Hne. reflexivity.
Qed.

Lemma chain_answer_cases (env : Env) (p : JsValue) :
  (converts_to_string p = true /\
   GenerateChain.answer env p
   = (GenerateChain.respond (GenerateChain.generateModelWithAI env p).1,
      (GenerateChain.generateModelWithAI env p).2)) \/
  (converts_to_string p = false /\
   GenerateChain.answer env p = (GenerateChain.error_response, [])).
Proof.
  unfold GenerateChain.answer, template_literal.
  destruct (converts_to_string p); [left | right; auto].
  split; [reflexivity|].
  destruct (GenerateChain.generateModelWithAI env p) as [modelData effects]. reflexivity.
Qed.

(** C3 (amended).  When the description call fails (or, in the scoring
    handler, the API key is not configured), the result has the placeholder
    description and is flagged as not AI-generated, and the keyword table is
    not consulted: the scoring handler returns the default asset URL with
    the type "default", the first-match handler the cube asset URL with the
    type "fallback".  For the prompt "A red dragon breathing fire" the
    scoring handler returns the dragon URL when the call was answered with
    a text that is not JSON; the first-match handler, whose table has no
    dragon entry, returns the cube URL with the type "generic" whenever the
    call was answered. *)
Theorem C3_failed_call_gives_default_model :
  (forall key prompt,
      (Generate.generateModelWithAI (mkEnv key Rejected) prompt).1
      = {| modelUrl := Box_gltf; modelDescription := "Failed to generate AI description";
           aiGenerated := false; modelType := "default" |}) /\
  (forall c prompt,
      Generate.generateModelWithAI (mkEnv false c) prompt
      = ({| modelUrl := Box_gltf; modelDescription := "Failed to generate AI description";
            aiGenerated := false; modelType := "default" |}, [])) /\
  (forall key prompt,
      (GenerateChain.generateModelWithAI (mkEnv key Rejected) prompt).1
      = {| modelUrl := Box_gltf; modelDescription := "Failed to generate AI description";
           aiGenerated := false; modelType := "fallback" |}) /\
  (forall text,
      (Generate.generateModelWithAI (mkEnv true (Responded text None))
         (JStr "A red dragon breathing fire")).1
      = {| modelUrl := Dragon_gltf; modelDescription := text;
           aiGenerated := true; modelType := "dragon" |}) /\
  (forall key text parsed,
      (GenerateChain.generateModelWithAI (mkEnv key (Responded text parsed))
         (JStr "A red dragon breathing fire")).1
      = {| modelUrl := Box_gltf; modelDescription := text;
           aiGenerated := true; modelType := "generic" |}).
Proof.
  split; [|split; [|split; [|split]]].
  - intros key prompt. rewrite generate_rejected. reflexivity.
  - intros c prompt. reflexivity.
  - intros key prompt. rewrite chain_rejected. reflexivity.
  - intros text. reflexivity.
  - intros key text parsed. reflexivity.
Qed.

(** C3, as stated, fails: with the description call failing, the prompt
    "A red dragon breathing fire" gets the default (box) URL, not the
    dragon URL of the table. *)
Lemma C3_counterexample :
  let r := (Generate.generateModelWithAI (mkEnv true Rejected)
              (JStr "A red dragon breathing fire")).1 in
  Generate.fallbackModels !! "dragon" = Some Dragon_gltf /\
  aiGenerated r = false /\
  modelDescription r = Generate.placeholder /\
  modelUrl r = Box_gltf /\
  modelUrl r <> Dragon_gltf.
Proof. vm_compute. repeat split; discriminate. Qed.

(** C7, evaluated.  A prompt of three spaces is truthy, so both route
    handlers pass it on: the request to the text-completion service is
    sent and the response is a success.  The empty prompt and the missing
    prompt are rejected with status 400 and no request; the page rejects
    the three spaces as well, before it sends anything. *)
Theorem C7_whitespace_prompt_reaches_service (text : string) :
  let env := mkEnv true (Responded text None) in
  let body := Some (JObj [("prompt", JStr "   ")]) in
  Generate.POST env body
  = (Json200 Box_gltf text true "default", [GenerateContent (JStr "   ")]) /\
  GenerateChain.POST env body
  = (Json200 Box_gltf text true "generic", [GenerateContent (JStr "   ")]) /\
  Page.handleGenerate "   " = Page.ValidationError "Please enter a prompt" /\
  (forall env', Generate.POST env' (Some (JObj [("prompt", JStr "")]))
                = (Json400 "Prompt is required", [])) /\
  (forall env', Generate.POST env' (Some (JObj [])) = (Json400 "Prompt is required", [])).
Proof. repeat split. Qed.

(** C10.  Whatever the request, a response that carries a [url] (status
    200 or 500) carries a URL of the fallback table; and a request whose
    body has a truthy [prompt] gets the success response, with such a URL,
    or, when the prompt cannot be converted to a string, the 500 response
    with the fallback URL.  This holds for the scoring handler, for the
    first-match handler and for the handler of the sample server. *)
Theorem C10_response_url_in_table (env : Env) :
  (forall k u, Generate.fallbackModels !! k = Some u -> u <> "") /\
  (forall k u, GenerateChain.fallbackModels !! k = Some u -> u <> "") /\
  (forall body u,
      response_url (Generate.POST env body).1 = Some u ->
      exists k, Generate.fallbackModels !! k = Some u) /\
  (forall b p,
      get_prop b "prompt" = Ok (Some p) -> truthy p = true ->
      exists u,
        (exists k, Generate.fallbackModels !! k = Some u) /\
        ((converts_to_string p = true /\
          exists d a t, (Generate.POST env (Some b)).1 = Json200 u d a t) \/
         (converts_to_string p = false /\
          (Generate.POST env (Some b)).1 = Json500 "Failed to generate model" u))) /\
  (forall body u,
      response_url (GenerateChain.POST env body).1 = Some u ->
      exists k, GenerateChain.fallbackModels !! k = Some u) /\
  (forall b p,
      get_prop b "prompt" = Ok (Some p) -> truthy p = true ->
      exists u,
        (exists k, GenerateChain.fallbackModels !! k = Some u) /\
        ((converts_to_string p = true /\
          exists d a t, (GenerateChain.POST env (Some b)).1 = Json200 u d a t) \/
         (converts_to_string p = false /\
          (GenerateChain.POST env (Some b)).1 = Json500 "Failed to generate model" u))) /\
  (forall body r effects u,
      GenerateChain.server env body = Some (Ok (r, effects)) ->
      response_url r = Some u ->
      exists k, GenerateChain.fallbackModels !! k = Some u) /\
  (forall b p,
      get_prop b "prompt" = Ok (Some p) -> truthy p = true ->
      exists u,
        (exists k, GenerateChain.fallbackModels !! k = Some u) /\
        ((converts_to_string p = true /\
          exists d a t effects,
            GenerateChain.app_post_generate env b = Ok (Json200 u d a t, effects)) \/
         (converts_to_string p = false /\
          GenerateChain.app_post_generate env b
          = Ok (Json500 "Failed to generate model" u, [])))).
Proof.
  assert (Hd : exists k, Generate.fallbackModels !! k = Some Generate.fallbackModels_default)
    by (exists "default"; vm_compute; reflexivity).
  assert (Hc : exists k, GenerateChain.fallbackModels !! k
                         = Some GenerateChain.fallbackModels_cube)
    by (exists "cube"; vm_compute; reflexivity).
  assert (Hanswer : forall p u,
             response_url (GenerateChain.answer env p).1 = Some u ->
             exists k, GenerateChain.fallbackModels !! k = Some u).
  { intros p u. destruct (chain_answer_cases env p) as [[_ ->]|[_ ->]];
      cbn; intros [= <-]; [apply chain_url_in_table | exact Hc]. }
  assert (Hcases : forall p,
             exists u,
               (exists k, GenerateChain.fallbackModels !! k = Some u) /\
               ((converts_to_string p = true /\
                 exists d a t effects,
                   GenerateChain.answer env p = (Json200 u d a t, effects)) \/
                (converts_to_string p = false /\
                 GenerateChain.answer env p = (Json500 "Failed to generate model" u, [])))).
  { intros p. destruct (chain_answer_cases env p) as [[Hs ->]|[Hs ->]].
    - eexists. split; [apply chain_url_in_table|]. left. split; [exact Hs|].
      unfold GenerateChain.respond. eauto.
    - eexists. split; [exact Hc|]. right. split; [exact Hs | reflexivity]. }
  split; [|split]; [apply table_nonempty; vm_compute; reflexivity ..|].
  split; [|split; [|split; [|split; [|split]]]].
  - intros body u. unfold Generate.POST.
    destruct body as [b|]; [|cbn; intros [= <-]; exact Hd].
    destruct (get_prop b "prompt") as [[p|]|] eqn:Hp; cbn [fst response_url];
      [|discriminate|intros [= <-]; exact Hd].
    destruct (truthy p) eqn:Ht; [|cbn; discriminate].
    destruct (generate_answer_cases env b p Hp Ht) as [[_ H]|[_ H]];
      unfold Generate.POST in H; rewrite Hp, Ht in H; rewrite H.
    + cbn. intros [= <-]. apply generate_url_in_table.
    + cbn. intros [= <-]. exact Hd.
  - intros b p Hp Ht.
    destruct (generate_answer_cases env b p Hp Ht) as [[Hs ->]|[Hs ->]].
    + eexists. split; [apply (generate_url_in_table env p)|]. left.
      split; [exact Hs|]. cbn. eauto.
    + eexists. split; [exact Hd|]. right. split; [exact Hs | reflexivity].
  - intros body u. unfold GenerateChain.POST.
    destruct body as [b|]; [|cbn; intros [= <-]; exact Hc].
    destruct (get_prop b "prompt") as [[p|]|]; cbn [fst response_url];
      [|discriminate|intros [= <-]; exact Hc].
    destruct (truthy p); [apply Hanswer | cbn; discriminate].
  - intros b p Hp Ht. unfold GenerateChain.POST. rewrite Hp, Ht.
    destruct (Hcases p) as (u & Hin & [[Hs (d & a & t & effects & ->)]|[Hs ->]]);
      exists u; (split; [exact Hin|]); [left | right]; split; eauto.
  - intros body r effects u. unfold GenerateChain.server, GenerateChain.app_post_generate.
    destruct body as [[| | | | elems|fields]|]; cbn; try discriminate.
    + intros [= <- <-]. cbn. discriminate.
    + destruct (own_prop "prompt" fields) as [p|]; [|intros [= <- <-]; cbn; discriminate].
      destruct (truthy p); [|intros [= <- <-]; cbn; discriminate].
      intros [= H]. intros Hu. apply (Hanswer p). rewrite H. exact Hu.
  - intros b p Hp Ht. unfold GenerateChain.app_post_generate. rewrite Hp. cbn [bind].
    rewrite Ht.
    destruct (Hcases p) as (u & Hin & [[Hs (d & a & t & effects & ->)]|[Hs ->]]);
      exists u; (split; [exact Hin|]); [left | right]; split; eauto 6.
Qed.

Lemma C10_response_url_in_table_witness :
  exists u,
    (exists k, Generate.fallbackModels !! k = Some u) /\
    exists d a t,
      (Generate.POST (mkEnv true Rejected) (Some (JObj [("prompt", JStr "a robot")]))).1
      = Json200 u d a t.
Proof.
  destruct (C10_response_url_in_table (mkEnv true Rejected)) as (_ & _ & _ & H & _).
  destruct (H (JObj [("prompt", JStr "a robot")]) (JStr "a robot") eq_refl eq_refl)
    as (u & Hin & [[_ H200]|[Hs _]]); [|discriminate Hs].
  exists u. split; [exact Hin | exact H200].
Defined.

End Handlers.

(** ** The object store *)

Section Store.

(** The progress callback changes the percentage, if anything. *)
Lemma on_progress_inv (lengthComputable : bool) (loaded total : Z) (s s' : State) :
  on_progress lengthComputable loaded total s = Some s' ->
  s' = s \/ exists percent, s' = set_modelLoadProgress percent s.
Proof.
  unfold on_progress. destruct lengthComputable; [|intros [= <-]; auto].
  destruct (progressPercent loaded total) as [percent|]; [|discriminate].
  intros [= <-]. eauto.
Qed.

Lemma wf_init (supported : option bool) : wf (init supported).
Proof.
  unfold wf, init; cbn. repeat split.
  - intros id [o H]. apply lookup_singleton_Some in H as [<- _]. lia.
  - discriminate.
  - intros r [= <-]. rewrite lookup_singleton_eq. eauto.
Qed.


Lemma wf_same_store (s s' : State) : same_store s s' -> wf s -> wf s'.
Proof.
  intros (Ho & Hn & Hm & Hr) (H1 & H2 & H3). unfold wf.
  rewrite Ho, Hn, Hm, Hr. auto.
Qed.

Lemma wf_drop_model (s s' : State) :
  objects s' = objects s -> next_object s' = next_object s ->
  modelRef s' = None -> reticleRef s' = reticleRef s -> wf s -> wf s'.
Proof.
  intros Ho Hn Hm Hr (H1 & H2 & H3). unfold wf.
  rewrite Ho, Hn, Hm, Hr. repeat split; auto. discriminate.
Qed.

Lemma wf_update_object (id : nat) (f : Three.Object3D -> Three.Object3D) (s : State) :
  wf s -> wf (update_object id f s).
Proof.
  intros (H1 & H2 & H3). unfold wf, update_object; cbn.
  repeat split; intros j; rewrite lookup_alter_is_Some; auto.
Qed.

(** Installing a new object as the model. *)
Lemma wf_install (o : Three.Object3D) (s s' : State) :
  objects s' = <[next_object s := o]> (objects s) ->
  next_object s' = S (next_object s) ->
  modelRef s' = Some (next_object s) -> reticleRef s' = reticleRef s ->
  wf s -> wf s'.
Proof.
  intros Ho Hn Hm Hr (H1 & H2 & H3). unfold wf. rewrite Ho, Hn, Hm, Hr.
  repeat split.
  - intros id. rewrite lookup_insert_is_Some. intros [<-|[_ H]]; [lia|].
    apply H1 in H. lia.
  - intros m [= <-]. rewrite lookup_insert_eq. eauto.
  - intros r Hr'. rewrite lookup_insert_is_Some.
    destruct (decide (next_object s = r)); [auto | right; auto].
Qed.

(** Adding a new object that no ref points to. *)
Lemma wf_place (o : Three.Object3D) (s s' : State) :
  objects s' = <[next_object s := o]> (objects s) ->
  next_object s' = S (next_object s) ->
  modelRef s' = modelRef s -> reticleRef s' = reticleRef s ->
  wf s -> wf s'.
Proof.
  intros Ho Hn Hm Hr (H1 & H2 & H3). unfold wf. rewrite Ho, Hn, Hm, Hr.
  repeat split.
  - intros id. rewrite lookup_insert_is_Some. intros [<-|[_ H]]; [lia|].
    apply H1 in H. lia.
  - intros m Hm'. rewrite lookup_insert_is_Some.
    destruct (decide (next_object s = m)); [auto | right; auto].
  - intros r Hr'. rewrite lookup_insert_is_Some.
    destruct (decide (next_object s = r)); [auto | right; auto].
Qed.

Lemma wf_loadModel_A (u : string) (s : State) : wf s -> wf (SceneA.loadModel u s).
Proof.
  intros H. unfold SceneA.loadModel.
  destruct (modelRef s) as [m|] eqn:E.
  - apply (wf_drop_model s); auto.
  - apply (wf_same_store s); [|exact H]. repeat split; auto.
Qed.

Lemma wf_loadModel_B (u : string) (s : State) : wf s -> wf (SceneB.loadModel u s).
Proof.
  intros H. unfold SceneB.loadModel, SceneB.reset_model, SceneB.start_load.
  destruct (modelRef s) as [m|] eqn:E; destruct (SceneB.invalid_url u); cbn.
  - apply (wf_drop_model s); auto.
  - apply (wf_drop_model s); auto.
  - rewrite E. apply (wf_same_store s); [|exact H]. repeat split; auto.
  - apply (wf_same_store s); [|exact H]. repeat split; auto.
Qed.

Lemma wf_onSelect_A (s : State) : wf s -> wf (SceneA.onSelect s).
Proof.
  intros H. unfold SceneA.onSelect.
  destruct (reticleRef s) as [r|]; [|exact H].
  destruct (objects s !! r) as [reticle|]; [|exact H].
  destruct (Three.visible reticle); [|exact H].
  destruct (modelRef s) as [m|] eqn:Em; [|exact H].
  destruct (objects s !! m) as [template|]; [|exact H].
  eapply (wf_place _ s); [reflexivity .. | exact H].
Qed.

Lemma wf_onSelect_B (s : State) : wf s -> wf (SceneB.onSelect s).
Proof.
  intros H. unfold SceneB.onSelect.
  destruct (reticleRef s) as [r|]; [|exact H].
  destruct (objects s !! r) as [reticle|]; [|exact H].
  destruct (Three.visible reticle); [|exact H].
  destruct (modelRef s) as [m|] eqn:Em; [|exact H].
  destruct (objects s !! m) as [template|]; [|exact H].
  eapply (wf_place _ s); [reflexivity .. | exact H].
Qed.

Lemma wf_render_A (frame : option XRFrame) (s : State) : wf s -> wf (SceneA.render frame s).
Proof.
  intros H. unfold SceneA.render. destruct frame as [f|].
  - destruct (referenceSpace f && session f); [|exact H].
    assert (H' : wf (if hitTestSourceRequiredRef s
                     then set_hitTestSourceRequiredRef false s else s)).
    { destruct (hitTestSourceRequiredRef s); [|exact H].
      apply (wf_same_store s); [repeat split | exact H]. }
    destruct (hitTestSourceRef _); [|exact H'].
    destruct (hitTestResults f) as [[|[pose|] ?]|]; try exact H'.
    destruct (reticleRef _); [|exact H']. apply wf_update_object, H'.
  - destruct (modelRef s); [|exact H].
    destruct (not_supported s); [|exact H]. apply wf_update_object, H.
Qed.

Lemma wf_render_B (frame : option XRFrame) (s : State) : wf s -> wf (SceneB.render frame s).
Proof.
  intros H. unfold SceneB.render, SceneB.update_reticle. destruct frame as [f|].
  - destruct (referenceSpace f && session f); [|exact H].
    assert (H' : wf (if hitTestSourceRequiredRef s
                     then set_hitTestSourceRequiredRef false s else s)).
    { destruct (hitTestSourceRequiredRef s); [|exact H].
      apply (wf_same_store s); [repeat split | exact H]. }
    destruct (hitTestSourceRef _); [|exact H'].
    destruct (hitTestResults f) as [[|[pose|] ?]|]; try exact H';
      (destruct (reticleRef _); [|exact H']); apply wf_update_object, H'.
  - destruct (modelRef s); [|exact H].
    destruct (not_supported s); [|exact H]. apply wf_update_object, H.
Qed.

(** Every event of the first revision keeps the store well formed. *)
Lemma wf_step_A (e : Event) (s s' : State) : SceneA.step e s = Some s' -> wf s -> wf s'.
Proof.
  intros Hstep H. destruct e; cbn in Hstep.
  - injection Hstep as <-. apply wf_loadModel_A, H.
  - destruct (0 <=? dt)%Z; [|discriminate]. injection Hstep as <-.
    apply (wf_same_store s); [repeat split | exact H].
  - destruct (loads s !! i) as [l|]; [|discriminate].
    destruct (timeoutId l) as [d| |]; try discriminate.
    destruct (d <=? clock s)%Z; [|discriminate]. injection Hstep as <-.
    unfold SceneA.on_timeout.
    assert (H' : wf (set_modelLoadError
                       (Some "Model loading timed out. Please try again.")
                       (timer_fired i l s)))
      by (apply (wf_same_store s); [repeat split | exact H]).
    destruct (String.eqb _ _); [exact H' | apply wf_loadModel_A, H'].
  - destruct (loads s !! i) as [l|]; [|discriminate].
    destruct (reported l); [discriminate|]. injection Hstep as <-.
    unfold SceneA.on_load. eapply (wf_install _ s); [reflexivity .. | exact H].
  - destruct (loads s !! i) as [l|]; [|discriminate].
    destruct (reported l); [discriminate|].
    destruct (on_progress_inv _ _ _ _ _ Hstep) as [ -> | [percent ->] ]; [exact H|].
    apply (wf_same_store s); [repeat split | exact H].
  - destruct (loads s !! i) as [l|]; [|discriminate].
    destruct (reported l); [discriminate|]. injection Hstep as <-.
    unfold SceneA.on_error.
    assert (H' : wf (set_modelLoadError
                       (Some ("Failed to load 3D model: " ++ message)%string)
                       (loader_reported i l s)))
      by (apply (wf_same_store s); [repeat split | exact H]).
    destruct (String.eqb _ _); [exact H' | apply wf_loadModel_A, H'].
  - injection Hstep as <-. apply wf_onSelect_A, H.
  - injection Hstep as <-. apply wf_render_A, H.
  - destruct (bool_decide _); [|discriminate]. injection Hstep as <-.
    apply wf_update_object, H.
  - injection Hstep as <-. apply (wf_same_store s); [repeat split | exact H].
  - injection Hstep as <-. apply (wf_same_store s); [repeat split | exact H].
  - injection Hstep as <-. apply (wf_same_store s); [repeat split | exact H].
Qed.

(** Every event of the second revision keeps the store well formed. *)
Lemma wf_step_B (e : Event) (s s' : State) : SceneB.step e s = Some s' -> wf s -> wf s'.
Proof.
  intros Hstep H. destruct e; cbn in Hstep.
  - injection Hstep as <-. apply wf_loadModel_B, H.
  - destruct (0 <=? dt)%Z; [|discriminate]. injection Hstep as <-.
    apply (wf_same_store s); [repeat split | exact H].
  - destruct (loads s !! i) as [l|]; [|discriminate].
    destruct (timeoutId l) as [d| |]; try discriminate.
    destruct (d <=? clock s)%Z; [|discriminate]. injection Hstep as <-.
    unfold SceneB.on_timeout.
    assert (H' : wf (set_modelLoadError
                       (Some "Model loading timed out. Please try again.")
                       (timer_fired i l s)))
      by (apply (wf_same_store s); [repeat split | exact H]).
    destruct (String.eqb _ _); [exact H' | apply wf_loadModel_B, H'].
  - destruct (loads s !! i) as [l|]; [|discriminate].
    destruct (reported l); [discriminate|]. injection Hstep as <-.
    unfold SceneB.on_load. eapply (wf_install _ s); [reflexivity .. | exact H].
  - destruct (loads s !! i) as [l|]; [|discriminate].
    destruct (reported l); [discriminate|].
    destruct (on_progress_inv _ _ _ _ _ Hstep) as [ -> | [percent ->] ]; [exact H|].
    apply (wf_same_store s); [repeat split | exact H].
  - destruct (loads s !! i) as [l|]; [|discriminate].
    destruct (reported l); [discriminate|]. injection Hstep as <-.
    unfold SceneB.on_error.
    assert (H' : wf (set_modelLoadError
                       (Some ("Failed to load 3D model: " ++ message)%string)
                       (loader_reported i l s)))
      by (apply (wf_same_store s); [repeat split | exact H]).
    destruct (String.eqb _ _); [exact H' | apply wf_loadModel_B, H'].
  - injection Hstep as <-. apply wf_onSelect_B, H.
  - injection Hstep as <-. apply wf_render_B, H.
  - discriminate.
  - injection Hstep as <-. unfold SceneB.on_sessionstart. cbn [modelRef set_hitTestSourceRequiredRef set_sessionRef].
    assert (H' : wf (set_hitTestSourceRequiredRef true (set_sessionRef true s)))
      by (apply (wf_same_store s); [repeat split | exact H]).
    destruct (modelRef s); [apply wf_update_object, H' | exact H'].
  - injection Hstep as <-. apply (wf_same_store s); [repeat split | exact H].
  - injection Hstep as <-. apply (wf_same_store s); [repeat split | exact H].
Qed.

Lemma wf_run (step : Event -> State -> option State) (events : list Event) :
  (forall e s s', step e s = Some s' -> wf s -> wf s') ->
  forall s s', run step events s = Some s' -> wf s -> wf s'.
Proof.
  intros Hstep. induction events as [|e events IH]; intros s s' Hrun H; simpl in Hrun.
  - injection Hrun as <-. exact H.
  - destruct (step e s) as [s1|] eqn:E; [|discriminate].
    exact (IH _ _ Hrun (Hstep _ _ _ E H)).
Qed.

End Store.

(** ** Placement *)

Section Placement.

(** C9.  When the reticle is not visible, or no model is loaded,
    [onSelect] returns the state it was given, in both revisions: no
    object is created, the scene and the list of placed objects are left
    alone, and nothing is thrown. *)
Theorem C9_place_without_reticle_or_model_is_noop (s : State) :
  reticle_visible s = false \/ modelRef s = None ->
  SceneA.onSelect s = s /\ SceneB.onSelect s = s.
Proof.
  unfold reticle_visible, SceneA.onSelect, SceneB.onSelect.
  intros [H|H].
  - destruct (reticleRef s) as [r|]; [|auto].
    destruct (objects s !! r) as [reticle|]; [|auto].
    rewrite H. auto.
  - rewrite H. destruct (reticleRef s) as [r|]; [|auto].
    destruct (objects s !! r) as [reticle|]; [|auto].
    destruct (Three.visible reticle); auto.
Qed.

Lemma C9_place_without_reticle_or_model_is_noop_witness :
  reticle_visible searching_state = false /\
  SceneA.onSelect searching_state = searching_state /\
  SceneB.onSelect searching_state = searching_state.
Proof.
  split; [reflexivity|].
  apply (C9_place_without_reticle_or_model_is_noop searching_state).
  left. reflexivity.
Defined.

(** What one placement of the second revision does to the state. *)
Lemma place_step (s : State) (r m : nat) (reticle template : Three.Object3D) :
  wf s ->
  reticleRef s = Some r -> objects s !! r = Some reticle ->
  Three.visible reticle = true ->
  modelRef s = Some m -> objects s !! m = Some template ->
  let placed :=
    Three.set_visible true
      (Three.set_position (Three.setFromMatrixPosition (Three.matrix reticle)) template) in
  let s1 := SceneB.onSelect s in
  wf s1 /\ next_object s1 = S (next_object s) /\
  objects s1 = <[next_object s := placed]> (objects s) /\
  placedObjects s1 = (placedObjects s ++ [next_object s])%list /\
  reticleRef s1 = Some r /\ modelRef s1 = Some m /\
  objects s1 !! r = Some reticle /\ objects s1 !! m = Some template /\
  objects s !! next_object s = None /\ (m < next_object s)%nat.
Proof.
  intros Hwf Hr Hro Hv Hm Hmo placed s1.
  assert (Hwf1 : wf s1) by (apply wf_onSelect_B, Hwf).
  destruct Hwf as (Hdom & _ & _).
  assert (Hrn : (r < next_object s)%nat) by (apply Hdom; rewrite Hro; eauto).
  assert (Hmn : (m < next_object s)%nat) by (apply Hdom; rewrite Hmo; eauto).
  assert (Hfresh : objects s !! next_object s = None).
  { destruct (objects s !! next_object s) eqn:E; [|reflexivity].
    assert ((next_object s < next_object s)%nat) by (apply Hdom; rewrite E; eauto). lia. }
  split; [exact Hwf1|]. clear Hwf1. subst s1.
  unfold SceneB.onSelect. rewrite Hr, Hro, Hv, Hm, Hmo. cbn.
  fold placed. rewrite Hr, Hm.
  repeat split; auto; rewrite lookup_insert_ne by lia; assumption.
Qed.

(** C6 (amended).  With the reticle visible and a model loaded, each
    [onSelect] creates one new object and appends it to the placed
    objects: a copy of the template whose position is the translation of
    the reticle's matrix (entries 12 to 14), whose rotation and scale are
    the template's, and which is visible (the first revision also
    enlarges the copy by 1.2 to start the pulse).  After three calls the
    placed objects are extended by three distinct new objects, in order,
    the template is unchanged, and moving one placed object changes
    neither another object nor the template. *)
Theorem C6_place_appends_independent_copy (s : State) (r m : nat)
    (reticle template : Three.Object3D) :
  wf s ->
  reticleRef s = Some r -> objects s !! r = Some reticle ->
  Three.visible reticle = true ->
  modelRef s = Some m -> objects s !! m = Some template ->
  let n := next_object s in
  let placed :=
    Three.set_visible true
      (Three.set_position (Three.setFromMatrixPosition (Three.matrix reticle)) template) in
  let s1 := SceneB.onSelect s in
  let s3 := SceneB.onSelect (SceneB.onSelect s1) in
  (placedObjects s1 = (placedObjects s ++ [n])%list /\
   objects s !! n = None /\ objects s1 !! n = Some placed /\
   Three.position placed = Three.setFromMatrixPosition (Three.matrix reticle) /\
   Three.visible placed = true /\
   Three.rotation placed = Three.rotation template /\
   Three.scale placed = Three.scale template /\
   Three.children placed = Three.children template) /\
  (placedObjects (SceneA.onSelect s) = (placedObjects s ++ [n])%list /\
   objects (SceneA.onSelect s) !! n
   = Some (Three.set_scale (Three.scaled (6 # 5) (Three.scale template)) placed)) /\
  (placedObjects s3 = (placedObjects s ++ [n; S n; S (S n)])%list /\
   objects s3 !! n = Some placed /\ objects s3 !! S n = Some placed /\
   objects s3 !! S (S n) = Some placed /\
   objects s3 !! m = Some template /\ (m < n)%nat) /\
  (forall id v k, (id = n \/ id = S n \/ id = S (S n)) -> k <> id ->
                  objects (move_object id v s3) !! k = objects s3 !! k) /\
  (forall id v, (id = n \/ id = S n \/ id = S (S n)) ->
                objects (move_object id v s3) !! id = Some (Three.set_position v placed)).
Proof.
  intros Hwf Hr Hro Hv Hm Hmo n placed s1 s3.
  destruct (place_step s r m reticle template Hwf Hr Hro Hv Hm Hmo)
    as (Hwf1 & Hn1 & Ho1 & Hp1 & Hr1 & Hm1 & Hro1 & Hmo1 & Hfresh & Hmn).
  fold s1 in Hwf1, Hn1, Ho1, Hp1, Hr1, Hm1, Hro1, Hmo1. fold placed in Ho1. fold n in Hn1, Ho1, Hp1.
  destruct (place_step s1 r m reticle template Hwf1 Hr1 Hro1 Hv Hm1 Hmo1)
    as (Hwf2 & Hn2 & Ho2 & Hp2 & Hr2 & Hm2 & Hro2 & Hmo2 & _ & _).
  fold placed in Ho2. rewrite Hn1 in Hn2, Ho2, Hp2.
  destruct (place_step _ r m reticle template Hwf2 Hr2 Hro2 Hv Hm2 Hmo2)
    as (_ & _ & Ho3 & Hp3 & _ & _ & _ & Hmo3 & _ & _).
  fold placed in Ho3. fold s3 in Ho3, Hp3, Hmo3. rewrite Hn2 in Ho3, Hp3.
  assert (H3n : objects s3 !! n = Some placed).
  { rewrite Ho3, lookup_insert_ne by lia. rewrite Ho2, lookup_insert_ne by lia.
    rewrite Ho1. apply lookup_insert_eq. }
  assert (H3n1 : objects s3 !! S n = Some placed).
  { rewrite Ho3, lookup_insert_ne by lia. rewrite Ho2. apply lookup_insert_eq. }
  assert (H3n2 : objects s3 !! S (S n) = Some placed).
  { rewrite Ho3. apply lookup_insert_eq. }
  split; [|split; [|split; [|split]]].
  - repeat split; auto. rewrite Ho1. apply lookup_insert_eq.
  - unfold SceneA.onSelect. rewrite Hr, Hro, Hv, Hm, Hmo. cbn.
    split; [reflexivity | apply lookup_insert_eq].
  - repeat split; auto.
    rewrite Hp3, Hp2, Hp1, <- !app_assoc. reflexivity.
  - intros id v k _ Hk. unfold move_object, update_object; cbn.
    apply lookup_alter_ne. auto.
  - intros id v Hid. unfold move_object, update_object; cbn.
    rewrite lookup_alter_eq.
    destruct Hid as [ -> | [ -> | -> ] ]; [rewrite H3n | rewrite H3n1 | rewrite H3n2]; reflexivity.
Qed.

End Placement.

Section PlacementExamples.

Lemma tracking_state_run (pose : list Q) :
  run SceneB.step (tracking_events pose) (init (Some true)) = Some (tracking_state pose).
Proof. vm_compute. reflexivity. Qed.

Lemma wf_tracking_state (pose : list Q) : wf (tracking_state pose).
Proof.
  exact (wf_run SceneB.step (tracking_events pose) wf_step_B _ _
           (tracking_state_run pose) (wf_init (Some true))).
Qed.

Lemma C6_place_appends_independent_copy_witness :
  wf (tracking_state level_pose) /\
  reticleRef (tracking_state level_pose) = Some 0%nat /\
  modelRef (tracking_state level_pose) = Some 1%nat /\
  placedObjects
    (SceneB.onSelect (SceneB.onSelect (SceneB.onSelect (tracking_state level_pose))))
  = [2; 3; 4]%nat.
Proof.
  split; [apply wf_tracking_state|]. split; [reflexivity|]. split; [reflexivity|].
  destruct (C6_place_appends_independent_copy (tracking_state level_pose) 0 1
              (Three.set_matrix (Three.fromArray level_pose)
                 (Three.set_visible true Three.new_reticle))
              (Three.set_visible false
                 (Three.set_position (Three.mkVector3 0 0 (-2))
                    (Three.set_position
                       (Three.sub (Three.mkVector3 0 0 0) (Three.mkVector3 0 0 0))
                       (Three.set_scale (Three.mkVector3 (5 # 100) (5 # 100) (5 # 100))
                          sample_gltf)))))
    as (_ & _ & (H & _) & _).
  - apply wf_tracking_state.
  - reflexivity.
  - reflexivity.
  - reflexivity.
  - reflexivity.
  - reflexivity.
  - exact H.
Defined.

(** C6, as stated, fails: the placed copy does not take the reticle's
    pose.  Two reticle poses at the same place, one level and one turned a
    quarter, give the same placed object; so whatever is read as the pose
    of an object, it cannot be the reticle's pose in both cases. *)
Lemma C6_counterexample :
  ~ exists pose_of : Three.Object3D -> Three.Matrix4,
      forall (s : State) (r m : nat) (reticle template : Three.Object3D),
        wf s ->
        reticleRef s = Some r -> objects s !! r = Some reticle ->
        Three.visible reticle = true ->
        modelRef s = Some m -> objects s !! m = Some template ->
        exists placed,
          objects (SceneB.onSelect s) !! next_object s = Some placed /\
          pose_of placed = Three.matrix reticle.
Proof.
  intros [pose_of H].
  destruct (H (tracking_state level_pose) 0%nat 1%nat _ _
              (wf_tracking_state level_pose) eq_refl eq_refl eq_refl eq_refl eq_refl)
    as (p1 & Hp1 & Hm1).
  destruct (H (tracking_state turned_pose) 0%nat 1%nat _ _
              (wf_tracking_state turned_pose) eq_refl eq_refl eq_refl eq_refl eq_refl)
    as (p2 & Hp2 & Hm2).
  vm_compute in Hp1, Hp2. rewrite Hp1 in Hp2. injection Hp2 as <-.
  rewrite Hm1 in Hm2. vm_compute in Hm2. discriminate.
Qed.

End PlacementExamples.

(** ** The reticle *)

Section Reticle.

(** C5 (amended).  Second revision, on a tracked frame whose reference
    space and session are there, once the hit-test source has arrived: if
    the first result has a pose, the reticle is made visible and its
    matrix is overwritten with the sixteen entries of that pose's matrix;
    if the first result has no pose, the reticle is left as it was; if
    there is no result, the reticle is hidden. *)
Theorem C5_reticle_follows_first_pose (s : State) (f : XRFrame) (r : nat)
    (reticle : Three.Object3D) (results : list (option (list Q))) :
  referenceSpace f = true -> session f = true ->
  hitTestSourceRef s = true ->
  reticleRef s = Some r -> objects s !! r = Some reticle ->
  hitTestResults f = Ok results ->
  let s' := SceneB.render (Some f) s in
  match results with
  | Some pose :: _ =>
      objects s' !! r
      = Some (Three.set_matrix (Three.fromArray pose) (Three.set_visible true reticle)) /\
      (length pose = 16%nat -> Three.fromArray pose = pose)
  | None :: _ => objects s' !! r = Some reticle
  | [] => objects s' !! r = Some (Three.set_visible false reticle)
  end.
Proof.
  intros Hrs Hse Hsrc Hr Hro Hres s'. subst s'.
  unfold SceneB.render, SceneB.update_reticle. rewrite Hrs, Hse. cbn [andb].
  assert (Hsame : forall t : State,
             t = (if hitTestSourceRequiredRef s
                  then set_hitTestSourceRequiredRef false s else s) ->
             hitTestSourceRef t = true /\ reticleRef t = Some r /\
             objects t = objects s).
  { intros t ->. destruct (hitTestSourceRequiredRef s); cbn; auto. }
  destruct (Hsame _ eq_refl) as (Hsrc' & Hr' & Ho'). rewrite Hsrc', Hres.
  destruct results as [|[pose|] rest]; rewrite ?Hr'; unfold update_object; cbn.
  - rewrite Ho', lookup_alter_eq, Hro. reflexivity.
  - rewrite Ho', lookup_alter_eq, Hro. split; [reflexivity|].
    intros Hlen. unfold Three.fromArray. apply take_ge. lia.
  - rewrite Ho'. exact Hro.
Qed.

Lemma C5_reticle_follows_first_pose_witness :
  objects (SceneB.render (Some (tracked_frame [Some level_pose])) searching_state) !! 0%nat
  = Some (Three.set_matrix (Three.fromArray level_pose)
            (Three.set_visible true Three.new_reticle)) /\
  (length level_pose = 16%nat -> Three.fromArray level_pose = level_pose).
Proof.
  apply (C5_reticle_follows_first_pose searching_state
           (tracked_frame [Some level_pose]) 0 Three.new_reticle [Some level_pose]);
    reflexivity.
Defined.

(** C5, as stated, fails: a frame with one hit-test result whose
    [getPose] gives [null] leaves the hidden reticle hidden, although a
    result exists. *)
Lemma C5_counterexample :
  let f := tracked_frame [None] in
  let s' := SceneB.render (Some f) searching_state in
  hitTestSourceRef searching_state = true /\
  hitTestResults f = Ok [None] /\
  reticleRef s' = Some 0%nat /\
  Three.visible <$> (objects s' !! 0%nat) = Some false.
Proof. vm_compute. repeat split. Qed.

(** The first revision has no branch for a frame without results: a
    visible reticle stays visible. *)
Example first_revision_keeps_reticle :
  Three.visible
    <$> (objects (SceneA.render (Some (tracked_frame [])) (tracking_state level_pose))
           !! 0%nat)
  = Some true.
Proof. vm_compute. reflexivity. Qed.

End Reticle.


(** ** Loading *)

Section Retry.

Lemma lookup_last (l : list Load) (x : Load) : (l ++ [x]) !! length l = Some x.
Proof. apply list_lookup_middle. reflexivity. Qed.

Lemma insert_last (l : list Load) (x y : Load) :
  <[length l := y]> (l ++ [x]) = (l ++ [y])%list.
Proof. rewrite insert_app_r_alt by lia. rewrite Nat.sub_diag. reflexivity. Qed.

Lemma lookup_last2 (l : list Load) (x y : Load) :
  (l ++ [x; y]) !! S (length l) = Some y.
Proof.
  change (l ++ [x; y])%list with (l ++ [x] ++ [y])%list. rewrite app_assoc.
  replace (S (length l)) with (length (l ++ [x])) by (rewrite length_app; simpl; lia).
  apply lookup_last.
Qed.

Lemma insert_last2 (l : list Load) (x y z : Load) :
  <[S (length l) := z]> (l ++ [x; y]) = (l ++ [x; z])%list.
Proof.
  rewrite insert_app_r_alt by lia.
  replace (S (length l) - length l)%nat with 1%nat by lia. reflexivity.
Qed.

Lemma app_last2 (l : list Load) (x y : Load) : ((l ++ [x]) ++ [y] = l ++ [x; y])%list.
Proof. rewrite <- app_assoc. reflexivity. Qed.

Lemma view_loadModel_B (u : string) (s : State) :
  load_view (SceneB.loadModel u s)
  = ((loads s ++ [mkLoad (if SceneB.invalid_url u
                          then SceneB.fallbackModels_default else u)
                    (Pending (clock s + 30000)) false])%list,
     None, false, None, clock s).
Proof.
  unfold load_view, SceneB.loadModel, SceneB.reset_model, SceneB.start_load.
  destruct (SceneB.invalid_url u); destruct (modelRef s) as [m|] eqn:Em;
    cbn; rewrite ?Em; cbn; rewrite ?Em; reflexivity.
Qed.

Lemma view_loadModel_A (u : string) (s : State) :
  load_view (SceneA.loadModel u s)
  = ((loads s ++ [mkLoad u (Pending (clock s + 30000)) false])%list,
     None, false, None, clock s).
Proof.
  unfold load_view, SceneA.loadModel.
  destruct (modelRef s) as [m|] eqn:Em; cbn; rewrite ?Em; reflexivity.
Qed.

(** The error callback: a retry with the default URL, unless the failed
    load was the default one. *)
Lemma view_on_error_B (i : nat) (l : Load) (message : string) (s : State) :
  let loads' := <[i := mkLoad (url l) (clearTimeout (timeoutId l)) true]> (loads s) in
  load_view (SceneB.on_error i l message s)
  = if String.eqb (url l) SceneB.fallbackModels_default
    then (loads', modelRef s, modelLoaded s,
          Some ("Failed to load 3D model: " ++ message)%string, clock s)
    else ((loads' ++ [mkLoad SceneB.fallbackModels_default
                        (Pending (clock s + 30000)) false])%list,
          None, false, None, clock s).
Proof.
  intros loads'. unfold SceneB.on_error.
  destruct (String.eqb (url l) SceneB.fallbackModels_default); [reflexivity|].
  rewrite view_loadModel_B. reflexivity.
Qed.

Lemma view_on_error_A (i : nat) (l : Load) (message : string) (s : State) :
  let loads' := <[i := mkLoad (url l) (clearTimeout (timeoutId l)) true]> (loads s) in
  load_view (SceneA.on_error i l message s)
  = if String.eqb (url l) SceneA.fallbackModels_cube
    then (loads', modelRef s, modelLoaded s,
          Some ("Failed to load 3D model: " ++ message)%string, clock s)
    else ((loads' ++ [mkLoad SceneA.fallbackModels_cube
                        (Pending (clock s + 30000)) false])%list,
          None, false, None, clock s).
Proof.
  intros loads'. unfold SceneA.on_error.
  destruct (String.eqb (url l) SceneA.fallbackModels_cube); [reflexivity|].
  rewrite view_loadModel_A. reflexivity.
Qed.

(** The timer callback: likewise. *)
Lemma view_on_timeout_B (i : nat) (l : Load) (s : State) :
  let loads' := <[i := mkLoad (url l) Fired (reported l)]> (loads s) in
  load_view (SceneB.on_timeout i l s)
  = if String.eqb (url l) SceneB.fallbackModels_default
    then (loads', modelRef s, modelLoaded s,
          Some "Model loading timed out. Please try again.", clock s)
    else ((loads' ++ [mkLoad SceneB.fallbackModels_default
                        (Pending (clock s + 30000)) false])%list,
          None, false, None, clock s).
Proof.
  intros loads'. unfold SceneB.on_timeout.
  destruct (String.eqb (url l) SceneB.fallbackModels_default); [reflexivity|].
  rewrite view_loadModel_B. reflexivity.
Qed.

Lemma view_on_timeout_A (i : nat) (l : Load) (s : State) :
  let loads' := <[i := mkLoad (url l) Fired (reported l)]> (loads s) in
  load_view (SceneA.on_timeout i l s)
  = if String.eqb (url l) SceneA.fallbackModels_cube
    then (loads', modelRef s, modelLoaded s,
          Some "Model loading timed out. Please try again.", clock s)
    else ((loads' ++ [mkLoad SceneA.fallbackModels_cube
                        (Pending (clock s + 30000)) false])%list,
          None, false, None, clock s).
Proof.
  intros loads'. unfold SceneA.on_timeout.
  destruct (String.eqb (url l) SceneA.fallbackModels_cube); [reflexivity|].
  rewrite view_loadModel_A. reflexivity.
Qed.

Lemma view_inv (s : State) (ls : list Load) (m : option nat) (b : bool)
    (e : option string) (c : Z) :
  load_view s = (ls, m, b, e, c) ->
  loads s = ls /\ modelRef s = m /\ modelLoaded s = b /\ modelLoadError s = e /\
  clock s = c.
Proof. unfold load_view. intros [= -> -> -> -> ->]. auto. Qed.

End Retry.

Section Supersession.

Lemma in_flight_app (s : State) (l : Load) (s' : State) :
  loads s' = (loads s ++ [l])%list -> reported l = false ->
  in_flight s' = (in_flight s ++ [l])%list.
Proof.
  intros H Hl. unfold in_flight. rewrite H, List.filter_app. simpl.
  rewrite Hl. reflexivity.
Qed.

(** C2 (amended).  There is no generation token.  [loadModel] drops the
    installed model and adds a load with a fresh 30000 ms timer, while the
    loads already in flight stay in flight; and the success callback of
    any load that has not reported yet, whatever was started after it,
    installs its model: the model ref points to the new object, which is
    in the scene, and the loaded flag and the progress are set. *)
Theorem C2_every_success_installs_its_model (s : State) :
  (forall u,
      let v := if SceneB.invalid_url u then SceneB.fallbackModels_default else u in
      in_flight (SceneB.loadModel u s)
      = (in_flight s ++ [mkLoad v (Pending (clock s + 30000)) false])%list /\
      modelRef (SceneB.loadModel u s) = None) /\
  (forall u,
      in_flight (SceneA.loadModel u s)
      = (in_flight s ++ [mkLoad u (Pending (clock s + 30000)) false])%list /\
      modelRef (SceneA.loadModel u s) = None) /\
  (forall i l gltf_scene center,
      loads s !! i = Some l -> reported l = false ->
      exists s',
        SceneB.step (OnLoad i gltf_scene center) s = Some s' /\
        modelRef s' = Some (next_object s) /\
        is_Some (objects s' !! next_object s) /\
        next_object s ∈ scene s' /\
        modelLoaded s' = true /\ modelLoadProgress s' = 100%Z) /\
  (forall i l gltf_scene center,
      loads s !! i = Some l -> reported l = false ->
      exists s',
        SceneA.step (OnLoad i gltf_scene center) s = Some s' /\
        modelRef s' = Some (next_object s) /\
        is_Some (objects s' !! next_object s) /\
        next_object s ∈ scene s' /\
        modelLoaded s' = true /\ modelLoadProgress s' = 100%Z).
Proof.
  split; [|split; [|split]].
  - intros u v. subst v.
    destruct (view_inv _ _ _ _ _ _ (view_loadModel_B u s)) as (Hl & Hm & _).
    split; [exact (in_flight_app _ _ _ Hl eq_refl) | exact Hm].
  - intros u.
    destruct (view_inv _ _ _ _ _ _ (view_loadModel_A u s)) as (Hl & Hm & _).
    split; [exact (in_flight_app _ _ _ Hl eq_refl) | exact Hm].
  - intros i l g c Hl Hrep. cbn. rewrite Hl, Hrep. eexists. split; [reflexivity|].
    unfold SceneB.on_load; cbn. repeat split.
    + rewrite lookup_insert_eq. eauto.
    + apply elem_of_app. right. left.
  - intros i l g c Hl Hrep. cbn. rewrite Hl, Hrep. eexists. split; [reflexivity|].
    unfold SceneA.on_load; cbn. repeat split.
    + rewrite lookup_insert_eq. eauto.
    + apply elem_of_app. right. left.
Qed.

Lemma C2_every_success_installs_its_model_witness :
  exists s',
    SceneB.step (OnLoad 0 sample_gltf origin) (SceneB.loadModel Dragon_gltf (init None))
    = Some s' /\
    modelRef s' = Some 1%nat /\
    is_Some (objects s' !! 1%nat) /\
    1%nat ∈ scene s' /\
    modelLoaded s' = true /\ modelLoadProgress s' = 100%Z.
Proof.
  destruct (C2_every_success_installs_its_model
              (SceneB.loadModel Dragon_gltf (init None))) as (_ & _ & H & _).
  apply (H 0%nat (mkLoad Dragon_gltf (Pending 30000) false) sample_gltf origin);
    reflexivity.
Defined.

(** C2, as stated, fails.  The dragon load times out, which starts the
    load of the default model while the dragon load is still in flight:
    two loads are in flight.  The default model arrives and is installed;
    then the dragon model of the superseded load arrives and replaces it,
    and both models are in the scene. *)
Lemma C2_counterexample :
  let start := init (Some true) in
  let arrival_1 := OnLoad 1 sample_gltf origin in
  let arrival_0 := OnLoad 0 sample_gltf origin in
  (fun s => length (in_flight s)) <$> run SceneB.step slow_load_events start
  = Some 2%nat /\
  modelRef <$> run SceneB.step (slow_load_events ++ [arrival_1]) start
  = Some (Some 1%nat) /\
  (fun s => url <$> in_flight s)
    <$> run SceneB.step (slow_load_events ++ [arrival_1]) start
  = Some [Dragon_gltf] /\
  modelRef <$> run SceneB.step (slow_load_events ++ [arrival_1; arrival_0]) start
  = Some (Some 2%nat) /\
  scene <$> run SceneB.step (slow_load_events ++ [arrival_1; arrival_0]) start
  = Some [0; 1; 2]%nat.
Proof. vm_compute. repeat split. Qed.

End Supersession.

Section RetryScenarios.

Lemma run_app (step : Event -> State -> option State) (events1 events2 : list Event)
    (s s1 : State) :
  run step events1 s = Some s1 ->
  run step (events1 ++ events2) s = run step events2 s1.
Proof.
  revert s. induction events1 as [|e events1 IH]; intros s H; simpl in *.
  - injection H as <-. reflexivity.
  - destruct (step e s) as [s0|]; [|discriminate]. exact (IH s0 H).
Qed.

Lemma next_loadModel_B (u : string) (s : State) :
  next_object (SceneB.loadModel u s) = next_object s.
Proof.
  unfold SceneB.loadModel, SceneB.reset_model, SceneB.start_load.
  destruct (SceneB.invalid_url u); destruct (modelRef s) as [m|] eqn:Em;
    cbn; rewrite ?Em; reflexivity.
Qed.

Lemma next_loadModel_A (u : string) (s : State) :
  next_object (SceneA.loadModel u s) = next_object s.
Proof. unfold SceneA.loadModel. destruct (modelRef s); reflexivity. Qed.

(** A load that has not reported, started [LOAD_TIMEOUT] ms before its
    timer is due, ends without a model: the record of the load, the message
    and, unless the load was the default one, the retry. *)
Lemma fail_view_B (f : Failure) (i : nat) (u : string) (s : State) :
  loads s !! i = Some (mkLoad u (Pending (clock s + 30000)) false) ->
  exists s',
    run SceneB.step (failure_events i f) s = Some s' /\
    next_object s' = next_object s /\
    load_view s'
    = (let loads' := <[i := failed_load u f]> (loads s) in
       let c := (clock s + failure_time f)%Z in
       if String.eqb u SceneB.fallbackModels_default
       then (loads', modelRef s, modelLoaded s, Some (failure_message f), c)
       else (loads' ++ [mkLoad SceneB.fallbackModels_default (Pending (c + 30000)) false],
             None, false, None, c)).
Proof.
  intros Hl. destruct f as [message|]; cbn [failure_events run SceneB.step].
  - rewrite Hl. cbn [reported]. eexists. split; [reflexivity|]. split.
    + unfold SceneB.on_error. destruct (String.eqb _ _); [reflexivity|].
      rewrite next_loadModel_B. reflexivity.
    + rewrite view_on_error_B.
      cbn [url timeoutId clearTimeout failed_load failure_time failure_message].
      rewrite Z.add_0_r. reflexivity.
  - change (0 <=? LOAD_TIMEOUT)%Z with true. cbn iota.
    set (s1 := set_clock (clock s + LOAD_TIMEOUT) s).
    change (loads s1) with (loads s). rewrite Hl. cbn [timeoutId].
    change (clock s1) with (clock s + 30000)%Z. rewrite Z.leb_refl.
    eexists. split; [reflexivity|]. split.
    + unfold SceneB.on_timeout. destruct (String.eqb _ _); [reflexivity|].
      rewrite next_loadModel_B. reflexivity.
    + rewrite view_on_timeout_B. reflexivity.
Qed.

Lemma fail_view_A (f : Failure) (i : nat) (u : string) (s : State) :
  loads s !! i = Some (mkLoad u (Pending (clock s + 30000)) false) ->
  exists s',
    run SceneA.step (failure_events i f) s = Some s' /\
    next_object s' = next_object s /\
    load_view s'
    = (let loads' := <[i := failed_load u f]> (loads s) in
       let c := (clock s + failure_time f)%Z in
       if String.eqb u SceneA.fallbackModels_cube
       then (loads', modelRef s, modelLoaded s, Some (failure_message f), c)
       else (loads' ++ [mkLoad SceneA.fallbackModels_cube (Pending (c + 30000)) false],
             None, false, None, c)).
Proof.
  intros Hl. destruct f as [message|]; cbn [failure_events run SceneA.step].
  - rewrite Hl. cbn [reported]. eexists. split; [reflexivity|]. split.
    + unfold SceneA.on_error. destruct (String.eqb _ _); [reflexivity|].
      rewrite next_loadModel_A. reflexivity.
    + rewrite view_on_error_A.
      cbn [url timeoutId clearTimeout failed_load failure_time failure_message].
      rewrite Z.add_0_r. reflexivity.
  - change (0 <=? LOAD_TIMEOUT)%Z with true. cbn iota.
    set (s1 := set_clock (clock s + LOAD_TIMEOUT) s).
    change (loads s1) with (loads s). rewrite Hl. cbn [timeoutId].
    change (clock s1) with (clock s + 30000)%Z. rewrite Z.leb_refl.
    eexists. split; [reflexivity|]. split.
    + unfold SceneA.on_timeout. destruct (String.eqb _ _); [reflexivity|].
      rewrite next_loadModel_A. reflexivity.
    + rewrite view_on_timeout_A. reflexivity.
Qed.

(** The success callback of the last load, seen through [load_view]. *)
Lemma view_on_load_B (ls : list Load) (x y : Load) (g : Three.Object3D)
    (c : Three.Vector3) (s : State) :
  loads s = ls ++ [x; y] -> reported y = false -> timeoutId y = Pending (clock s + 30000) ->
  exists s',
    SceneB.step (OnLoad (S (length ls)) g c) s = Some s' /\
    load_view s'
    = (ls ++ [x; mkLoad (url y) Cleared true], Some (next_object s), true,
       modelLoadError s, clock s).
Proof.
  intros Hl Hr Ht. cbn [SceneB.step]. rewrite Hl, lookup_last2, Hr.
  eexists. split; [reflexivity|].
  unfold load_view, SceneB.on_load, loader_reported. cbn.
  rewrite Hl, Ht, insert_last2. reflexivity.
Qed.

Lemma view_on_load_A (ls : list Load) (x y : Load) (g : Three.Object3D)
    (c : Three.Vector3) (s : State) :
  loads s = ls ++ [x; y] -> reported y = false -> timeoutId y = Pending (clock s + 30000) ->
  exists s',
    SceneA.step (OnLoad (S (length ls)) g c) s = Some s' /\
    load_view s'
    = (ls ++ [x; mkLoad (url y) Cleared true], Some (next_object s), true,
       modelLoadError s, clock s).
Proof.
  intros Hl Hr Ht. cbn [SceneA.step]. rewrite Hl, lookup_last2, Hr.
  eexists. split; [reflexivity|].
  unfold load_view, SceneA.on_load, loader_reported. cbn.
  rewrite Hl, Ht, insert_last2. reflexivity.
Qed.

(** The runs of the claim, for the second revision. *)
Lemma retry_runs_B (s : State) (u : string) (f1 f2 : Failure) :
  SceneB.invalid_url u = false ->
  String.eqb u SceneB.fallbackModels_default = false ->
  let n := length (loads s) in
  let d := SceneB.fallbackModels_default in
  (exists s',
      run SceneB.step (LoadModel u :: failure_events n f1 ++ failure_events (S n) f2) s
      = Some s' /\
      load_view s'
      = (loads s ++ [failed_load u f1; failed_load d f2], None, false,
         Some (failure_message f2), (clock s + failure_time f1 + failure_time f2)%Z)) /\
  (forall gltf_scene center,
      exists s',
        run SceneB.step
          (LoadModel u :: failure_events n f1 ++ [OnLoad (S n) gltf_scene center]) s
        = Some s' /\
        load_view s'
        = (loads s ++ [failed_load u f1; mkLoad d Cleared true], Some (next_object s),
           true, None, (clock s + failure_time f1)%Z)) /\
  (exists s',
      run SceneB.step (LoadModel d :: failure_events n f1) s = Some s' /\
      load_view s'
      = (loads s ++ [failed_load d f1], None, false, Some (failure_message f1),
         (clock s + failure_time f1)%Z)).
Proof.
  intros Hv Hne n d. subst n d.
  pose proof (view_loadModel_B u s) as V1. rewrite Hv in V1.
  destruct (view_inv _ _ _ _ _ _ V1) as (Hl1 & Hm1 & Hb1 & He1 & Hc1).
  pose proof (next_loadModel_B u s) as Hn1.
  set (s1 := SceneB.loadModel u s) in *.
  destruct (fail_view_B f1 (length (loads s)) u s1) as (s2 & Hrun2 & Hn2 & V2).
  { rewrite Hl1, Hc1. apply lookup_last. }
  cbv zeta in V2. rewrite Hne, Hl1, Hc1, insert_last, app_last2 in V2.
  destruct (view_inv _ _ _ _ _ _ V2) as (Hl2 & Hm2 & Hb2 & He2 & Hc2).
  split; [|split].
  - destruct (fail_view_B f2 (S (length (loads s))) SceneB.fallbackModels_default s2) as (s3 & Hrun3 & _ & V3).
    { rewrite Hl2, Hc2. apply lookup_last2. }
    cbv zeta in V3. rewrite String.eqb_refl, Hl2, Hm2, Hb2, Hc2, insert_last2 in V3.
    exists s3. split; [|exact V3].
    cbn [run SceneB.step]. fold s1. rewrite (run_app _ _ _ _ _ Hrun2). exact Hrun3.
  - intros g c.
    destruct (view_on_load_B (loads s) (failed_load u f1)
                (mkLoad SceneB.fallbackModels_default (Pending (clock s + failure_time f1 + 30000)) false) g c s2)
      as (s3 & Hstep3 & V3); [exact Hl2 | reflexivity | cbn; rewrite Hc2; reflexivity |].
    cbn [url] in V3. rewrite Hn2, Hn1, He2, Hc2 in V3.
    exists s3. split; [|exact V3].
    cbn [run SceneB.step]. fold s1. rewrite (run_app _ _ _ _ _ Hrun2).
    cbn [run]. rewrite Hstep3. reflexivity.
  - pose proof (view_loadModel_B SceneB.fallbackModels_default s) as W1.
    change (SceneB.invalid_url SceneB.fallbackModels_default) with false in W1. cbn iota in W1.
    destruct (view_inv _ _ _ _ _ _ W1) as (Kl1 & Km1 & Kb1 & Ke1 & Kc1).
    set (t1 := SceneB.loadModel SceneB.fallbackModels_default s) in *.
    destruct (fail_view_B f1 (length (loads s)) SceneB.fallbackModels_default t1) as (t2 & Krun2 & _ & W2).
    { rewrite Kl1, Kc1. apply lookup_last. }
    cbv zeta in W2. rewrite String.eqb_refl, Kl1, Km1, Kb1, Kc1, insert_last in W2.
    exists t2. split; [|exact W2].
    cbn [run SceneB.step]. fold t1. exact Krun2.
Qed.

(** The runs of the claim, for the first revision. *)
Lemma retry_runs_A (s : State) (u : string) (f1 f2 : Failure) :
  String.eqb u SceneA.fallbackModels_cube = false ->
  let n := length (loads s) in
  let d := SceneA.fallbackModels_cube in
  (exists s',
      run SceneA.step (LoadModel u :: failure_events n f1 ++ failure_events (S n) f2) s
      = Some s' /\
      load_view s'
      = (loads s ++ [failed_load u f1; failed_load d f2], None, false,
         Some (failure_message f2), (clock s + failure_time f1 + failure_time f2)%Z)) /\
  (forall gltf_scene center,
      exists s',
        run SceneA.step
          (LoadModel u :: failure_events n f1 ++ [OnLoad (S n) gltf_scene center]) s
        = Some s' /\
        load_view s'
        = (loads s ++ [failed_load u f1; mkLoad d Cleared true], Some (next_object s),
           true, None, (clock s + failure_time f1)%Z)) /\
  (exists s',
      run SceneA.step (LoadModel d :: failure_events n f1) s = Some s' /\
      load_view s'
      = (loads s ++ [failed_load d f1], None, false, Some (failure_message f1),
         (clock s + failure_time f1)%Z)).
Proof.
  intros Hne n d. subst n d.
  pose proof (view_loadModel_A u s) as V1.
  destruct (view_inv _ _ _ _ _ _ V1) as (Hl1 & Hm1 & Hb1 & He1 & Hc1).
  pose proof (next_loadModel_A u s) as Hn1.
  set (s1 := SceneA.loadModel u s) in *.
  destruct (fail_view_A f1 (length (loads s)) u s1) as (s2 & Hrun2 & Hn2 & V2).
  { rewrite Hl1, Hc1. apply lookup_last. }
  cbv zeta in V2. rewrite Hne, Hl1, Hc1, insert_last, app_last2 in V2.
  destruct (view_inv _ _ _ _ _ _ V2) as (Hl2 & Hm2 & Hb2 & He2 & Hc2).
  split; [|split].
  - destruct (fail_view_A f2 (S (length (loads s))) SceneA.fallbackModels_cube s2) as (s3 & Hrun3 & _ & V3).
    { rewrite Hl2, Hc2. apply lookup_last2. }
    cbv zeta in V3. rewrite String.eqb_refl, Hl2, Hm2, Hb2, Hc2, insert_last2 in V3.
    exists s3. split; [|exact V3].
    cbn [run SceneA.step]. fold s1. rewrite (run_app _ _ _ _ _ Hrun2). exact Hrun3.
  - intros g c.
    destruct (view_on_load_A (loads s) (failed_load u f1)
                (mkLoad SceneA.fallbackModels_cube (Pending (clock s + failure_time f1 + 30000)) false) g c s2)
      as (s3 & Hstep3 & V3); [exact Hl2 | reflexivity | cbn; rewrite Hc2; reflexivity |].
    cbn [url] in V3. rewrite Hn2, Hn1, He2, Hc2 in V3.
    exists s3. split; [|exact V3].
    cbn [run SceneA.step]. fold s1. rewrite (run_app _ _ _ _ _ Hrun2).
    cbn [run]. rewrite Hstep3. reflexivity.
  - pose proof (view_loadModel_A SceneA.fallbackModels_cube s) as W1.
    destruct (view_inv _ _ _ _ _ _ W1) as (Kl1 & Km1 & Kb1 & Ke1 & Kc1).
    set (t1 := SceneA.loadModel SceneA.fallbackModels_cube s) in *.
    destruct (fail_view_A f1 (length (loads s)) SceneA.fallbackModels_cube t1) as (t2 & Krun2 & _ & W2).
    { rewrite Kl1, Kc1. apply lookup_last. }
    cbv zeta in W2. rewrite String.eqb_refl, Kl1, Km1, Kb1, Kc1, insert_last in W2.
    exists t2. split; [|exact W2].
    cbn [run SceneA.step]. fold t1. exact Krun2.
Qed.

(** C4 (amended).  For a load of a valid URL other than the default one,
    in either revision, in a run where each load ends once (its loader
    reports a failure, or its 30000 ms timer expires) and no other load
    reports in between: the failure or the expiry of the load starts one
    load of the default URL, whichever of the two it was; if that load
    fails or times out too, no further load is started, the message of that
    last failure is set and no model is installed; if it succeeds, its
    model is installed and the message is cleared.  A load of the default
    URL itself that fails or times out is not retried. *)
Theorem C4_failed_load_retries_default_once (s : State) (u : string) (f1 f2 : Failure)
    (step : Event -> State -> option State) :
  step = SceneA.step \/ step = SceneB.step ->
  SceneB.invalid_url u = false ->
  u <> SceneB.fallbackModels_default ->
  let n := length (loads s) in
  let d := SceneB.fallbackModels_default in
  (exists s',
      run step (LoadModel u :: failure_events n f1 ++ failure_events (S n) f2) s
      = Some s' /\
      loads s' = loads s ++ [failed_load u f1; failed_load d f2] /\
      modelRef s' = None /\ modelLoaded s' = false /\
      modelLoadError s' = Some (failure_message f2)) /\
  (forall gltf_scene center,
      exists s',
        run step (LoadModel u :: failure_events n f1 ++ [OnLoad (S n) gltf_scene center]) s
        = Some s' /\
        loads s' = loads s ++ [failed_load u f1; mkLoad d Cleared true] /\
        modelRef s' = Some (next_object s) /\ modelLoaded s' = true /\
        modelLoadError s' = None) /\
  (exists s',
      run step (LoadModel d :: failure_events n f1) s = Some s' /\
      loads s' = loads s ++ [failed_load d f1] /\
      modelRef s' = None /\ modelLoaded s' = false /\
      modelLoadError s' = Some (failure_message f1)).
Proof.
  intros Hstep Hv Hne n d. apply String.eqb_neq in Hne.
  assert (H : (exists s',
      run step (LoadModel u :: failure_events n f1 ++ failure_events (S n) f2) s
      = Some s' /\
      load_view s'
      = (loads s ++ [failed_load u f1; failed_load d f2], None, false,
         Some (failure_message f2), (clock s + failure_time f1 + failure_time f2)%Z)) /\
  (forall gltf_scene center,
      exists s',
        run step (LoadModel u :: failure_events n f1 ++ [OnLoad (S n) gltf_scene center]) s
        = Some s' /\
        load_view s'
        = (loads s ++ [failed_load u f1; mkLoad d Cleared true], Some (next_object s),
           true, None, (clock s + failure_time f1)%Z)) /\
  (exists s',
      run step (LoadModel d :: failure_events n f1) s = Some s' /\
      load_view s'
      = (loads s ++ [failed_load d f1], None, false, Some (failure_message f1),
         (clock s + failure_time f1)%Z))).
  { destruct Hstep as [-> | ->].
    - exact (retry_runs_A s u f1 f2 Hne).
    - exact (retry_runs_B s u f1 f2 Hv Hne). }
  destruct H as ((s1 & R1 & V1) & H2 & (s3 & R3 & V3)).
  split; [|split].
  - exists s1. split; [exact R1|].
    destruct (view_inv _ _ _ _ _ _ V1) as (? & ? & ? & ? & ?). auto.
  - intros g c. destruct (H2 g c) as (s2 & R2 & V2).
    exists s2. split; [exact R2|].
    destruct (view_inv _ _ _ _ _ _ V2) as (? & ? & ? & ? & ?). auto.
  - exists s3. split; [exact R3|].
    destruct (view_inv _ _ _ _ _ _ V3) as (? & ? & ? & ? & ?). auto.
Qed.

Lemma C4_failed_load_retries_default_once_witness :
  exists s',
    run SceneA.step
      [LoadModel Dragon_gltf; OnError 0 "404"; Advance 30000; Timeout 1] (init None)
    = Some s' /\
    loads s' = [mkLoad Dragon_gltf Cleared true; mkLoad Box_gltf Fired false] /\
    modelRef s' = None /\ modelLoaded s' = false /\
    modelLoadError s' = Some "Model loading timed out. Please try again.".
Proof.
  assert (Hv : SceneB.invalid_url Dragon_gltf = false) by reflexivity.
  assert (Hne : Dragon_gltf <> SceneB.fallbackModels_default)
    by (vm_compute; discriminate).
  destruct (C4_failed_load_retries_default_once (init None) Dragon_gltf (Fails "404")
              Expires SceneA.step (or_introl eq_refl) Hv Hne)
    as ((s' & Hrun & Hl & Hm & Hb & He) & _).
  exists s'. split; [exact Hrun|]. split; [exact Hl|]. split; [exact Hm|].
  split; [exact Hb | exact He].
Defined.

(** C4, as stated, fails: a load that times out and afterwards reports a
    failure is retried twice, once by each callback; and a load that times
    out and afterwards succeeds leaves its model installed when the retry
    has failed. *)
Lemma C4_counterexample :
  let start := init (Some true) in
  loads_of Box_gltf
    <$> run SceneB.step (slow_load_events ++ [OnError 0 "connection reset"]) start
  = Some 2%nat /\
  (fun s => (modelLoadError s, modelRef s))
    <$> run SceneB.step
          (slow_load_events ++ [OnLoad 0 sample_gltf origin; OnError 1 "offline"]) start
  = Some (Some "Failed to load 3D model: offline", Some 1%nat).
Proof. vm_compute. repeat split. Qed.

End RetryScenarios.

(** * Further properties of the route handlers *)

Section HandlerEdges.

Import Generate.

Lemma lower_ascii_idem (c : ascii) : lower_ascii (lower_ascii c) = lower_ascii c.
Proof. destruct c as [[] [] [] [] [] [] [] []]; reflexivity. Qed.

Lemma toLowerCase_idem (s : string) : toLowerCase (toLowerCase s) = toLowerCase s.
Proof. induction s as [|c s IH]; simpl; [reflexivity|]. rewrite lower_ascii_idem, IH. reflexivity. Qed.

(** The key tokens read the prompt through [toLowerCase] only. *)
Lemma key_tokens_lowercase (p1 p2 : string) (parsed : option JsValue) :
  toLowerCase p1 = toLowerCase p2 ->
  key_tokens (JStr p1) parsed = key_tokens (JStr p2) parsed.
Proof.
  intros H. unfold key_tokens, ai_response, allKeywords, prompt_tokens. cbn [js_toLowerCase bind].
  rewrite H. reflexivity.
Qed.

(** X1.  The result of [generateModelWithAI] does not depend on the letter
    case of the prompt: two prompts with the same lowercase form get the
    same model data from the same reply. *)
Theorem generate_ignores_letter_case (env : Env) (p1 p2 : string) :
  toLowerCase p1 = toLowerCase p2 ->
  (generateModelWithAI env (JStr p1)).1 = (generateModelWithAI env (JStr p2)).1.
Proof.
  intros H. unfold generateModelWithAI, generate_try.
  destruct (GEMINI_API_KEY env); cbn [negb]; [|reflexivity].
  destruct (completion env) as [|text parsed]; [reflexivity|].
  rewrite (key_tokens_lowercase p1 p2 parsed H). reflexivity.
Qed.

Lemma generate_ignores_letter_case_witness :
  toLowerCase "A Red DRAGON" = toLowerCase "a red dragon" /\
  (generateModelWithAI (mkEnv true (Responded "reply" None)) (JStr "A Red DRAGON")).1
  = (generateModelWithAI (mkEnv true (Responded "reply" None)) (JStr "a red dragon")).1.
Proof.
  split; [reflexivity|].
  apply (generate_ignores_letter_case (mkEnv true (Responded "reply" None))
           "A Red DRAGON" "a red dragon").
  reflexivity.
Defined.

Lemma hits_perm (keywords t1 t2 : list string) :
  t1 ≡ₚ t2 -> hits keywords t1 = hits keywords t2.
Proof.
  unfold hits. induction 1 as [|x l l' _ IH|x y l|l l' l'' _ IH1 _ IH2]; simpl.
  - reflexivity.
  - destruct (array_includes keywords (toLowerCase x)); simpl; congruence.
  - destruct (array_includes keywords (toLowerCase x)),
             (array_includes keywords (toLowerCase y)); reflexivity.
  - congruence.
Qed.

Lemma scores_of_perm (t1 t2 : list string) : t1 ≡ₚ t2 -> scores_of t1 = scores_of t2.
Proof.
  intros H. unfold scores_of. apply map_ext. intros [c kws]. cbn.
  rewrite (hits_perm kws t1 t2 H). reflexivity.
Qed.

(** X2.  The selection counts the key tokens and ignores their order: two
    answered runs whose key tokens are the same up to order select the same
    model type and URL. *)
Theorem generate_ignores_token_order (p1 p2 text1 text2 : string)
    (parsed1 parsed2 : option JsValue) (t1 t2 : list string) :
  key_tokens (JStr p1) parsed1 = Ok (map JStr t1) ->
  key_tokens (JStr p2) parsed2 = Ok (map JStr t2) ->
  t1 ≡ₚ t2 ->
  let r1 := (generateModelWithAI (mkEnv true (Responded text1 parsed1)) (JStr p1)).1 in
  let r2 := (generateModelWithAI (mkEnv true (Responded text2 parsed2)) (JStr p2)).1 in
  modelType r1 = modelType r2 /\ modelUrl r1 = modelUrl r2.
Proof.
  intros H1 H2 Hp r1 r2.
  destruct (scores_of_head t1) as (b & tail & Hs).
  assert (Hs2 : sort_desc (scores_of t2) = b :: tail)
    by (rewrite <- (scores_of_perm t1 t2 Hp); exact Hs).
  subst r1 r2.
  rewrite (generate_answered _ text1 _ _ _ _ H1 Hs),
          (generate_answered _ text2 _ _ _ _ H2 Hs2).
  split; reflexivity.
Qed.

Lemma generate_ignores_token_order_witness :
  let r1 := (generateModelWithAI (mkEnv true (Responded "one" None))
               (JStr "glow lantern robot")).1 in
  let r2 := (generateModelWithAI (mkEnv true (Responded "two" None))
               (JStr "robot glow lantern")).1 in
  modelType r1 = modelType r2 /\ modelUrl r1 = modelUrl r2.
Proof.
  apply (generate_ignores_token_order "glow lantern robot" "robot glow lantern"
           "one" "two" None None
           ["glow"; "lantern"; "robot"; "glow"; "lantern"; "robot"]
           ["robot"; "glow"; "lantern"; "robot"; "glow"; "lantern"]).
  - reflexivity.
  - reflexivity.
  - apply (Permutation_app (l := ["glow"; "lantern"; "robot"])
             (l' := ["robot"; "glow"; "lantern"]));
      symmetry; apply (Permutation_cons_append ["glow"; "lantern"] "robot").
Defined.

End HandlerEdges.

Section Selection.

Import Generate.

Lemma hits_app (keywords t1 t2 : list string) :
  hits keywords (t1 ++ t2) = (hits keywords t1 + hits keywords t2)%nat.
Proof. unfold hits. rewrite List.filter_app, length_app. reflexivity. Qed.

Lemma scores_of_twice (tokens : list string) :
  scores_of (tokens ++ tokens) = map double_score (scores_of tokens).
Proof.
  unfold scores_of. rewrite map_map. apply map_ext. intros [c kws].
  unfold double_score. cbn. rewrite hits_app. reflexivity.
Qed.

Lemma insert_desc_double (x : string * nat) (l : list (string * nat)) :
  insert_desc (double_score x) (map double_score l) = map double_score (insert_desc x l).
Proof.
  induction l as [|y l IH]; simpl; [reflexivity|].
  destruct (Nat.ltb_spec (snd x) (snd y)), (Nat.ltb_spec (snd x + snd x) (snd y + snd y));
    try lia; simpl; [rewrite IH|]; reflexivity.
Qed.

Lemma sort_desc_double (l : list (string * nat)) :
  sort_desc (map double_score l) = map double_score (sort_desc l).
Proof.
  induction l as [|x l IH]; simpl; [reflexivity|].
  rewrite IH. apply insert_desc_double.
Qed.

Lemma select_double (l : list (string * nat)) :
  select_modelType (map double_score l) = select_modelType l.
Proof.
  unfold select_modelType. rewrite sort_desc_double.
  destruct (sort_desc l) as [|[c n] tl]; simpl; [reflexivity|].
  destruct n; reflexivity.
Qed.

(** X3.  When the reply is not JSON the prompt alone decides, for a prompt
    of ASCII characters: the model type is the one selected by the scores
    of the non-empty words of the lowercased prompt (that each word is
    counted twice changes nothing), the URL is the table's for that type,
    and the reply text is the description. *)
Theorem unparsed_reply_selects_by_prompt_words (p text : string) :
  ascii_only p = true ->
  let r := (generateModelWithAI (mkEnv true (Responded text None)) (JStr p)).1 in
  select_modelType (scores_of (prompt_words p)) = Ok (modelType r) /\
  modelUrl r = lookup_or fallbackModels (modelType r) fallbackModels_default /\
  modelDescription r = text /\ aiGenerated r = true.
Proof.
  intros _ r.
  assert (Hk : key_tokens (JStr p) None = Ok (map JStr (prompt_words p ++ prompt_words p))).
  { rewrite key_tokens_text_analysis. unfold prompt_words.
    rewrite List.filter_app. reflexivity. }
  destruct (scores_of_head (prompt_words p ++ prompt_words p)) as (b & tail & Hs).
  subst r. rewrite (generate_answered _ text _ _ _ _ Hk Hs).
  cbn [modelType modelUrl modelDescription aiGenerated].
  repeat split.
  rewrite <- select_double, <- scores_of_twice.
  unfold select_modelType. rewrite Hs. reflexivity.
Qed.

Lemma unparsed_reply_selects_by_prompt_words_witness :
  select_modelType (scores_of (prompt_words "A small ROBOT"))
  = Ok (modelType (generateModelWithAI (mkEnv true (Responded "text" None))
                     (JStr "A small ROBOT")).1).
Proof.
  destruct (unparsed_reply_selects_by_prompt_words "A small ROBOT" "text" eq_refl)
    as [H _].
  exact H.
Defined.

(** X4.  A prompt that is not a string (a number, [true], an array, an
    object) always gets the fallback result, whatever the service replied:
    the conversion to a string throws or [toLowerCase] is missing, and the
    TypeError is caught. *)
Theorem non_string_prompt_gets_fallback (env : Env) (prompt : JsValue) :
  (forall s, prompt <> JStr s) ->
  (generateModelWithAI env prompt).1 = generate_catch.
Proof.
  intros Hns. unfold generateModelWithAI, generate_try.
  destruct (GEMINI_API_KEY env); cbn [negb]; [|reflexivity].
  destruct (template_literal prompt); [|reflexivity].
  destruct (completion env) as [|text parsed]; [reflexivity|].
  assert (Hp : prompt_tokens prompt = Throw).
  { unfold prompt_tokens. destruct prompt; try reflexivity. exfalso. eapply Hns. reflexivity. }
  assert (Hk : key_tokens prompt parsed = Throw).
  { unfold key_tokens, ai_response, allKeywords.
    destruct parsed; cbn [bind]; rewrite Hp; reflexivity. }
  rewrite Hk. reflexivity.
Qed.

Lemma non_string_prompt_gets_fallback_witness :
  (generateModelWithAI (mkEnv true (Responded "a dragon" None)) (JNum 42)).1
  = generate_catch.
Proof.
  apply (non_string_prompt_gets_fallback (mkEnv true (Responded "a dragon" None)) (JNum 42)).
  intros s. discriminate.
Defined.

Lemma reduce_score_non_string (keywords : list string) (all : list JsValue) (acc : nat) :
  (exists x, x ∈ all /\ forall s, x <> JStr s) ->
  reduce_score keywords all acc = Throw.
Proof.
  revert acc. induction all as [|y all IH]; intros acc (x & Hx & Hns).
  - inversion Hx.
  - simpl. destruct y; try reflexivity. cbn [js_toLowerCase bind].
    apply IH. exists x. split; [|exact Hns].
    apply elem_of_cons in Hx as [->|Hx]; [exfalso; eapply Hns; reflexivity | exact Hx].
Qed.

(** X5.  A reply that does parse but is unusable discards the whole
    answer: when reading the key tokens throws (the reply is [null], or its
    [keywords] is a number or an object) or a key token is not a string,
    the result is the fallback one, with the placeholder description and
    [aiGenerated = false], although the service did answer. *)
Theorem unusable_reply_gets_fallback (p text : string) (v : JsValue) :
  (key_tokens (JStr p) (Some v) = Throw \/
   exists all x, key_tokens (JStr p) (Some v) = Ok all /\ x ∈ all /\ forall s, x <> JStr s) ->
  (generateModelWithAI (mkEnv true (Responded text (Some v))) (JStr p)).1 = generate_catch.
Proof.
  intros H. unfold generateModelWithAI, generate_try. cbn [GEMINI_API_KEY completion negb].
  destruct H as [Hk|(all & x & Hk & Hx & Hns)]; rewrite Hk; cbn [bind]; [reflexivity|].
  unfold modelCategories. cbn [categoryScores].
  rewrite reduce_score_non_string by eauto. reflexivity.
Qed.

Lemma unusable_reply_gets_fallback_witness :
  (generateModelWithAI
     (mkEnv true (Responded "reply" (Some (JObj [("keywords", JArr [JNum 7])]))))
     (JStr "a red dragon")).1 = generate_catch.
Proof.
  apply (unusable_reply_gets_fallback "a red dragon" _ (JObj [("keywords", JArr [JNum 7])])).
  right. exists [JStr "a"; JStr "red"; JStr "dragon"; JNum 7], (JNum 7).
  split; [reflexivity|]. split.
  - right. right. right. left.
  - intros s. discriminate.
Defined.

Lemma categoryScores_names (categories : list (string * list string))
    (all : list JsValue) (scores : list (string * nat)) :
  categoryScores categories all = Ok scores -> map fst scores = map fst categories.
Proof.
  revert scores. induction categories as [|[c kws] rest IH]; intros scores; simpl.
  - intros [= <-]. reflexivity.
  - destruct (reduce_score kws all 0) as [n|]; cbn [bind]; [|discriminate].
    destruct (categoryScores rest all) as [others|]; cbn [bind]; [|discriminate].
    intros [= <-]. simpl. rewrite (IH others eq_refl). reflexivity.
Qed.

(** X6.  The model type and the URL of a result always agree with the
    table: the type is "default" or the name of a category, and the URL is
    the entry of [fallbackModels] under that very type. *)
Theorem generate_type_matches_url (env : Env) (prompt : JsValue) :
  let r := (generateModelWithAI env prompt).1 in
  fallbackModels !! modelType r = Some (modelUrl r) /\
  (modelType r = "default" \/ modelType r ∈ map fst modelCategories).
Proof.
  assert (Hcatch : fallbackModels !! modelType generate_catch
                   = Some (modelUrl generate_catch) /\
                   (modelType generate_catch = "default" \/
                    modelType generate_catch ∈ map fst modelCategories))
    by (split; [vm_compute; reflexivity | left; reflexivity]).
  intros r. subst r. unfold generateModelWithAI, generate_try.
  destruct (GEMINI_API_KEY env); cbn [negb]; [|exact Hcatch].
  destruct (template_literal prompt); [|exact Hcatch].
  destruct (completion env) as [|text parsed]; [exact Hcatch|].
  destruct (key_tokens prompt parsed) as [all|]; cbn [bind]; [|exact Hcatch].
  destruct (categoryScores modelCategories all) as [scores|] eqn:Hsc; cbn [bind];
    [|exact Hcatch].
  unfold select_modelType.
  destruct (sort_desc scores) as [|b tl] eqn:Hs; cbn [first_entry bind]; [exact Hcatch|].
  cbn [fst try_catch modelType modelUrl].
  destruct (0 <? snd b)%nat; [|split; [vm_compute; reflexivity | left; reflexivity]].
  assert (Hb : fst b ∈ map fst modelCategories).
  { rewrite <- (categoryScores_names _ _ _ Hsc). apply list_elem_of_fmap.
    exists b. split; [reflexivity|]. apply sort_desc_elem. rewrite Hs. left. }
  split; [|right; exact Hb].
  apply list_elem_of_fmap in Hb as ([c kws] & Hc & Hin). cbn in Hc. rewrite Hc.
  destruct (category_url _ _ Hin) as (u & Hu & Hl). rewrite Hl. exact Hu.
Qed.

End Selection.

Section Routes.

(** X7.  The scoring [POST] handler answers 500 only to a request it
    cannot read: the body is not JSON or is [null], or the prompt is truthy
    but cannot be converted to a string; no such request reaches the
    text-completion service.  Every other request gets the 400 response (no
    truthy prompt, no request sent) or the 200 response with the data and
    the requests of [generateModelWithAI]: whatever that function returns,
    the handler does not fail on it, and its test of an empty model URL
    never fires. *)
Theorem POST_fails_only_on_unreadable_request (env : Env) (body : option JsValue) :
  let unreadable :=
    body = None \/ body = Some JNull \/
    exists b p, body = Some b /\ get_prop b "prompt" = Ok (Some p) /\
                truthy p = true /\ converts_to_string p = false in
  ((Generate.POST env body).1 = Generate.error_response <-> unreadable) /\
  (unreadable -> (Generate.POST env body).2 = []) /\
  (~ unreadable ->
   Generate.POST env body = (Json400 "Prompt is required", []) \/
   exists b p,
     body = Some b /\ get_prop b "prompt" = Ok (Some p) /\
     Generate.POST env body
     = (let run := Generate.generateModelWithAI env p in
        (Json200 (modelUrl run.1) (modelDescription run.1) (aiGenerated run.1)
           (modelType run.1), run.2))).
Proof.
  intros unreadable. destruct body as [b|]; cycle 1.
  - assert (Hun : unreadable) by (left; reflexivity).
    split; [split; [intros _; exact Hun | reflexivity]|].
    split; [reflexivity | intros H; contradiction].
  - destruct (get_prop b "prompt") as [[p|]|] eqn:Hp.
    + destruct (truthy p) eqn:Ht.
      * destruct (generate_answer_cases env b p Hp Ht) as [[Hs H]|[Hs H]]; rewrite H.
        -- assert (Hnot : ~ unreadable).
           { intros [H0|[H0|(b' & p' & H0 & Hp' & _ & Hs')]]; [discriminate| |].
             - injection H0 as ->. discriminate.
             - injection H0 as <-. rewrite Hp in Hp'. injection Hp' as <-. congruence. }
           split; [split; [discriminate | intros Hu; contradiction]|].
           split; [intros Hu; contradiction|].
           intros _. right. exists b, p. auto.
        -- assert (Hun : unreadable) by (right; right; exists b, p; auto).
           split; [split; [intros _; exact Hun | reflexivity]|].
           split; [reflexivity | intros Hn; contradiction].
      * assert (H : Generate.POST env (Some b) = (Json400 "Prompt is required", []))
          by (unfold Generate.POST; rewrite Hp, Ht; reflexivity).
        rewrite H.
        assert (Hnot : ~ unreadable).
        { intros [H0|[H0|(b' & p' & H0 & Hp' & Ht' & _)]]; [discriminate| |].
          - injection H0 as ->. discriminate.
          - injection H0 as <-. rewrite Hp in Hp'. injection Hp' as <-. congruence. }
        split; [split; [discriminate | intros Hu; contradiction]|].
        split; [intros Hu; contradiction | auto].
    + assert (H : Generate.POST env (Some b) = (Json400 "Prompt is required", []))
        by (unfold Generate.POST; rewrite Hp; reflexivity).
      rewrite H.
      assert (Hnot : ~ unreadable).
      { intros [H0|[H0|(b' & p' & H0 & Hp' & _)]]; [discriminate| |].
        - injection H0 as ->. discriminate.
        - injection H0 as <-. rewrite Hp in Hp'. discriminate. }
      split; [split; [discriminate | intros Hu; contradiction]|].
      split; [intros Hu; contradiction | auto].
    + assert (Hb : b = JNull) by (destruct b; try discriminate; reflexivity).
      subst b.
      assert (Hun : unreadable) by (right; left; reflexivity).
      split; [split; [intros _; exact Hun | reflexivity]|].
      split; [reflexivity | intros H; contradiction].
Qed.

Lemma POST_fails_only_on_unreadable_request_witness :
  Generate.POST (mkEnv true (Responded "reply" None))
    (Some (JObj [("prompt", JObj [("toString", JNum 1)])]))
  = (Generate.error_response, []).
Proof.
  destruct (POST_fails_only_on_unreadable_request (mkEnv true (Responded "reply" None))
              (Some (JObj [("prompt", JObj [("toString", JNum 1)])])))
    as ([_ H1] & H2 & _).
  apply injective_projections; [apply H1 | apply H2];
    right; right; eexists; eexists; repeat split.
Defined.

Lemma toLowerCase_app (a b : string) :
  toLowerCase (a ++ b) = (toLowerCase a ++ toLowerCase b)%string.
Proof. induction a as [|c a IH]; simpl; [reflexivity|]. rewrite IH. reflexivity. Qed.

Lemma starts_with_app (w rest : string) : starts_with w (w ++ rest) = true.
Proof.
  induction w as [|c w IH]; simpl; [reflexivity|].
  rewrite Ascii.eqb_refl, IH. reflexivity.
Qed.

Lemma str_includes_app (a w b : string) : str_includes (a ++ w ++ b) w = true.
Proof.
  induction a as [|c a IH].
  - simpl. destruct (w ++ b)%string eqn:E; simpl.
    + destruct w; [reflexivity | discriminate].
    + rewrite <- E, starts_with_app. reflexivity.
  - simpl. rewrite IH. apply orb_true_r.
Qed.

(** X8.  The first-match handler looks for its keywords as substrings of the
    lowercased prompt, and the cube group comes first: a prompt that
    contains "cube", "box" or "square" anywhere, in any letter case, even
    inside a longer word and whatever else it mentions, gets the cube
    model once the service answered. *)
Theorem chain_cube_group_wins (key : bool) (text : string) (parsed : option JsValue)
    (a w b : string) :
  toLowerCase w = "cube" \/ toLowerCase w = "box" \/ toLowerCase w = "square" ->
  (GenerateChain.generateModelWithAI (mkEnv key (Responded text parsed))
     (JStr (a ++ w ++ b))).1
  = {| modelUrl := Box_gltf; modelDescription := text; aiGenerated := true;
       modelType := "cube" |}.
Proof.
  intros H. unfold GenerateChain.generateModelWithAI, GenerateChain.generate_try.
  cbn [completion js_toLowerCase bind fst try_catch template_literal converts_to_string].
  rewrite !toLowerCase_app.
  assert (Hc : GenerateChain.chain_modelType
                 (toLowerCase a ++ toLowerCase w ++ toLowerCase b) = "cube").
  { unfold GenerateChain.chain_modelType.
    destruct H as [-> | [-> | ->]]; rewrite str_includes_app;
      rewrite ?orb_true_r; reflexivity. }
  rewrite Hc. reflexivity.
Qed.

Lemma chain_cube_group_wins_witness :
  (GenerateChain.generateModelWithAI (mkEnv false (Responded "reply" None))
     (JStr "a robot on an XBOX")).1
  = {| modelUrl := Box_gltf; modelDescription := "reply"; aiGenerated := true;
       modelType := "cube" |}.
Proof.
  apply (chain_cube_group_wins false "reply" None "a robot on an X" "BOX" "").
  right. left. reflexivity.
Defined.

(** X9.  In the first-match handler the model type is not always a key of
    the table: the types "generic" (no keyword found) and "fallback" (the
    call failed) have no entry and get the cube URL; the types "cube",
    "duck", "robot" and "lantern" get their own entry.  The type is
    "fallback" exactly when the result is not AI-generated. *)
Theorem chain_type_and_url (env : Env) (prompt : JsValue) :
  let r := (GenerateChain.generateModelWithAI env prompt).1 in
  ((modelType r ∈ ["cube"; "duck"; "robot"; "lantern"] /\
    GenerateChain.fallbackModels !! modelType r = Some (modelUrl r)) \/
   (modelType r ∈ ["generic"; "fallback"] /\
    GenerateChain.fallbackModels !! modelType r = None /\ modelUrl r = Box_gltf)) /\
  (aiGenerated r = false <-> modelType r = "fallback").
Proof.
  assert (Hcatch :
    let r := GenerateChain.generate_catch in
    ((modelType r ∈ ["cube"; "duck"; "robot"; "lantern"] /\
      GenerateChain.fallbackModels !! modelType r = Some (modelUrl r)) \/
     (modelType r ∈ ["generic"; "fallback"] /\
      GenerateChain.fallbackModels !! modelType r = None /\ modelUrl r = Box_gltf)) /\
    (aiGenerated r = false <-> modelType r = "fallback")).
  { split; [right; split; [right; left | split; vm_compute; reflexivity]
           | split; reflexivity]. }
  intros r. subst r. unfold GenerateChain.generateModelWithAI, GenerateChain.generate_try.
  destruct (template_literal prompt); [|exact Hcatch].
  destruct (completion env) as [|text parsed]; [exact Hcatch|].
  destruct (js_toLowerCase prompt) as [keywords|]; cbn [bind]; [|exact Hcatch].
  cbn [fst try_catch modelType modelUrl aiGenerated].
  unfold GenerateChain.chain_modelType.
  repeat match goal with
         | |- context [if ?c then _ else _] => destruct c
         end;
    (split; [|split; discriminate]).
  - left. split; [left | vm_compute; reflexivity].
  - left. split; [right; left | vm_compute; reflexivity].
  - left. split; [do 2 right; left | vm_compute; reflexivity].
  - left. split; [do 3 right; left | vm_compute; reflexivity].
  - right. split; [left | split; vm_compute; reflexivity].
Qed.

Lemma chain_type_and_url_witness :
  modelType (GenerateChain.generateModelWithAI (mkEnv true Rejected) (JStr "a cube")).1
  = "fallback".
Proof.
  apply (chain_type_and_url (mkEnv true Rejected) (JStr "a cube")). reflexivity.
Defined.



End Routes.

(** * Properties of the page *)

Section PageFlow.

Lemma trim_empty : trim "" = "".
Proof. reflexivity. Qed.

Lemma not_blank_truthy (p : string) : trim p <> "" -> truthy (JStr p) = true.
Proof.
  intros H. cbn. destruct p; [contradiction H; reflexivity | reflexivity].
Qed.

Lemma page_request_prompt (s : Home.PageState) :
  get_prop (Home.request_body s) "prompt" = Ok (Some (JStr (Home.prompt s))).
Proof. reflexivity. Qed.

(** The answer of the scoring handler to the page's request. *)
Lemma scoring_handler_answer (env : Env) (s : Home.PageState) :
  trim (Home.prompt s) <> "" ->
  let r := (Generate.generateModelWithAI env (JStr (Home.prompt s))).1 in
  Home.via_scoring_handler env (Home.request_body s)
  = Home.Answered (Json200 (modelUrl r) (modelDescription r) (aiGenerated r) (modelType r)) /\
  String.eqb (modelUrl r) "" = false /\
  exists k, Generate.fallbackModels !! k = Some (modelUrl r).
Proof.
  intros Hp r. subst r. unfold Home.via_scoring_handler, Generate.POST.
  rewrite page_request_prompt, (not_blank_truthy _ Hp).
  destruct (generate_url_in_table env (JStr (Home.prompt s))) as [Hin Hne].
  destruct (Generate.generateModelWithAI env (JStr (Home.prompt s))) as [modelData effects].
  cbn [fst snd] in *. rewrite Hne. auto.
Qed.

(** X11.  A prompt of ASCII characters that is not blank, submitted to the
    scoring handler, always ends with a model and no error: one request is
    sent, the page is no longer loading, the error is cleared, and the
    model URL, the description and the AI flag are those of
    [generateModelWithAI], the URL being one of the table. *)
Theorem page_shows_handler_model (env : Env) (s : Home.PageState) :
  ascii_only (Home.prompt s) = true ->
  trim (Home.prompt s) <> "" ->
  let out := Home.handleGenerate (Home.via_scoring_handler env) s in
  let r := (Generate.generateModelWithAI env (JStr (Home.prompt s))).1 in
  out.2 = [Home.request_body s] /\
  Home.loading out.1 = false /\ Home.error out.1 = None /\
  Home.modelUrl out.1 = Some (modelUrl r) /\
  Home.modelDescription out.1 = Home.or_null (modelDescription r) /\
  Home.aiGenerated out.1 = aiGenerated r /\
  exists k, Generate.fallbackModels !! k = Some (modelUrl r).
Proof.
  intros _ Hp out r. destruct (scoring_handler_answer env s Hp) as (Ha & Hne & Hin).
  fold r in Ha, Hne, Hin. subst out. unfold Home.handleGenerate.
  apply String.eqb_neq in Hp. rewrite Hp, Ha, Hne. cbn. auto 10.
Qed.

Lemma page_shows_handler_model_witness :
  let s := Home.mkPageState "a small robot" None None false None false None in
  let out := Home.handleGenerate (Home.via_scoring_handler (mkEnv true Rejected)) s in
  out.2 = [Home.request_body s] /\
  Home.loading out.1 = false /\ Home.error out.1 = None /\
  Home.modelUrl out.1 = Some Box_gltf.
Proof.
  destruct (page_shows_handler_model (mkEnv true Rejected)
              (Home.mkPageState "a small robot" None None false None false None))
    as (H1 & H2 & H3 & H4 & _).
  - reflexivity.
  - vm_compute. discriminate.
  - repeat split; assumption.
Defined.

(** X12.  Whatever [fetch] does, [handleGenerate] sends at most one
    request, and none for a blank prompt, where only the error changes.
    After a prompt of ASCII characters that is not blank the page is not
    loading and exactly one of the error and the model URL is set, so the
    AR card shows exactly when there is no error. *)
Theorem page_error_or_model (fetch : JsValue -> Home.FetchResult) (s : Home.PageState) :
  let out := Home.handleGenerate fetch s in
  (trim (Home.prompt s) = "" ->
   out.2 = [] /\ Home.error out.1 = Some "Please enter a prompt" /\
   Home.modelUrl out.1 = Home.modelUrl s /\ Home.loading out.1 = Home.loading s) /\
  (ascii_only (Home.prompt s) = true -> trim (Home.prompt s) <> "" ->
   out.2 = [Home.request_body s] /\ Home.loading out.1 = false /\
   ((Home.error out.1 = None /\ exists u, Home.modelUrl out.1 = Some u /\ u <> "") \/
    (Home.modelUrl out.1 = None /\
     exists m, Home.error out.1 = Some ("Failed to generate AR model: " ++ m)%string))).
Proof.
  intros out. subst out. unfold Home.handleGenerate. split; [intros Hp | intros _ Hp].
  - rewrite Hp. cbn. auto.
  - apply String.eqb_neq in Hp. rewrite Hp. cbn [fst snd].
    split; [reflexivity|].
    destruct (fetch (Home.request_body s)) as [m|[u d a t|e|e u]]; cbn;
      try (split; [reflexivity | right; eauto]).
    destruct (String.eqb u "") eqn:Eu; cbn.
    + split; [reflexivity | right; eauto].
    + split; [reflexivity|]. left. split; [reflexivity|].
      exists u. split; [reflexivity | apply String.eqb_neq; exact Eu].
Qed.

Lemma page_error_or_model_witness :
  let fetch := fun _ : JsValue => Home.NetworkError "offline" in
  let blank := Home.mkPageState "   " (Some Duck_gltf) None false None false None in
  let s := Home.mkPageState "a duck" (Some Duck_gltf) None false None false None in
  ((Home.handleGenerate fetch blank).2 = [] /\
   Home.error (Home.handleGenerate fetch blank).1 = Some "Please enter a prompt" /\
   Home.modelUrl (Home.handleGenerate fetch blank).1 = Some Duck_gltf) /\
  ((Home.handleGenerate fetch s).2 = [Home.request_body s] /\
   Home.loading (Home.handleGenerate fetch s).1 = false).
Proof.
  cbv zeta. split.
  - destruct (page_error_or_model (fun _ => Home.NetworkError "offline")
                (Home.mkPageState "   " (Some Duck_gltf) None false None false None))
      as [H _].
    destruct H as (H1 & H2 & H3 & _); [reflexivity|]. auto.
  - destruct (page_error_or_model (fun _ => Home.NetworkError "offline")
                (Home.mkPageState "a duck" (Some Duck_gltf) None false None false None))
      as [_ H].
    destruct H as (H1 & H2 & _); [reflexivity | vm_compute; discriminate |]. auto.
Defined.

(** X13.  When the description service fails, the page still shows a model
    for a prompt of ASCII characters that is not blank: the box model, with
    the card captioned "Using fallback model", the type "default" and the
    placeholder description. *)
Theorem page_card_after_failed_description (key : bool) (s : Home.PageState) :
  ascii_only (Home.prompt s) = true ->
  trim (Home.prompt s) <> "" ->
  let out := Home.handleGenerate (Home.via_scoring_handler (mkEnv key Rejected)) s in
  Home.modelUrl out.1 = Some Box_gltf /\ Home.error out.1 = None /\
  Home.renderModelInfo out.1
  = Some ("Using fallback model", "default", "Failed to generate AI description").
Proof.
  intros _ Hp out. subst out.
  unfold Home.handleGenerate, Home.via_scoring_handler, Generate.POST.
  rewrite page_request_prompt, (not_blank_truthy _ Hp).
  apply String.eqb_neq in Hp. rewrite Hp.
  destruct key; cbn; auto.
Qed.

Lemma page_card_after_failed_description_witness :
  Home.renderModelInfo
    (Home.handleGenerate (Home.via_scoring_handler (mkEnv false Rejected))
       (Home.mkPageState "a dragon" None None false None false None)).1
  = Some ("Using fallback model", "default", "Failed to generate AI description").
Proof.
  destruct (page_card_after_failed_description false
              (Home.mkPageState "a dragon" None None false None false None))
    as (_ & _ & H).
  - reflexivity.
  - vm_compute. discriminate.
  - exact H.
Defined.

End PageFlow.

(** * Invariants of a mounted scene *)

Section SceneInvariant.

Lemma elem_filter_neq (id x : nat) (l : list nat) :
  x ∈ List.filter (nat_neqb id) l <-> x ∈ l /\ x <> id.
Proof.
  rewrite !list_elem_of_In, List.filter_In. unfold nat_neqb.
  destruct (Nat.eqb_spec id x); simpl; intuition congruence.
Qed.

Lemma scene_inv_init (supported : option bool) : scene_inv (init supported).
Proof.
  split; [apply wf_init|]. split.
  - intros id H. cbn in H. apply list_elem_of_singleton in H. subst. cbn. lia.
  - intros id H. inversion H.
Qed.

(** Steps that leave the store, the refs, the scene and the placed objects
    alone. *)
Lemma scene_inv_same (s s' : State) :
  same_store s s' -> scene s' = scene s -> placedObjects s' = placedObjects s ->
  scene_inv s -> scene_inv s'.
Proof.
  intros Hst Hsc Hpl (Hwf & Hs & Hp). pose proof Hst as (Ho & Hn & Hm & Hr).
  split; [exact (wf_same_store s s' Hst Hwf)|].
  rewrite Hsc, Hpl, Hn, Hm, Hr, Ho. auto.
Qed.

Lemma scene_inv_update_object (id : nat) (f : Three.Object3D -> Three.Object3D)
    (s : State) : scene_inv s -> scene_inv (update_object id f s).
Proof.
  intros (Hwf & Hs & Hp). split; [apply wf_update_object, Hwf|]. cbn.
  split; [exact Hs|]. intros j Hj. rewrite lookup_alter_is_Some. auto.
Qed.

(** Dropping the template. *)
Lemma scene_inv_drop (s s' : State) :
  objects s' = objects s -> next_object s' = next_object s ->
  modelRef s' = None -> reticleRef s' = reticleRef s ->
  placedObjects s' = placedObjects s ->
  (forall m, modelRef s = Some m -> scene s' = List.filter (nat_neqb m) (scene s)) ->
  (modelRef s = None -> scene s' = scene s) ->
  scene_inv s -> scene_inv s'.
Proof.
  intros Ho Hn Hm Hr Hpl Hsc1 Hsc2 (Hwf & Hs & Hp).
  split; [exact (wf_drop_model s s' Ho Hn Hm Hr Hwf)|].
  rewrite Hn, Hm, Hr, Hpl, Ho.
  destruct (modelRef s) as [m|] eqn:Em.
  - rewrite (Hsc1 m eq_refl). split.
    + intros id Hid. apply elem_filter_neq in Hid as [Hid _]. auto.
    + intros id Hid. destruct (Hp id Hid) as (H1 & H2 & H3 & H4).
      split; [exact H1|]. split; [|split; [discriminate | exact H4]].
      apply elem_filter_neq. split; [exact H2 | congruence].
  - rewrite (Hsc2 eq_refl). split; [exact Hs|].
    intros id Hid. destruct (Hp id Hid) as (H1 & H2 & H3 & H4).
    split; [exact H1|]. split; [exact H2|]. split; [discriminate | exact H4].
Qed.

(** Installing a new object as the template. *)
Lemma scene_inv_install (o : Three.Object3D) (s s' : State) :
  objects s' = <[next_object s := o]> (objects s) ->
  next_object s' = S (next_object s) ->
  modelRef s' = Some (next_object s) -> reticleRef s' = reticleRef s ->
  placedObjects s' = placedObjects s ->
  scene s' = List.filter (nat_neqb (next_object s)) (scene s) ++ [next_object s] ->
  scene_inv s -> scene_inv s'.
Proof.
  intros Ho Hn Hm Hr Hpl Hsc (Hwf & Hs & Hp).
  split; [exact (wf_install o s s' Ho Hn Hm Hr Hwf)|].
  rewrite Hn, Hm, Hr, Hpl, Hsc, Ho. destruct Hwf as (Hdom & _ & _). split.
  - intros id Hid. apply elem_of_app in Hid as [Hid|Hid].
    + apply elem_filter_neq in Hid as [Hid _]. apply Hs in Hid. lia.
    + apply list_elem_of_singleton in Hid. lia.
  - intros id Hid. destruct (Hp id Hid) as (H1 & H2 & H3 & H4).
    pose proof (Hdom id H1) as Hlt.
    split; [|split; [|split]].
    + rewrite lookup_insert_is_Some. right. split; [lia | exact H1].
    + apply elem_of_app. left. apply elem_filter_neq. split; [exact H2 | lia].
    + intros [= E]. lia.
    + exact H4.
Qed.

(** Placing a new object. *)
Lemma scene_inv_place (o : Three.Object3D) (s s' : State) :
  objects s' = <[next_object s := o]> (objects s) ->
  next_object s' = S (next_object s) ->
  modelRef s' = modelRef s -> reticleRef s' = reticleRef s ->
  placedObjects s' = placedObjects s ++ [next_object s] ->
  scene s' = List.filter (nat_neqb (next_object s)) (scene s) ++ [next_object s] ->
  scene_inv s -> scene_inv s'.
Proof.
  intros Ho Hn Hm Hr Hpl Hsc (Hwf & Hs & Hp).
  split; [exact (wf_place o s s' Ho Hn Hm Hr Hwf)|].
  rewrite Hn, Hm, Hr, Hpl, Hsc, Ho. destruct Hwf as (Hdom & Hmo & Hro). split.
  - intros id Hid. apply elem_of_app in Hid as [Hid|Hid].
    + apply elem_filter_neq in Hid as [Hid _]. apply Hs in Hid. lia.
    + apply list_elem_of_singleton in Hid. lia.
  - intros id Hid. apply elem_of_app in Hid as [Hid|Hid].
    + destruct (Hp id Hid) as (H1 & H2 & H3 & H4).
      pose proof (Hdom id H1) as Hlt.
      split; [|split; [|split]]; auto.
      * rewrite lookup_insert_is_Some. right. split; [lia | exact H1].
      * apply elem_of_app. left. apply elem_filter_neq. split; [exact H2 | lia].
    + apply list_elem_of_singleton in Hid. subst id.
      split; [|split; [|split]].
      * rewrite lookup_insert_eq. eauto.
      * apply elem_of_app. right. left.
      * intros E. apply Hmo, Hdom in E. lia.
      * intros E. apply Hro, Hdom in E. lia.
Qed.


Lemma scene_inv_reset_B (s : State) : scene_inv s -> scene_inv (SceneB.reset_model s).
Proof.
  intros H. unfold SceneB.reset_model.
  destruct (modelRef s) as [m|] eqn:E.
  - apply (scene_inv_drop s);
      [reflexivity | reflexivity | reflexivity | reflexivity | reflexivity | | | exact H].
    + intros m' Hm'. rewrite E in Hm'. injection Hm' as <-. reflexivity.
    + rewrite E. discriminate.
  - apply (scene_inv_same s); [repeat split; auto | reflexivity | reflexivity | exact H].
Qed.

Lemma scene_inv_loadModel_B (u : string) (s : State) :
  scene_inv s -> scene_inv (SceneB.loadModel u s).
Proof.
  intros H. unfold SceneB.loadModel, SceneB.reset_model, SceneB.start_load.
  destruct (modelRef s) as [m|] eqn:E; destruct (SceneB.invalid_url u); cbn; rewrite ?E.
  - apply (scene_inv_drop s);
      [reflexivity | reflexivity | reflexivity | reflexivity | reflexivity | | | exact H].
    + intros m' Hm'. rewrite E in Hm'. injection Hm' as <-. reflexivity.
    + rewrite E. discriminate.
  - apply (scene_inv_drop s);
      [reflexivity | reflexivity | reflexivity | reflexivity | reflexivity | | | exact H].
    + intros m' Hm'. rewrite E in Hm'. injection Hm' as <-. reflexivity.
    + rewrite E. discriminate.
  - apply (scene_inv_same s); [repeat split; auto | reflexivity | reflexivity | exact H].
  - apply (scene_inv_same s); [repeat split; auto | reflexivity | reflexivity | exact H].
Qed.


Lemma scene_inv_onSelect_B (s : State) : scene_inv s -> scene_inv (SceneB.onSelect s).
Proof.
  intros H. unfold SceneB.onSelect.
  destruct (reticleRef s) as [r|]; [|exact H].
  destruct (objects s !! r) as [reticle|]; [|exact H].
  destruct (Three.visible reticle); [|exact H].
  destruct (modelRef s) as [m|] eqn:Em; [|exact H].
  destruct (objects s !! m) as [template|]; [|exact H].
  eapply (scene_inv_place _ s); [reflexivity .. | exact H].
Qed.

Lemma scene_inv_onSelect_C (s : State) : scene_inv s -> scene_inv (SceneC.onSelect s).
Proof.
  intros H. unfold SceneC.onSelect.
  destruct (reticleRef s) as [r|]; [|exact H].
  destruct (objects s !! r) as [reticle|]; [|exact H].
  destruct (Three.visible reticle); [|exact H].
  destruct (modelRef s) as [m|] eqn:Em; [|exact H].
  destruct (objects s !! m) as [template|]; [|exact H].
  eapply (scene_inv_place _ s); [reflexivity .. | exact H].
Qed.


Lemma scene_inv_render_B (frame : option XRFrame) (s : State) :
  scene_inv s -> scene_inv (SceneB.render frame s).
Proof.
  intros H. unfold SceneB.render, SceneB.update_reticle. destruct frame as [f|].
  - destruct (referenceSpace f && session f); [|exact H].
    assert (H' : scene_inv (if hitTestSourceRequiredRef s
                            then set_hitTestSourceRequiredRef false s else s)).
    { destruct (hitTestSourceRequiredRef s); [|exact H].
      apply (scene_inv_same s); [repeat split | reflexivity | reflexivity | exact H]. }
    destruct (hitTestSourceRef _); [|exact H'].
    destruct (hitTestResults f) as [[|[pose|] ?]|]; try exact H';
      (destruct (reticleRef _); [|exact H']); apply scene_inv_update_object, H'.
  - destruct (modelRef s); [|exact H].
    destruct (not_supported s); [|exact H]. apply scene_inv_update_object, H.
Qed.

Ltac same_inv s H :=
  apply (scene_inv_same s); [repeat split | reflexivity | reflexivity | exact H].


Lemma scene_inv_step_B (e : Event) (s s' : State) :
  SceneB.step e s = Some s' -> scene_inv s -> scene_inv s'.
Proof.
  intros Hstep H. destruct e; cbn in Hstep.
  - injection Hstep as <-. apply scene_inv_loadModel_B, H.
  - destruct (0 <=? dt)%Z; [|discriminate]. injection Hstep as <-. same_inv s H.
  - destruct (loads s !! i) as [l|]; [|discriminate].
    destruct (timeoutId l) as [d| |]; try discriminate.
    destruct (d <=? clock s)%Z; [|discriminate]. injection Hstep as <-.
    unfold SceneB.on_timeout.
    assert (H' : scene_inv (set_modelLoadError
                              (Some "Model loading timed out. Please try again.")
                              (timer_fired i l s))) by same_inv s H.
    destruct (String.eqb _ _); [exact H' | apply scene_inv_loadModel_B, H'].
  - destruct (loads s !! i) as [l|]; [|discriminate].
    destruct (reported l); [discriminate|]. injection Hstep as <-.
    unfold SceneB.on_load. eapply (scene_inv_install _ s); [reflexivity .. | exact H].
  - destruct (loads s !! i) as [l|]; [|discriminate].
    destruct (reported l); [discriminate|].
    destruct (on_progress_inv _ _ _ _ _ Hstep) as [ -> | [percent ->] ]; [exact H|]. same_inv s H.
  - destruct (loads s !! i) as [l|]; [|discriminate].
    destruct (reported l); [discriminate|]. injection Hstep as <-.
    unfold SceneB.on_error.
    assert (H' : scene_inv (set_modelLoadError
                              (Some ("Failed to load 3D model: " ++ message)%string)
                              (loader_reported i l s))) by same_inv s H.
    destruct (String.eqb _ _); [exact H' | apply scene_inv_loadModel_B, H'].
  - injection Hstep as <-. apply scene_inv_onSelect_B, H.
  - injection Hstep as <-. apply scene_inv_render_B, H.
  - discriminate.
  - injection Hstep as <-. unfold SceneB.on_sessionstart.
    cbn [modelRef set_hitTestSourceRequiredRef set_sessionRef].
    assert (H' : scene_inv (set_hitTestSourceRequiredRef true (set_sessionRef true s)))
      by same_inv s H.
    destruct (modelRef s); [apply scene_inv_update_object, H' | exact H'].
  - injection Hstep as <-. same_inv s H.
  - injection Hstep as <-. same_inv s H.
Qed.

Lemma scene_inv_run (step : Event -> State -> option State) (events : list Event) :
  (forall e s s', step e s = Some s' -> scene_inv s -> scene_inv s') ->
  forall s s', run step events s = Some s' -> scene_inv s -> scene_inv s'.
Proof.
  intros Hstep. induction events as [|e events IH]; intros s s' Hrun H; simpl in Hrun.
  - injection Hrun as <-. exact H.
  - destruct (step e s) as [s1|] eqn:E; [|discriminate].
    exact (IH _ _ Hrun (Hstep _ _ _ E H)).
Qed.



End SceneInvariant.

Section PlacedObjects.

Lemma placed_loadModel_A (u : string) (s : State) :
  placedObjects (SceneA.loadModel u s) = placedObjects s /\
  objects (SceneA.loadModel u s) = objects s.
Proof. unfold SceneA.loadModel. destruct (modelRef s); split; reflexivity. Qed.

Lemma placed_loadModel_B (u : string) (s : State) :
  placedObjects (SceneB.loadModel u s) = placedObjects s /\
  objects (SceneB.loadModel u s) = objects s.
Proof.
  unfold SceneB.loadModel, SceneB.reset_model, SceneB.start_load.
  destruct (modelRef s) as [m|] eqn:E; destruct (SceneB.invalid_url u);
    cbn; rewrite ?E; split; reflexivity.
Qed.

Lemma placed_render_A (frame : option XRFrame) (s : State) :
  placedObjects (SceneA.render frame s) = placedObjects s.
Proof.
  unfold SceneA.render. destruct frame as [f|].
  - destruct (referenceSpace f && session f); [|reflexivity].
    destruct (hitTestSourceRequiredRef s); cbn;
      (destruct (hitTestSourceRef s); [|reflexivity]);
      (destruct (hitTestResults f) as [[|[pose|] ?]|]; try reflexivity);
      destruct (reticleRef s); reflexivity.
  - destruct (modelRef s); [|reflexivity]. destruct (not_supported s); reflexivity.
Qed.

Lemma placed_render_B (frame : option XRFrame) (s : State) :
  placedObjects (SceneB.render frame s) = placedObjects s.
Proof.
  unfold SceneB.render, SceneB.update_reticle. destruct frame as [f|].
  - destruct (referenceSpace f && session f); [|reflexivity].
    destruct (hitTestSourceRequiredRef s); cbn;
      (destruct (hitTestSourceRef s); [|reflexivity]);
      (destruct (hitTestResults f) as [[|[pose|] ?]|]; try reflexivity);
      destruct (reticleRef s); reflexivity.
  - destruct (modelRef s); [|reflexivity]. destruct (not_supported s); reflexivity.
Qed.

Lemma placed_onSelect_A (s : State) :
  placedObjects (SceneA.onSelect s) = placedObjects s \/
  placedObjects (SceneA.onSelect s) = placedObjects s ++ [next_object s].
Proof.
  unfold SceneA.onSelect.
  destruct (reticleRef s) as [r|]; [|auto].
  destruct (objects s !! r) as [reticle|]; [|auto].
  destruct (Three.visible reticle); [|auto].
  destruct (modelRef s) as [m|]; [|auto].
  destruct (objects s !! m) as [template|]; [|auto]. right. reflexivity.
Qed.

Lemma placed_onSelect_B (s : State) :
  placedObjects (SceneB.onSelect s) = placedObjects s \/
  placedObjects (SceneB.onSelect s) = placedObjects s ++ [next_object s].
Proof.
  unfold SceneB.onSelect.
  destruct (reticleRef s) as [r|]; [|auto].
  destruct (objects s !! r) as [reticle|]; [|auto].
  destruct (Three.visible reticle); [|auto].
  destruct (modelRef s) as [m|]; [|auto].
  destruct (objects s !! m) as [template|]; [|auto]. right. reflexivity.
Qed.

(** One event adds at most one placed object, and only a placement adds. *)
Lemma placed_step_A (e : Event) (s s' : State) :
  SceneA.step e s = Some s' ->
  exists added, placedObjects s' = placedObjects s ++ added /\
                (length added <= if is_select e then 1 else 0)%nat.
Proof.
  intros Hstep.
  assert (Hsame : placedObjects s' = placedObjects s ->
            exists added, placedObjects s' = placedObjects s ++ added /\
                          (length added <= if is_select e then 1 else 0)%nat).
  { intros Ht. exists []. rewrite app_nil_r. split; [exact Ht|].
    simpl. destruct (is_select e); lia. }
  destruct e; cbn in Hstep.
  - injection Hstep as <-. apply Hsame, placed_loadModel_A.
  - destruct (0 <=? dt)%Z; [|discriminate]. injection Hstep as <-.
    apply Hsame; reflexivity.
  - destruct (loads s !! i) as [l|]; [|discriminate].
    destruct (timeoutId l) as [d| |]; try discriminate.
    destruct (d <=? clock s)%Z; [|discriminate]. injection Hstep as <-.
    apply Hsame. unfold SceneA.on_timeout. destruct (String.eqb _ _); [reflexivity|].
    rewrite (proj1 (placed_loadModel_A _ _)). reflexivity.
  - destruct (loads s !! i) as [l|]; [|discriminate].
    destruct (reported l); [discriminate|]. injection Hstep as <-.
    apply Hsame; reflexivity.
  - destruct (loads s !! i) as [l|]; [|discriminate].
    destruct (reported l); [discriminate|].
    destruct (on_progress_inv _ _ _ _ _ Hstep) as [ -> | [percent ->] ]; apply Hsame; reflexivity.
  - destruct (loads s !! i) as [l|]; [|discriminate].
    destruct (reported l); [discriminate|]. injection Hstep as <-.
    apply Hsame. unfold SceneA.on_error. destruct (String.eqb _ _); [reflexivity|].
    rewrite (proj1 (placed_loadModel_A _ _)). reflexivity.
  - injection Hstep as <-. destruct (placed_onSelect_A s) as [H|H].
    + exists []. rewrite app_nil_r. split; [exact H | simpl; lia].
    + exists [next_object s]. split; [exact H | simpl; lia].
  - injection Hstep as <-. apply Hsame, placed_render_A.
  - destruct (bool_decide _); [|discriminate]. injection Hstep as <-.
    apply Hsame; reflexivity.
  - injection Hstep as <-. apply Hsame; reflexivity.
  - injection Hstep as <-. apply Hsame; reflexivity.
  - injection Hstep as <-. apply Hsame; reflexivity.
Qed.

Lemma placed_step_B (e : Event) (s s' : State) :
  SceneB.step e s = Some s' ->
  exists added, placedObjects s' = placedObjects s ++ added /\
                (length added <= if is_select e then 1 else 0)%nat.
Proof.
  intros Hstep.
  assert (Hsame : placedObjects s' = placedObjects s ->
            exists added, placedObjects s' = placedObjects s ++ added /\
                          (length added <= if is_select e then 1 else 0)%nat).
  { intros Ht. exists []. rewrite app_nil_r. split; [exact Ht|].
    simpl. destruct (is_select e); lia. }
  destruct e; cbn in Hstep.
  - injection Hstep as <-. apply Hsame, placed_loadModel_B.
  - destruct (0 <=? dt)%Z; [|discriminate]. injection Hstep as <-.
    apply Hsame; reflexivity.
  - destruct (loads s !! i) as [l|]; [|discriminate].
    destruct (timeoutId l) as [d| |]; try discriminate.
    destruct (d <=? clock s)%Z; [|discriminate]. injection Hstep as <-.
    apply Hsame. unfold SceneB.on_timeout. destruct (String.eqb _ _); [reflexivity|].
    rewrite (proj1 (placed_loadModel_B _ _)). reflexivity.
  - destruct (loads s !! i) as [l|]; [|discriminate].
    destruct (reported l); [discriminate|]. injection Hstep as <-.
    apply Hsame; reflexivity.
  - destruct (loads s !! i) as [l|]; [|discriminate].
    destruct (reported l); [discriminate|].
    destruct (on_progress_inv _ _ _ _ _ Hstep) as [ -> | [percent ->] ]; apply Hsame; reflexivity.
  - destruct (loads s !! i) as [l|]; [|discriminate].
    destruct (reported l); [discriminate|]. injection Hstep as <-.
    apply Hsame. unfold SceneB.on_error. destruct (String.eqb _ _); [reflexivity|].
    rewrite (proj1 (placed_loadModel_B _ _)). reflexivity.
  - injection Hstep as <-. destruct (placed_onSelect_B s) as [H|H].
    + exists []. rewrite app_nil_r. split; [exact H | simpl; lia].
    + exists [next_object s]. split; [exact H | simpl; lia].
  - injection Hstep as <-. apply Hsame, placed_render_B.
  - discriminate.
  - injection Hstep as <-. apply Hsame. unfold SceneB.on_sessionstart.
    cbn [modelRef set_hitTestSourceRequiredRef set_sessionRef].
    destruct (modelRef s); reflexivity.
  - injection Hstep as <-. apply Hsame; reflexivity.
  - injection Hstep as <-. apply Hsame; reflexivity.
Qed.

Lemma placed_run (step : Event -> State -> option State) (events : list Event) :
  (forall e s s', step e s = Some s' ->
     exists added, placedObjects s' = placedObjects s ++ added /\
                   (length added <= if is_select e then 1 else 0)%nat) ->
  forall s s', run step events s = Some s' ->
    exists added, placedObjects s' = placedObjects s ++ added /\
                  (length added <= length (List.filter is_select events))%nat.
Proof.
  intros Hstep. induction events as [|e events IH]; intros s s' Hrun; simpl in Hrun.
  - injection Hrun as <-. exists []. rewrite app_nil_r. split; [reflexivity | simpl; lia].
  - destruct (step e s) as [s1|] eqn:E; [|discriminate].
    destruct (Hstep _ _ _ E) as (a1 & H1 & L1).
    destruct (IH _ _ Hrun) as (a2 & H2 & L2).
    exists (a1 ++ a2). rewrite H2, H1, <- app_assoc. split; [reflexivity|].
    rewrite length_app. simpl. destruct (is_select e); simpl in *; lia.
Qed.

(** X15.  The list of placed objects only grows, at its end: whatever events
    follow, in either revision, the list of before is a prefix of the list
    of after, and at most one object is added for each select event. *)
Theorem placed_objects_append_only (events : list Event) (s s' : State) :
  run SceneA.step events s = Some s' \/ run SceneB.step events s = Some s' ->
  exists added, placedObjects s' = placedObjects s ++ added /\
                (length added <= length (List.filter is_select events))%nat.
Proof.
  intros [H|H].
  - exact (placed_run SceneA.step events placed_step_A s s' H).
  - exact (placed_run SceneB.step events placed_step_B s s' H).
Qed.

Lemma placed_objects_append_only_witness :
  exists added,
    placedObjects (SceneB.onSelect (tracking_state level_pose))
    = placedObjects (init (Some true)) ++ added /\
    (length added <= length (List.filter is_select (tracking_events level_pose ++ [Select])))%nat.
Proof.
  apply (placed_objects_append_only (tracking_events level_pose ++ [Select])
           (init (Some true)) (SceneB.onSelect (tracking_state level_pose))).
  right. vm_compute. reflexivity.
Defined.

End PlacedObjects.

Section PlacedUntouched.

Lemma objects_render_B (frame : option XRFrame) (s : State) (id : nat) :
  reticleRef s <> Some id -> modelRef s <> Some id ->
  objects (SceneB.render frame s) !! id = objects s !! id.
Proof.
  intros Hr Hm. unfold SceneB.render, SceneB.update_reticle. destruct frame as [f|].
  - destruct (referenceSpace f && session f); [|reflexivity].
    destruct (hitTestSourceRequiredRef s); cbn;
      (destruct (hitTestSourceRef s); [|reflexivity]);
      (destruct (hitTestResults f) as [[|[pose|] ?]|]; try reflexivity);
      (destruct (reticleRef s) as [r|] eqn:Er; [|reflexivity]);
      cbn; apply lookup_alter_ne; congruence.
  - destruct (modelRef s) as [m|] eqn:Em; [|reflexivity].
    destruct (not_supported s); [|reflexivity].
    cbn. apply lookup_alter_ne. congruence.
Qed.

(** In the second revision no event touches an object that is already
    placed. *)
Lemma objects_step_B (e : Event) (s s' : State) (id : nat) :
  scene_inv s -> SceneB.step e s = Some s' -> id ∈ placedObjects s ->
  objects s' !! id = objects s !! id.
Proof.
  intros ((Hdom & _ & _) & _ & Hp) Hstep Hid.
  destruct (Hp id Hid) as (Hsome & _ & Hm & Hr).
  pose proof (Hdom id Hsome) as Hlt.
  destruct e; cbn in Hstep.
  - injection Hstep as <-. rewrite (proj2 (placed_loadModel_B _ _)). reflexivity.
  - destruct (0 <=? dt)%Z; [|discriminate]. injection Hstep as <-. reflexivity.
  - destruct (loads s !! i) as [l|]; [|discriminate].
    destruct (timeoutId l) as [d| |]; try discriminate.
    destruct (d <=? clock s)%Z; [|discriminate]. injection Hstep as <-.
    unfold SceneB.on_timeout. destruct (String.eqb _ _); [reflexivity|].
    rewrite (proj2 (placed_loadModel_B _ _)). reflexivity.
  - destruct (loads s !! i) as [l|]; [|discriminate].
    destruct (reported l); [discriminate|]. injection Hstep as <-.
    unfold SceneB.on_load. cbn. apply lookup_insert_ne. lia.
  - destruct (loads s !! i) as [l|]; [|discriminate].
    destruct (reported l); [discriminate|].
    destruct (on_progress_inv _ _ _ _ _ Hstep) as [ -> | [percent ->] ]; reflexivity.
  - destruct (loads s !! i) as [l|]; [|discriminate].
    destruct (reported l); [discriminate|]. injection Hstep as <-.
    unfold SceneB.on_error. destruct (String.eqb _ _); [reflexivity|].
    rewrite (proj2 (placed_loadModel_B _ _)). reflexivity.
  - injection Hstep as <-. unfold SceneB.onSelect.
    destruct (reticleRef s) as [r|]; [|reflexivity].
    destruct (objects s !! r) as [reticle|]; [|reflexivity].
    destruct (Three.visible reticle); [|reflexivity].
    destruct (modelRef s) as [m|]; [|reflexivity].
    destruct (objects s !! m) as [template|]; [|reflexivity].
    cbn. apply lookup_insert_ne. lia.
  - injection Hstep as <-. apply objects_render_B; assumption.
  - discriminate.
  - injection Hstep as <-. unfold SceneB.on_sessionstart.
    cbn [modelRef set_hitTestSourceRequiredRef set_sessionRef].
    destruct (modelRef s) as [m|] eqn:Em; [|reflexivity].
    cbn. apply lookup_alter_ne. congruence.
  - injection Hstep as <-. reflexivity.
  - injection Hstep as <-. reflexivity.
Qed.

Lemma objects_run_B (events : list Event) (s s' : State) (id : nat) :
  scene_inv s -> run SceneB.step events s = Some s' -> id ∈ placedObjects s ->
  objects s' !! id = objects s !! id /\ id ∈ placedObjects s'.
Proof.
  revert s. induction events as [|e events IH]; intros s Hinv Hrun Hid; simpl in Hrun.
  - injection Hrun as <-. auto.
  - destruct (SceneB.step e s) as [s1|] eqn:E; [|discriminate].
    destruct (placed_step_B _ _ _ E) as (added & Hadd & _).
    assert (Hid1 : id ∈ placedObjects s1) by (rewrite Hadd; apply elem_of_app; auto).
    destruct (IH s1 (scene_inv_step_B _ _ _ E Hinv) Hrun Hid1) as [Ho Hp].
    split; [|exact Hp]. rewrite Ho. exact (objects_step_B _ _ _ _ Hinv E Hid).
Qed.

(** X16.  In the second revision the component never changes a placed
    object again: once an object is in the list of placed objects, no later
    load, timeout, frame, session event or further placement alters its
    position, rotation, scale or visibility, and it stays in the list.  (The
    matrix, which the renderer recomposes from these, is not part of the
    statement.) *)
Theorem placed_object_never_changes (supported : option bool)
    (before after : list Event) (s s' : State) (id : nat) :
  run SceneB.step before (init supported) = Some s ->
  run SceneB.step after s = Some s' ->
  id ∈ placedObjects s ->
  exists o o',
    objects s !! id = Some o /\ objects s' !! id = Some o' /\
    placement o' = placement o /\ id ∈ placedObjects s'.
Proof.
  intros Hbefore Hafter Hid.
  pose proof (scene_inv_run _ before scene_inv_step_B _ _ Hbefore (scene_inv_init supported))
    as Hinv.
  destruct (objects_run_B after s s' id Hinv Hafter Hid) as [Ho Hp].
  destruct Hinv as (_ & _ & Hplaced). destruct (Hplaced id Hid) as ([o Hs] & _).
  exists o, o. rewrite Ho. auto.
Qed.

Lemma placed_object_never_changes_witness :
  let s := SceneB.onSelect (tracking_state level_pose) in
  let s' := SceneB.loadModel Duck_gltf
              (SceneB.render (Some (tracked_frame [Some turned_pose])) s) in
  exists o o',
    objects s !! 2%nat = Some o /\ objects s' !! 2%nat = Some o' /\
    placement o' = placement o /\ 2%nat ∈ placedObjects s'.
Proof.
  apply (placed_object_never_changes (Some true)
           (tracking_events level_pose ++ [Select])
           [Render (Some (tracked_frame [Some turned_pose])); LoadModel Duck_gltf]
           (SceneB.onSelect (tracking_state level_pose))).
  - vm_compute. reflexivity.
  - vm_compute. reflexivity.
  - vm_compute. left.
Defined.

End PlacedUntouched.

(** * Timers, progress and messages *)

Section Timers.

Lemma timer_pending_app (i : nat) (s s' : State) (extra : list Load) :
  loads s' = loads s ++ extra -> (i < length (loads s))%nat ->
  timer_pending i s' = timer_pending i s /\ (i < length (loads s'))%nat.
Proof.
  intros Hl Hi. unfold timer_pending. rewrite Hl, lookup_app_l by exact Hi.
  split; [reflexivity | rewrite length_app; lia].
Qed.

Lemma timer_pending_insert (i j : nat) (s s' : State) (l' : Load) (extra : list Load) :
  loads s' = <[j := l']> (loads s) ++ extra ->
  (forall d, timeoutId l' <> Pending d) ->
  (i < length (loads s))%nat ->
  timer_pending i s = false \/ i = j ->
  timer_pending i s' = false /\ (i < length (loads s'))%nat.
Proof.
  intros Hl Hnp Hi H. unfold timer_pending in *.
  rewrite Hl, lookup_app_l by (rewrite length_insert; exact Hi).
  split; [|rewrite length_app, length_insert; lia].
  destruct (decide (j = i)) as [->|Hne].
  - rewrite list_lookup_insert_eq by exact Hi.
    destruct (timeoutId l') as [d| |] eqn:E; [|reflexivity ..].
    exfalso. exact (Hnp d eq_refl).
  - rewrite list_lookup_insert_ne by exact Hne.
    destruct H as [H|H]; [exact H | congruence].
Qed.

Lemma clearTimeout_not_pending (t : TimerState) (d : Z) : clearTimeout t <> Pending d.
Proof. destruct t; discriminate. Qed.

(** A timer that is no longer pending stays so, in the second revision. *)
Lemma timer_step_B (e : Event) (i : nat) (s s' : State) :
  SceneB.step e s = Some s' ->
  (i < length (loads s))%nat -> timer_pending i s = false ->
  timer_pending i s' = false /\ (i < length (loads s'))%nat.
Proof.
  intros Hstep Hi Hp.
  assert (Hsame : loads s' = loads s ->
                  timer_pending i s' = false /\ (i < length (loads s'))%nat).
  { intros Hl. destruct (timer_pending_app i s s' [] (eq_trans Hl (eq_sym (app_nil_r _))) Hi)
      as [H1 H2]. rewrite H1. auto. }
  destruct e; cbn in Hstep.
  - injection Hstep as <-.
    destruct (view_inv _ _ _ _ _ _ (view_loadModel_B u s)) as (Hl & _).
    destruct (timer_pending_app i s _ _ Hl Hi) as [H1 H2]. rewrite H1. auto.
  - destruct (0 <=? dt)%Z; [|discriminate]. injection Hstep as <-. apply Hsame. reflexivity.
  - destruct (loads s !! i0) as [l|]; [|discriminate].
    destruct (timeoutId l) as [d| |]; try discriminate.
    destruct (d <=? clock s)%Z; [|discriminate]. injection Hstep as <-.
    pose proof (view_on_timeout_B i0 l s) as V. cbn zeta in V.
    destruct (String.eqb (url l) SceneB.fallbackModels_default);
      destruct (view_inv _ _ _ _ _ _ V) as (Hl & _).
    + apply (timer_pending_insert i i0 s _ _ [] (eq_trans Hl (eq_sym (app_nil_r _))));
        [discriminate | exact Hi | auto].
    + apply (timer_pending_insert i i0 s _ _ _ Hl); [discriminate | exact Hi | auto].
  - destruct (loads s !! i0) as [l|]; [|discriminate].
    destruct (reported l); [discriminate|]. injection Hstep as <-.
    apply (timer_pending_insert i i0 s _
             (mkLoad (url l) (clearTimeout (timeoutId l)) true) []);
      [cbn; rewrite app_nil_r; reflexivity
      | intros d; apply clearTimeout_not_pending | exact Hi | auto].
  - destruct (loads s !! i0) as [l|]; [|discriminate].
    destruct (reported l); [discriminate|].
    destruct (on_progress_inv _ _ _ _ _ Hstep) as [ -> | [percent ->] ]; apply Hsame; reflexivity.
  - destruct (loads s !! i0) as [l|]; [|discriminate].
    destruct (reported l); [discriminate|]. injection Hstep as <-.
    pose proof (view_on_error_B i0 l message s) as V. cbn zeta in V.
    destruct (String.eqb (url l) SceneB.fallbackModels_default);
      destruct (view_inv _ _ _ _ _ _ V) as (Hl & _).
    + apply (timer_pending_insert i i0 s _ _ [] (eq_trans Hl (eq_sym (app_nil_r _))));
        [intros d; apply clearTimeout_not_pending | exact Hi | auto].
    + apply (timer_pending_insert i i0 s _ _ _ Hl);
        [intros d; apply clearTimeout_not_pending | exact Hi | auto].
  - injection Hstep as <-. apply Hsame. unfold SceneB.onSelect.
    destruct (reticleRef s) as [r|]; [|reflexivity].
    destruct (objects s !! r) as [reticle|]; [|reflexivity].
    destruct (Three.visible reticle); [|reflexivity].
    destruct (modelRef s) as [m|]; [|reflexivity].
    destruct (objects s !! m) as [template|]; reflexivity.
  - injection Hstep as <-. apply Hsame. unfold SceneB.render, SceneB.update_reticle.
    destruct frame as [f|].
    + destruct (referenceSpace f && session f); [|reflexivity].
      destruct (hitTestSourceRequiredRef s); cbn;
        (destruct (hitTestSourceRef s); [|reflexivity]);
        (destruct (hitTestResults f) as [[|[pose|] ?]|]; try reflexivity);
        destruct (reticleRef s); reflexivity.
    + destruct (modelRef s); [|reflexivity]. destruct (not_supported s); reflexivity.
  - discriminate.
  - injection Hstep as <-. apply Hsame. unfold SceneB.on_sessionstart.
    cbn [modelRef set_hitTestSourceRequiredRef set_sessionRef].
    destruct (modelRef s); reflexivity.
  - injection Hstep as <-. apply Hsame. reflexivity.
  - injection Hstep as <-. apply Hsame. reflexivity.
Qed.

Lemma timer_run_B (events : list Event) (i : nat) (s s' : State) :
  run SceneB.step events s = Some s' ->
  (i < length (loads s))%nat -> timer_pending i s = false ->
  timer_pending i s' = false.
Proof.
  revert s. induction events as [|e events IH]; intros s Hrun Hi Hp; simpl in Hrun.
  - injection Hrun as <-. exact Hp.
  - destruct (SceneB.step e s) as [s1|] eqn:E; [|discriminate].
    destruct (timer_step_B _ _ _ _ E Hi Hp) as [Hp1 Hi1]. exact (IH s1 Hrun Hi1 Hp1).
Qed.

(** The callbacks of load [i] leave its timer cleared or fired. *)
Lemma timer_after_callback_B (e : Event) (i : nat) (s s' : State) :
  SceneB.step e s = Some s' ->
  (exists g c, e = OnLoad i g c) \/ (exists m, e = OnError i m) \/ e = Timeout i ->
  timer_pending i s' = false /\ (i < length (loads s'))%nat.
Proof.
  intros Hstep He.
  assert (Hlen : forall l, loads s !! i = Some l -> (i < length (loads s))%nat)
    by (intros l Hl; apply lookup_lt_is_Some; eauto).
  destruct He as [(g & c & ->)|[(m & ->)| ->]]; cbn in Hstep.
  - destruct (loads s !! i) as [l|] eqn:El; [|discriminate].
    destruct (reported l); [discriminate|]. injection Hstep as <-.
    apply (timer_pending_insert i i s _
             (mkLoad (url l) (clearTimeout (timeoutId l)) true) []);
      [cbn; rewrite app_nil_r; reflexivity
      | intros d; apply clearTimeout_not_pending | eauto | auto].
  - destruct (loads s !! i) as [l|] eqn:El; [|discriminate].
    destruct (reported l); [discriminate|]. injection Hstep as <-.
    pose proof (view_on_error_B i l m s) as V. cbn zeta in V.
    destruct (String.eqb (url l) SceneB.fallbackModels_default);
      destruct (view_inv _ _ _ _ _ _ V) as (Hl & _).
    + apply (timer_pending_insert i i s _ _ [] (eq_trans Hl (eq_sym (app_nil_r _))));
        [intros d; apply clearTimeout_not_pending | eauto | auto].
    + apply (timer_pending_insert i i s _ _ _ Hl);
        [intros d; apply clearTimeout_not_pending | eauto | auto].
  - destruct (loads s !! i) as [l|] eqn:El; [|discriminate].
    destruct (timeoutId l) as [d| |]; try discriminate.
    destruct (d <=? clock s)%Z; [|discriminate]. injection Hstep as <-.
    pose proof (view_on_timeout_B i l s) as V. cbn zeta in V.
    destruct (String.eqb (url l) SceneB.fallbackModels_default);
      destruct (view_inv _ _ _ _ _ _ V) as (Hl & _).
    + apply (timer_pending_insert i i s _ _ [] (eq_trans Hl (eq_sym (app_nil_r _))));
        [discriminate | eauto | auto].
    + apply (timer_pending_insert i i s _ _ _ Hl); [discriminate | eauto | auto].
Qed.

(** X17.  In the second revision the timer of a load does its work at most
    once and never after the loader has called back: once the success
    callback, the error callback or the timeout callback of load [i] has
    run, the timeout of load [i] cannot fire in any later state. *)
Theorem finished_load_never_times_out (e : Event) (i : nat) (later : list Event)
    (s s1 s2 : State) :
  (exists g c, e = OnLoad i g c) \/ (exists m, e = OnError i m) \/ e = Timeout i ->
  SceneB.step e s = Some s1 ->
  run SceneB.step later s1 = Some s2 ->
  SceneB.step (Timeout i) s2 = None.
Proof.
  intros He Hstep Hrun.
  destruct (timer_after_callback_B e i s s1 Hstep He) as [Hp Hi].
  pose proof (timer_run_B later i s1 s2 Hrun Hi Hp) as Hp2.
  unfold timer_pending in Hp2. cbn.
  destruct (loads s2 !! i) as [l|]; [|reflexivity].
  destruct (timeoutId l); [discriminate | reflexivity | reflexivity].
Qed.

Lemma finished_load_never_times_out_witness :
  SceneB.step (Timeout 0)
    (set_clock 40000
       (SceneB.on_load 0 (mkLoad Dragon_gltf (Pending 30000) false) sample_gltf origin
          (SceneB.loadModel Dragon_gltf (init None))))
  = None.
Proof.
  apply (finished_load_never_times_out (OnLoad 0 sample_gltf origin) 0 [Advance 40000]
           (SceneB.loadModel Dragon_gltf (init None))
           (SceneB.on_load 0 (mkLoad Dragon_gltf (Pending 30000) false) sample_gltf origin
              (SceneB.loadModel Dragon_gltf (init None)))).
  - left. exists sample_gltf, origin. reflexivity.
  - vm_compute. reflexivity.
  - vm_compute. reflexivity.
Defined.

End Timers.

Section Progress.

(** X19.  For a percentage between 0 and 100 the progress bar picks the
    width class of the ten below: the rounded value is one of 0, 10, ...,
    100, is not above the percentage and is less than ten below it. *)
Theorem rounded_progress_is_a_step (progress : Z) :
  (0 <= progress <= 100)%Z ->
  let r := ProgressBar.roundedProgress progress in
  (0 <= r <= 100)%Z /\ (r mod 10 = 0)%Z /\ (r <= progress < r + 10)%Z.
Proof.
  intros H r. subst r. unfold ProgressBar.roundedProgress.
  pose proof (Z.div_mod progress 10 ltac:(lia)) as Hdm.
  pose proof (Z.mod_pos_bound progress 10 ltac:(lia)) as Hb.
  split; [lia|]. split; [apply Z.mod_mul; lia | lia].
Qed.

Lemma rounded_progress_is_a_step_witness :
  (0 <= ProgressBar.roundedProgress 67 <= 100)%Z /\
  (ProgressBar.roundedProgress 67 mod 10 = 0)%Z /\
  (ProgressBar.roundedProgress 67 <= 67 < ProgressBar.roundedProgress 67 + 10)%Z.
Proof. apply (rounded_progress_is_a_step 67). lia. Defined.

(** X20.  The message of a failing load is only left in the state when the
    load was the default one.  For any other load the retry that the error
    callback or the timer starts clears the message at once, and so does
    the nested call for an invalid URL: the state shows a load in progress,
    without error. *)
Theorem retry_clears_the_error_message (i : nat) (l : Load) (message u : string)
    (s : State) :
  (url l <> SceneB.fallbackModels_default ->
   modelLoadError (SceneB.on_error i l message s) = None /\
   modelLoadError (SceneB.on_timeout i l s) = None /\
   modelLoaded (SceneB.on_error i l message s) = false /\
   modelLoaded (SceneB.on_timeout i l s) = false) /\
  (url l = SceneB.fallbackModels_default ->
   modelLoadError (SceneB.on_error i l message s)
   = Some ("Failed to load 3D model: " ++ message)%string /\
   modelLoadError (SceneB.on_timeout i l s)
   = Some "Model loading timed out. Please try again.") /\
  (SceneB.invalid_url u = true ->
   modelLoadError (SceneB.loadModel u s) = None /\
   in_flight (SceneB.loadModel u s)
   = in_flight s ++ [mkLoad SceneB.fallbackModels_default (Pending (clock s + 30000)) false]).
Proof.
  pose proof (view_on_error_B i l message s) as Ve.
  pose proof (view_on_timeout_B i l s) as Vt. cbn zeta in Ve, Vt.
  split; [|split].
  - intros Hne. apply String.eqb_neq in Hne. rewrite Hne in Ve, Vt.
    destruct (view_inv _ _ _ _ _ _ Ve) as (_ & _ & Hb1 & He1 & _).
    destruct (view_inv _ _ _ _ _ _ Vt) as (_ & _ & Hb2 & He2 & _). auto.
  - intros Heq. apply String.eqb_eq in Heq. rewrite Heq in Ve, Vt.
    destruct (view_inv _ _ _ _ _ _ Ve) as (_ & _ & _ & He1 & _).
    destruct (view_inv _ _ _ _ _ _ Vt) as (_ & _ & _ & He2 & _). auto.
  - intros Hinv. pose proof (view_loadModel_B u s) as V. rewrite Hinv in V.
    destruct (view_inv _ _ _ _ _ _ V) as (Hl & _ & _ & He & _).
    split; [exact He | exact (in_flight_app _ _ _ Hl eq_refl)].
Qed.

Lemma retry_clears_the_error_message_witness :
  modelLoadError
    (SceneB.on_error 0 (mkLoad Dragon_gltf (Pending 30000) false) "404"
       (SceneB.loadModel Dragon_gltf (init None))) = None /\
  modelLoadError (SceneB.loadModel "undefined" (init None)) = None.
Proof.
  destruct (retry_clears_the_error_message 0 (mkLoad Dragon_gltf (Pending 30000) false)
              "404" "undefined" (SceneB.loadModel Dragon_gltf (init None)))
    as (H1 & _ & _).
  destruct (retry_clears_the_error_message 0 (mkLoad Dragon_gltf (Pending 30000) false)
              "404" "undefined" (init None))
    as (_ & _ & H3).
  split.
  - apply H1. vm_compute. discriminate.
  - apply H3. reflexivity.
Defined.

End Progress.

(** * Third revision: the loader's path, the pulse, the loading manager *)

Section ThirdRevision.

Lemma split_no_char (c : ascii) (s : string) :
  has_char c s = false -> split c s = [s].
Proof.
  induction s as [|a r IH]; simpl; [reflexivity|].
  intros H. apply orb_false_iff in H as [Ha Hr]. rewrite Ha, (IH Hr). reflexivity.
Qed.

Lemma split_has_char (c : ascii) (s : string) :
  has_char c s = true -> exists w w' ws, split c s = w :: w' :: ws.
Proof.
  induction s as [|a r IH]; simpl; [discriminate|].
  intros H. destruct (Ascii.eqb a c) eqn:Ea.
  - destruct (has_char c r) eqn:Hr.
    + destruct (IH eq_refl) as (w & w' & ws & E). rewrite E. eauto.
    + rewrite (split_no_char c r Hr). eauto.
  - simpl in H. destruct (IH H) as (w & w' & ws & E). rewrite E. eauto.
Qed.

(** The last piece of a split is a suffix of the string. *)
Lemma last_piece_suffix (c : ascii) (s : string) :
  exists pre, s = (pre ++ List.last (split c s) "")%string.
Proof.
  induction s as [|a r [pre IH]].
  - exists "". reflexivity.
  - simpl. destruct (Ascii.eqb a c) eqn:Ea.
    + exists (String a pre). simpl.
      destruct (split c r) as [|w ws] eqn:E.
      * destruct (has_char c r) eqn:Hr.
        -- destruct (split_has_char c r Hr) as (? & ? & ? & E'). congruence.
        -- rewrite (split_no_char c r Hr) in E. discriminate.
      * rewrite IH at 1. reflexivity.
    + destruct (has_char c r) eqn:Hr.
      * destruct (split_has_char c r Hr) as (w & w' & ws & E). rewrite E in *.
        exists (String a pre). simpl. simpl in IH. rewrite IH at 1. reflexivity.
      * rewrite (split_no_char c r Hr). exists "". reflexivity.
Qed.

Lemma length_append (a b : string) :
  String.length (a ++ b) = (String.length a + String.length b)%nat.
Proof. induction a as [|c a IH]; simpl; [reflexivity | rewrite IH; reflexivity]. Qed.

Lemma last_piece_cons (c a : ascii) (r : string) :
  List.last (split c (String a r)) ""
  = if Ascii.eqb a c || has_char c r then List.last (split c r) "" else String a r.
Proof.
  simpl. destruct (Ascii.eqb a c) eqn:Ea; simpl.
  - destruct (split c r) as [|w ws] eqn:E; [|reflexivity].
    destruct (has_char c r) eqn:Hr.
    + destruct (split_has_char c r Hr) as (? & ? & ? & E'). congruence.
    + rewrite (split_no_char c r Hr) in E. discriminate.
  - destruct (has_char c r) eqn:Hr.
    + destruct (split_has_char c r Hr) as (w & w' & ws & E). rewrite E. reflexivity.
    + rewrite (split_no_char c r Hr). reflexivity.
Qed.

(** [lastIndexOf] in terms of the last piece. *)
Lemma lastIndexOf_from_spec (c : ascii) (s : string) (i found : Z) :
  SceneC.lastIndexOf_from c s i found
  = if has_char c s
    then (i + Z.of_nat (String.length s)
          - Z.of_nat (String.length (List.last (split c s) "")) - 1)%Z
    else found.
Proof.
  revert i found. induction s as [|a r IH]; intros i found; [reflexivity|].
  cbn [SceneC.lastIndexOf_from has_char]. rewrite IH, last_piece_cons.
  destruct (Ascii.eqb a c) eqn:Ea; cbn [orb].
  - destruct (has_char c r) eqn:Hr.
    + cbn [String.length]. lia.
    + rewrite (split_no_char c r Hr). cbn [List.last String.length]. lia.
  - destruct (has_char c r) eqn:Hr; [|reflexivity]. cbn [String.length]. lia.
Qed.

Lemma substring_prefix (pre rest : string) :
  String.substring 0 (String.length pre) (pre ++ rest) = pre.
Proof.
  induction pre as [|a pre IH]; simpl.
  - destruct rest; reflexivity.
  - rewrite IH. reflexivity.
Qed.

Lemma loader_path_prefix (u : string) :
  (SceneC.loader_path u ++ List.last (split "/" u) "")%string = u.
Proof.
  destruct (last_piece_suffix "/" u) as [pre E].
  assert (Hlen : String.length u
                 = (String.length pre + String.length (List.last (split "/" u) ""))%nat)
    by (rewrite E at 1; apply length_append).
  assert (Hn : Z.to_nat (SceneC.lastIndexOf "/" u + 1) = String.length pre).
  { unfold SceneC.lastIndexOf. rewrite lastIndexOf_from_spec.
    destruct (has_char "/" u) eqn:Hc; [lia|].
    rewrite (split_no_char "/" u Hc) in Hlen. cbn [List.last] in Hlen.
    assert (String.length pre = 0%nat) by lia. lia. }
  unfold SceneC.loader_path. rewrite Hn. rewrite E at 1.
  rewrite substring_prefix. symmetry. exact E.
Qed.

Lemma append_empty_r (s : string) : (s ++ "")%string = s.
Proof. induction s as [|a s IH]; [reflexivity | exact (f_equal (String a) IH)]. Qed.

(** X21.  The path given to [setPath] and the name given to [loader.load]
    put the URL together again whenever the URL does not end with a slash
    (its last piece is not empty).  For a URL that ends with a slash the
    path is the whole URL and the name is the whole URL once more. *)
Theorem loader_path_and_file (u : string) :
  let name := List.last (split "/" u) "" in
  (name <> "" ->
   SceneC.loader_file u = name /\
   (SceneC.loader_path u ++ SceneC.loader_file u)%string = u) /\
  (name = "" -> SceneC.loader_file u = u /\ SceneC.loader_path u = u).
Proof.
  intros name. pose proof (loader_path_prefix u) as H. fold name in H.
  unfold SceneC.loader_file. fold name. split; intros Hn.
  - apply String.eqb_neq in Hn. rewrite Hn. auto.
  - rewrite Hn in H. rewrite append_empty_r in H. rewrite Hn.
    split; [reflexivity | exact H].
Qed.

Lemma loader_path_and_file_witness :
  SceneC.loader_file Dragon_gltf = "Dragon.gltf" /\
  (SceneC.loader_path Dragon_gltf ++ SceneC.loader_file Dragon_gltf)%string = Dragon_gltf.
Proof.
  destruct (loader_path_and_file Dragon_gltf) as [H _].
  destruct H as [H1 H2]; [vm_compute; discriminate|].
  split; [rewrite H1; reflexivity | exact H2].
Defined.

(** X22.  The pulse of the third revision ends where the second revision
    starts: once 300 ms have passed, [animateScale] gives the placed object
    the scale of the template again, and the object then is exactly the one
    the second revision's [onSelect] creates. *)
Theorem pulse_ends_at_template_scale (s : State) (r m : nat)
    (reticle template : Three.Object3D) (startTime time : Q) :
  wf s ->
  reticleRef s = Some r -> objects s !! r = Some reticle ->
  Three.visible reticle = true ->
  modelRef s = Some m -> objects s !! m = Some template ->
  (300 <= time - startTime)%Q ->
  let n := next_object s in
  let placed :=
    Three.set_visible true
      (Three.set_position (Three.setFromMatrixPosition (Three.matrix reticle)) template) in
  objects (SceneC.onSelect s) !! n
  = Some (Three.set_scale (Three.scaled (12 # 10) (Three.scale template)) placed) /\
  objects (SceneC.animateScale n (Three.scale template) startTime time (SceneC.onSelect s))
    !! n = Some placed /\
  objects (SceneB.onSelect s) !! n = Some placed.
Proof.
  intros Hwf Hr Hro Hv Hm Hmo Ht n placed.
  assert (Hc : objects (SceneC.onSelect s) !! n
               = Some (Three.set_scale (Three.scaled (12 # 10) (Three.scale template)) placed)).
  { unfold SceneC.onSelect. rewrite Hr, Hro, Hv, Hm, Hmo. cbn. apply lookup_insert_eq. }
  split; [exact Hc|]. split.
  - unfold SceneC.animateScale. apply Qle_bool_iff in Ht. rewrite Ht. cbn [negb].
    unfold update_object. cbn [objects set_objects]. rewrite lookup_alter_eq, Hc.
    destruct template. reflexivity.
  - unfold SceneB.onSelect. rewrite Hr, Hro, Hv, Hm, Hmo. cbn. apply lookup_insert_eq.
Qed.

Lemma pulse_ends_at_template_scale_witness :
  objects (SceneC.animateScale 2 (Three.mkVector3 (5 # 100) (5 # 100) (5 # 100)) 1000 1300
             (SceneC.onSelect (tracking_state level_pose))) !! 2%nat
  = objects (SceneB.onSelect (tracking_state level_pose)) !! 2%nat.
Proof.
  destruct (pulse_ends_at_template_scale (tracking_state level_pose) 0 1
              (Three.set_matrix (Three.fromArray level_pose)
                 (Three.set_visible true Three.new_reticle))
              (Three.set_visible false
                 (Three.set_position (Three.mkVector3 0 0 (-2))
                    (Three.set_scale (Three.mkVector3 (5 # 100) (5 # 100) (5 # 100))
                       sample_gltf)))
              1000 1300) as (_ & H2 & H3).
  - apply wf_tracking_state.
  - reflexivity.
  - vm_compute. reflexivity.
  - reflexivity.
  - reflexivity.
  - vm_compute. reflexivity.
  - vm_compute. discriminate.
  - exact (eq_trans H2 (eq_sym H3)).
Defined.

(** X23.  The error callback of the loading manager decides on the URL of
    the resource that failed, not on the URL of the load: when that resource
    is not the default URL, a load of the default URL is started, also when
    the failing load was itself the default one, so the failure of a
    resource of the default model starts the default load again each time.
    Only a resource URL equal to the default URL leaves the message and
    starts nothing. *)
Theorem manager_error_restarts_default (i : nat) (l : Load) (resource : string)
    (s : State) :
  let cleared := <[i := mkLoad (url l) (clearTimeout (timeoutId l)) (reported l)]> (loads s) in
  (resource <> SceneC.fallbackModels_default ->
   loads (SceneC.on_manager_error i l resource s)
   = cleared ++ [mkLoad SceneC.fallbackModels_default (Pending (clock s + 30000)) false] /\
   modelRef (SceneC.on_manager_error i l resource s) = None /\
   modelLoadError (SceneC.on_manager_error i l resource s) = None) /\
  (resource = SceneC.fallbackModels_default ->
   loads (SceneC.on_manager_error i l resource s) = cleared /\
   modelLoadError (SceneC.on_manager_error i l resource s)
   = Some ("Failed to load resource: " ++ resource)%string).
Proof.
  intros cleared. unfold SceneC.on_manager_error. split; intros H.
  - apply String.eqb_neq in H. rewrite H. unfold SceneC.loadModel.
    match goal with
    | |- context [SceneB.loadModel ?u ?t] =>
        pose proof (view_loadModel_B u t) as V
    end.
    change (SceneB.invalid_url SceneC.fallbackModels_default) with false in V.
    cbn iota in V.
    destruct (view_inv _ _ _ _ _ _ V) as (Hl & Hm & _ & He & _). auto.
  - apply String.eqb_eq in H. rewrite H. cbn. auto.
Qed.

Lemma manager_error_restarts_default_witness :
  loads_of Box_gltf
    (SceneC.on_manager_error 0 (mkLoad Box_gltf (Pending 30000) false) "Box0.bin"
       (SceneC.loadModel Box_gltf (init None))) = 2%nat.
Proof.
  destruct (manager_error_restarts_default 0 (mkLoad Box_gltf (Pending 30000) false)
              "Box0.bin" (SceneC.loadModel Box_gltf (init None))) as [H _].
  destruct H as (Hl & _ & _); [vm_compute; discriminate|].
  unfold loads_of. rewrite Hl. vm_compute. reflexivity.
Defined.

End ThirdRevision.

Section PlacedVisible.

Lemma onSelect_B_visible (s : State) :
  placedObjects (SceneB.onSelect s) = placedObjects s \/
  (placedObjects (SceneB.onSelect s) = placedObjects s ++ [next_object s] /\
   Three.visible <$> (objects (SceneB.onSelect s) !! next_object s) = Some true).
Proof.
  unfold SceneB.onSelect.
  destruct (reticleRef s) as [r|]; [|auto].
  destruct (objects s !! r) as [reticle|]; [|auto].
  destruct (Three.visible reticle); [|auto].
  destruct (modelRef s) as [m|]; [|auto].
  destruct (objects s !! m) as [template|]; [|auto].
  right. cbn. split; [reflexivity|]. rewrite lookup_insert_eq. reflexivity.
Qed.

Lemma visible_step_B (e : Event) (s s' : State) :
  scene_inv s ->
  (forall id, id ∈ placedObjects s -> Three.visible <$> (objects s !! id) = Some true) ->
  SceneB.step e s = Some s' ->
  forall id, id ∈ placedObjects s' -> Three.visible <$> (objects s' !! id) = Some true.
Proof.
  intros Hinv Hvis Hstep id Hid.
  destruct (decide (id ∈ placedObjects s)) as [Hin|Hnot].
  - rewrite (objects_step_B e s s' id Hinv Hstep Hin). exact (Hvis id Hin).
  - destruct (placed_step_B e s s' Hstep) as (added & Hadd & Hlen).
    destruct e; cbn [is_select] in Hlen;
      try (destruct added; [rewrite app_nil_r in Hadd; congruence | simpl in Hlen; lia]).
    cbn in Hstep. injection Hstep as <-.
    destruct (onSelect_B_visible s) as [H|[H Hv]].
    + rewrite H in Hid. contradiction.
    + rewrite H in Hid. apply elem_of_app in Hid as [Hid|Hid]; [contradiction|].
      apply list_elem_of_singleton in Hid. subst id. exact Hv.
Qed.

Lemma visible_run_B (events : list Event) (s s' : State) :
  scene_inv s ->
  (forall id, id ∈ placedObjects s -> Three.visible <$> (objects s !! id) = Some true) ->
  run SceneB.step events s = Some s' ->
  forall id, id ∈ placedObjects s' -> Three.visible <$> (objects s' !! id) = Some true.
Proof.
  revert s. induction events as [|e events IH]; intros s Hinv Hvis Hrun; simpl in Hrun.
  - injection Hrun as <-. exact Hvis.
  - destruct (SceneB.step e s) as [s1|] eqn:E; [|discriminate].
    apply (IH s1); [exact (scene_inv_step_B _ _ _ E Hinv) | | exact Hrun].
    exact (visible_step_B e s s1 Hinv Hvis E).
Qed.

(** X25.  In the second revision every placed object is visible, in every
    state the scene can reach: hiding the template when a session starts,
    loading another model or losing the surface does not hide what was
    placed. *)
Theorem placed_objects_are_visible (supported : option bool) (events : list Event)
    (s : State) (id : nat) :
  run SceneB.step events (init supported) = Some s ->
  id ∈ placedObjects s ->
  Three.visible <$> (objects s !! id) = Some true.
Proof.
  intros Hrun. apply (visible_run_B events (init supported) s);
    [apply scene_inv_init | | exact Hrun].
  intros j Hj. inversion Hj.
Qed.

Lemma placed_objects_are_visible_witness :
  Three.visible
    <$> (objects (SceneB.on_sessionstart (SceneB.onSelect (tracking_state level_pose)))
           !! 2%nat)
  = Some true.
Proof.
  apply (placed_objects_are_visible (Some true)
           (tracking_events level_pose ++ [Select; SessionStart])).
  - vm_compute. reflexivity.
  - vm_compute. left.
Defined.

End PlacedVisible.

Section TemplateHidden.

Lemma loadModel_B_refs (u : string) (s : State) :
  reticleRef (SceneB.loadModel u s) = reticleRef s /\
  objects (SceneB.loadModel u s) = objects s.
Proof.
  unfold SceneB.loadModel, SceneB.reset_model.
  destruct (modelRef s) as [m|] eqn:Em; destruct (SceneB.invalid_url u);
    cbn; rewrite ?Em; cbn; auto.
Qed.

Lemma hidden_same (id : nat) (s s' : State) :
  reticleRef s' = reticleRef s -> objects s' = objects s ->
  hidden_object id s -> hidden_object id s'.
Proof. unfold hidden_object. intros -> ->. auto. Qed.

(** A new object leaves a stored one as it is. *)
Lemma hidden_insert (id : nat) (o : Three.Object3D) (s s' : State) :
  reticleRef s' = reticleRef s -> objects s' = <[next_object s := o]> (objects s) ->
  wf s -> hidden_object id s -> hidden_object id s'.
Proof.
  unfold hidden_object. intros -> -> (Hdom & _) [Hr Hv]. split; [exact Hr|].
  rewrite lookup_insert_ne; [exact Hv|].
  assert ((id < next_object s)%nat); [|lia].
  apply Hdom. destruct (objects s !! id); [eauto | discriminate].
Qed.

(** Writing to another object, or writing something else than
    [visible = true], leaves a hidden object hidden. *)
Lemma hidden_update (id target : nat) (f : Three.Object3D -> Three.Object3D) (s : State) :
  target <> id \/ (forall o, Three.visible (f o) = false \/
                             Three.visible (f o) = Three.visible o) ->
  hidden_object id s -> hidden_object id (update_object target f s).
Proof.
  unfold hidden_object, update_object. cbn. intros H [Hr Hv]. split; [exact Hr|].
  destruct (decide (target = id)) as [->|Hne].
  - destruct H as [H|H]; [contradiction|].
    rewrite lookup_alter_eq. destruct (objects s !! id) as [o|]; [|discriminate].
    cbn in *. destruct (H o) as [E|E]; rewrite E; [reflexivity | exact Hv].
  - rewrite lookup_alter_ne by exact Hne. exact Hv.
Qed.

Lemma hidden_step_B (e : Event) (s s' : State) (id : nat) :
  wf s -> hidden_object id s -> SceneB.step e s = Some s' -> hidden_object id s'.
Proof.
  intros Hwf H Hstep. pose proof H as [Hr Hv].
  destruct e; cbn in Hstep.
  - injection Hstep as <-.
    destruct (loadModel_B_refs u s) as [Er Eo]. exact (hidden_same _ _ _ Er Eo H).
  - destruct (0 <=? dt)%Z; [|discriminate]. injection Hstep as <-. exact H.
  - destruct (loads s !! i) as [l|]; [|discriminate].
    destruct (timeoutId l) as [d| |]; try discriminate.
    destruct (d <=? clock s)%Z; [|discriminate]. injection Hstep as <-.
    unfold SceneB.on_timeout. destruct (String.eqb _ _); [exact H|].
    destruct (loadModel_B_refs SceneB.fallbackModels_default
                (set_modelLoadError (Some "Model loading timed out. Please try again.")
                   (timer_fired i l s))) as [Er Eo].
    exact (hidden_same _ _ _ Er Eo H).
  - destruct (loads s !! i) as [l|]; [|discriminate].
    destruct (reported l); [discriminate|]. injection Hstep as <-.
    unfold SceneB.on_load. eapply (hidden_insert id _ s); [reflexivity .. | exact Hwf | exact H].
  - destruct (loads s !! i) as [l|]; [|discriminate].
    destruct (reported l); [discriminate|].
    destruct (on_progress_inv _ _ _ _ _ Hstep) as [ -> | [percent ->] ]; exact H.
  - destruct (loads s !! i) as [l|]; [|discriminate].
    destruct (reported l); [discriminate|]. injection Hstep as <-.
    unfold SceneB.on_error. destruct (String.eqb _ _); [exact H|].
    destruct (loadModel_B_refs SceneB.fallbackModels_default
                (set_modelLoadError (Some ("Failed to load 3D model: " ++ message)%string)
                   (loader_reported i l s))) as [Er Eo].
    exact (hidden_same _ _ _ Er Eo H).
  - injection Hstep as <-. unfold SceneB.onSelect.
    destruct (reticleRef s) as [r|] eqn:Er; [|exact H].
    destruct (objects s !! r) as [reticle|]; [|exact H].
    destruct (Three.visible reticle); [|exact H].
    destruct (modelRef s) as [m|] eqn:Em; [|exact H].
    destruct (objects s !! m) as [template|] eqn:Et; [|exact H].
    eapply (hidden_insert id _ s); [reflexivity | reflexivity | exact Hwf | exact H].
  - injection Hstep as <-. unfold SceneB.render, SceneB.update_reticle.
    destruct frame as [f|].
    + destruct (referenceSpace f && session f); [|exact H].
      assert (Hreq : hidden_object id
                       (if hitTestSourceRequiredRef s
                        then set_hitTestSourceRequiredRef false s else s))
        by (destruct (hitTestSourceRequiredRef s); exact H).
      revert Hreq.
      generalize (if hitTestSourceRequiredRef s
                  then set_hitTestSourceRequiredRef false s else s).
      intros t Ht. cbv zeta.
      destruct (hitTestSourceRef t); [|exact Ht].
      destruct (hitTestResults f) as [[|[pose|] ?]|]; try exact Ht;
        (destruct (reticleRef t) as [r|] eqn:Er; [|exact Ht]);
        (apply hidden_update; [|exact Ht]); left;
        intros ->; destruct Ht as [Hne _]; contradiction.
    + destruct (modelRef s) as [m|]; [|exact H].
      destruct (not_supported s); [|exact H].
      apply hidden_update; [|exact H]. right. intros o. right. reflexivity.
  - discriminate.
  - injection Hstep as <-. unfold SceneB.on_sessionstart.
    cbn [modelRef set_hitTestSourceRequiredRef set_sessionRef].
    destruct (modelRef s) as [m|]; [|exact H].
    apply hidden_update; [|exact H]. right. intros o. left. reflexivity.
  - injection Hstep as <-. exact H.
  - injection Hstep as <-. exact H.
Qed.

Lemma hidden_run_B (events : list Event) (s s' : State) (id : nat) :
  wf s -> hidden_object id s -> run SceneB.step events s = Some s' -> hidden_object id s'.
Proof.
  revert s. induction events as [|e events IH]; intros s Hwf H Hrun; simpl in Hrun.
  - injection Hrun as <-. exact H.
  - destruct (SceneB.step e s) as [s1|] eqn:E; [|discriminate].
    exact (IH s1 (wf_step_B _ _ _ E Hwf) (hidden_step_B _ _ _ _ Hwf H E) Hrun).
Qed.

(** X26.  In the second revision no event shows an object again that is
    hidden and is not the reticle.  So the template that the start of a
    session hides stays hidden whatever follows, also after the session has
    ended: the preview does not come back until another model is
    installed. *)
Theorem hidden_template_stays_hidden (events : list Event) (s s' : State) (m : nat) :
  wf s -> modelRef s = Some m -> reticleRef s <> Some m ->
  run SceneB.step (SessionStart :: events) s = Some s' ->
  Three.visible <$> (objects s' !! m) = Some false.
Proof.
  intros Hwf Hm Hr Hrun. cbn [run SceneB.step] in Hrun.
  apply (hidden_run_B events (SceneB.on_sessionstart s) s' m); [| |exact Hrun].
  - exact (wf_step_B SessionStart s _ eq_refl Hwf).
  - unfold SceneB.on_sessionstart.
    cbn [modelRef set_hitTestSourceRequiredRef set_sessionRef]. rewrite Hm.
    split; [exact Hr|]. cbn. rewrite lookup_alter_eq.
    destruct Hwf as (_ & Hstored & _). destruct (Hstored m Hm) as [o ->]. reflexivity.
Qed.

Lemma hidden_template_stays_hidden_witness :
  Three.visible
    <$> (objects (SceneB.render None
                    (set_hitTestSourceRequiredRef false
                       (set_hitTestSourceRef false
                          (set_sessionRef false
                             (SceneB.on_sessionstart
                                (SceneB.on_load 0
                                   (mkLoad Duck_gltf (Pending 30000) false) sample_gltf
                                   origin (SceneB.loadModel Duck_gltf (init None))))))))
           !! 1%nat)
  = Some false.
Proof.
  apply (hidden_template_stays_hidden [SessionEnd; Render None]
           (SceneB.on_load 0 (mkLoad Duck_gltf (Pending 30000) false) sample_gltf origin
              (SceneB.loadModel Duck_gltf (init None)))).
  - apply (wf_run SceneB.step [LoadModel Duck_gltf; OnLoad 0 sample_gltf origin]
             wf_step_B (init None)); [vm_compute; reflexivity | apply wf_init].
  - reflexivity.
  - vm_compute. discriminate.
  - vm_compute. reflexivity.
Defined.

End TemplateHidden.

Section OlderPage.

Lemma default_test_model_not_empty : HomeOld.DEFAULT_TEST_MODEL <> "".
Proof. discriminate. Qed.

Lemma shown_model_not_empty (s : HomeOld.PageState) : HomeOld.shown_model s <> "".
Proof.
  unfold HomeOld.shown_model. destruct (HomeOld.modelUrl s) as [u|].
  - destruct (String.eqb u "") eqn:E; [discriminate|]. apply String.eqb_neq, E.
  - discriminate.
Qed.

(** X27.  The older page never leaves the AR view without a model.  For a
    prompt of ASCII characters: when a generation fails (the request is
    rejected, the answer is not a 200 response, or it has no URL) the older
    page keeps the model it had and shows the error beside it, while the
    newer page removes its model; when it succeeds both pages take the URL
    of the response.  Both send the same requests. *)
Theorem older_page_keeps_model_on_failure (fetch : JsValue -> Home.FetchResult)
    (s : HomeOld.PageState) (t : Home.PageState) :
  ascii_only (HomeOld.prompt s) = true ->
  Home.prompt t = HomeOld.prompt s ->
  let old := HomeOld.handleGenerate fetch s in
  let new := Home.handleGenerate fetch t in
  old.2 = new.2 /\
  HomeOld.shown_model old.1 <> "" /\
  (HomeOld.error old.1 = None <-> Home.error new.1 = None) /\
  (HomeOld.error old.1 = None ->
   exists u, u <> "" /\ HomeOld.modelUrl old.1 = Some u /\ Home.modelUrl new.1 = Some u /\
             HomeOld.shown_model old.1 = u) /\
  (HomeOld.error old.1 <> None ->
   HomeOld.modelUrl old.1 = HomeOld.modelUrl s /\
   (trim (HomeOld.prompt s) <> "" -> Home.modelUrl new.1 = None)).
Proof.
  intros _ Hp old new.
  split; [|split; [apply shown_model_not_empty|]].
  - subst old new. unfold HomeOld.handleGenerate, Home.handleGenerate. rewrite Hp.
    destruct (String.eqb (trim (HomeOld.prompt s)) ""); [reflexivity|].
    cbn [snd]. unfold Home.request_body, HomeOld.request_body. rewrite Hp. reflexivity.
  - subst old new. unfold HomeOld.handleGenerate, Home.handleGenerate.
    assert (Hb : Home.request_body t = HomeOld.request_body s)
      by (unfold Home.request_body, HomeOld.request_body; rewrite Hp; reflexivity).
    rewrite Hp, Hb.
    destruct (String.eqb (trim (HomeOld.prompt s)) "") eqn:E.
    + cbn. repeat split; try discriminate; try congruence.
      intros Hne. apply String.eqb_eq in E. contradiction.
    + cbn [fst].
      destruct (fetch (HomeOld.request_body s)) as [message|[url d a mt|e|e u]];
        try (cbn; repeat split; try discriminate; try congruence; fail).
      destruct (String.eqb url "") eqn:Eu;
        [cbn; repeat split; try discriminate; try congruence|].
      cbn. repeat split; try congruence.
      intros _. exists url. unfold HomeOld.shown_model. cbn. rewrite Eu.
      repeat split. apply String.eqb_neq, Eu.
Qed.

Lemma older_page_keeps_model_on_failure_witness :
  let fetch := fun _ : JsValue => Home.Answered (Json500 "Failed to generate model" Box_gltf) in
  let s := HomeOld.mkPageState "a duck" (Some Duck_gltf) false None in
  let t := Home.mkPageState "a duck" (Some Duck_gltf) None false None false None in
  HomeOld.modelUrl (HomeOld.handleGenerate fetch s).1 = Some Duck_gltf /\
  Home.modelUrl (Home.handleGenerate fetch t).1 = None.
Proof.
  destruct (older_page_keeps_model_on_failure
              (fun _ : JsValue => Home.Answered (Json500 "Failed to generate model" Box_gltf))
              (HomeOld.mkPageState "a duck" (Some Duck_gltf) false None)
              (Home.mkPageState "a duck" (Some Duck_gltf) None false None false None)
              eq_refl eq_refl) as (_ & _ & _ & _ & H).
  destruct H as [H1 H2]; [vm_compute; discriminate|].
  split; [exact H1 | apply H2; vm_compute; discriminate].
Defined.



End OlderPage.
